(** * mxnumplan: the digit-pattern compiler and differencer

    A shallow embedding of [src/mxnumplan.py] (class [Pattern],
    [optimize_patterns], [list_compare]) and the properties of its
    expander, summarizer and differencer.

    Python values are embedded as follows.
    - [str] is [string]; its characters are code points below 256, compared
      by code point ([String.compare]), as Python compares strings.
    - [int] is [Z].
    - A CSV row (the mapping produced by [csv.DictReader]) is a
      [gmap string field]: a field is a [str], or the [None] that the reader
      stores for the columns that a short row lacks; a column that is absent
      raises [KeyError].
    - A raised exception is the [Raise] outcome of the [result] monad.
    - A generator that is consumed into a list is the list it yields, or the
      exception that interrupts it. *)

From Stdlib Require Import ZArith Lia Ascii Btauto.
From stdpp Require Import base option list sorting gmap strings.

Local Open Scope Z_scope.

(** ** Outcomes of a Python computation *)

Inductive exn : Type := KeyError | ValueError | IndexError | TypeError.

(** [Fuel] is not a Python outcome: it marks a loop of the embedding that
    was given too few iterations.  The lemmas [trim_loop_fuel] and
    [compare_loop_fuel] show that no function below ever produces it. *)
Inductive result (A : Type) : Type :=
  | Ok (a : A)
  | Raise (e : exn)
  | Fuel.
Arguments Ok {A} a.
Arguments Raise {A} e.
Arguments Fuel {A}.

Definition bind {A B} (r : result A) (k : A -> result B) : result B :=
  match r with
  | Ok a => k a
  | Raise e => Raise e
  | Fuel => Fuel
  end.

#[global] Instance result_ret : MRet result := fun _ a => Ok a.
#[global] Instance result_bind : MBind result := fun _ _ k r => bind r k.

(** ** Python string primitives *)

Module PyStr.

(** [s[-1]]: [None] stands for the [IndexError] of an empty string. *)
Fixpoint last_char (s : string) : option ascii :=
  match s with
  | EmptyString => None
  | String c EmptyString => Some c
  | String _ s' => last_char s'
  end.

(** [s[:-1]] *)
Fixpoint drop_last (s : string) : string :=
  match s with
  | EmptyString => EmptyString
  | String _ EmptyString => EmptyString
  | String c s' => String c (drop_last s')
  end.

(** [c * n] for a one-character string [c]; a negative count gives [''],
    which the caller obtains through [Z.to_nat]. *)
Fixpoint repeat_char (c : ascii) (n : nat) : string :=
  match n with
  | O => EmptyString
  | S n' => String c (repeat_char c n')
  end.

Definition lt (a b : string) : bool :=
  match String.compare a b with Lt => true | _ => false end.
Definition gt (a b : string) : bool :=
  match String.compare a b with Gt => true | _ => false end.
Definition eqb (a b : string) : bool := String.eqb a b.

(** truth value of a string: non-empty *)
Definition truthy (s : string) : bool :=
  match s with EmptyString => false | _ => true end.

Definition len (s : string) : Z := Z.of_nat (String.length s).

Definition is_digit (c : ascii) : bool :=
  let n := N_of_ascii c in (48 <=? n)%N && (n <=? 57)%N.

Definition digit_val (c : ascii) : Z := Z.of_N (N_of_ascii c) - 48.

Definition digit_char (d : Z) : ascii := ascii_of_N (Z.to_N (d + 48)).

(** Code points below 256 that [int()] strips as white space: tab to
    carriage return, the blank, U+0085 and U+00A0.  The separators U+001C to
    U+001F, which [str.isspace] accepts, are not among them. *)
Definition is_space (c : ascii) : bool :=
  let n := N_of_ascii c in
  ((9 <=? n)%N && (n <=? 13)%N) || (n =? 32)%N || (n =? 133)%N || (n =? 160)%N.

Fixpoint lstrip (s : string) : string :=
  match s with
  | String c s' => if is_space c then lstrip s' else s
  | EmptyString => EmptyString
  end.

Fixpoint rstrip (s : string) : string :=
  match s with
  | EmptyString => EmptyString
  | String c s' =>
      match rstrip s' with
      | EmptyString => if is_space c then EmptyString else String c EmptyString
      | r => String c r
      end
  end.

(** The digits of an [int()] literal: decimal digits, where a single
    underscore may stand between two digits.  [prev] tells whether the
    previous character was a digit. *)
Fixpoint digits_us (prev : bool) (acc : Z) (s : string) : option Z :=
  match s with
  | EmptyString => if prev then Some acc else None
  | String c s' =>
      if is_digit c then digits_us true (10 * acc + digit_val c) s'
      else if Ascii.eqb c "_" then
             if prev then digits_us false acc s' else None
           else None
  end.

(** [int(s)] in base 10: surrounding white space, an optional sign, then
    the digits.  Anything else is a [ValueError]. *)
Definition int (s : string) : result Z :=
  match lstrip (rstrip s) with
  | EmptyString => Raise ValueError
  | String c body =>
      if Ascii.eqb c "-" then
        match digits_us false 0 body with
        | Some n => Ok (- n)
        | None => Raise ValueError
        end
      else if Ascii.eqb c "+" then
        match digits_us false 0 body with
        | Some n => Ok n
        | None => Raise ValueError
        end
      else
        match digits_us false 0 (String c body) with
        | Some n => Ok n
        | None => Raise ValueError
        end
  end.

(** [str(n)] for [0 <= n]: the decimal digits, most significant first.
    The recursion divides by ten; [fuel] bounds the number of digits. *)
Fixpoint dec_loop (fuel : nat) (n : Z) : string :=
  match fuel with
  | O => EmptyString
  | S fuel' =>
      if n <? 10 then String (digit_char n) EmptyString
      else dec_loop fuel' (n / 10) +:+ String (digit_char (n mod 10)) EmptyString
  end.

Definition dec (n : Z) : string := dec_loop (S (Z.to_nat n)) n.

(** [s.rjust(width, '0')] *)
Definition zfill (width : nat) (s : string) : string :=
  repeat_char "0" (width - String.length s) +:+ s.

(** [f'{i:0{width}d}']: sign-aware zero padding. *)
Definition format_0d (i : Z) (width : nat) : string :=
  if i <? 0 then String "-" (zfill (width - 1) (dec (- i)))
  else zfill width (dec i).

End PyStr.

(** ** The class [Pattern] *)

Record Pattern : Type := mkPattern {
  prefix : string;
  start : string;
  end_ : string;
  summary : string
}.

#[global] Instance Pattern_eq_dec : EqDecision Pattern.
Proof. solve_decision. Defined.

(** The [while] loop of [__init__]:
    [while self.end and self.end[-1] == '9' and self.start[-1] == '0'].
    [self.start[-1]] raises [IndexError] when [start] is empty.  Every
    iteration shortens [end], so [String.length end] iterations suffice. *)
Fixpoint trim_loop (fuel : nat) (start end_ : string) : result (string * string) :=
  if negb (PyStr.truthy end_) then Ok (start, end_)
  else
    match PyStr.last_char end_ with
    | None => Ok (start, end_)
    | Some ce =>
        if negb (Ascii.eqb ce "9") then Ok (start, end_)
        else
          match PyStr.last_char start with
          | None => Raise IndexError
          | Some cs =>
              if negb (Ascii.eqb cs "0") then Ok (start, end_)
              else
                match fuel with
                | O => Fuel
                | S fuel' =>
                    trim_loop fuel' (PyStr.drop_last start) (PyStr.drop_last end_)
                end
          end
    end.

Definition trim (start end_ : string) : result (string * string) :=
  trim_loop (String.length end_) start end_.

(** [Pattern(p, start, end)] with [start] given (the [else] branch). *)
Definition Pattern_init (p start end_ : string) : result Pattern :=
  '(s, e) ← trim start end_;
  mret (mkPattern p s e "").

(** A field of a CSV row: a [str], or the [None] that [csv.DictReader]
    stores for a column that a short row lacks. *)
Inductive field : Type :=
  | Str (s : string)
  | PyNone.

(** [f'{v}'] *)
Definition field_str (v : field) : string :=
  match v with
  | Str s => s
  | PyNone => "None"
  end.

(** [int(v)]: [None] is a [TypeError]. *)
Definition field_int (v : field) : result Z :=
  match v with
  | Str s => PyStr.int s
  | PyNone => Raise TypeError
  end.

(** [v == s] for a string [s] *)
Definition field_eq (v : field) (s : string) : bool :=
  match v with
  | Str t => PyStr.eqb t s
  | PyNone => false
  end.

(** [p[key]] on a CSV row *)
Definition getitem (p : gmap string field) (key : string) : result field :=
  match p !! key with
  | Some v => Ok v
  | None => Raise KeyError
  end.

(** [Pattern(p)] with a CSV row (the [start is None] branch). *)
Definition Pattern_init_row (p : gmap string field) : result Pattern :=
  nir ← getitem p " NIR";
  serie ← getitem p " SERIE";
  ini ← getitem p " NUMERACION_INICIAL";
  i ← field_int ini;
  fin ← getitem p " NUMERACION_FINAL";
  f ← field_int fin;
  '(s, e) ← trim (PyStr.format_0d i 4) (PyStr.format_0d f 4);
  mret (mkPattern (field_str nir +:+ field_str serie) s e "").

(** [__lt__], [__eq__], [__gt__] *)
Definition pattern_lt (a b : Pattern) : bool :=
  PyStr.lt (prefix a) (prefix b)
  || (PyStr.eqb (prefix a) (prefix b)
      && (PyStr.lt (start a) (start b)
          || (PyStr.eqb (start a) (start b) && PyStr.lt (summary a) (summary b)))).

Definition pattern_eq (a b : Pattern) : bool :=
  PyStr.eqb (prefix a) (prefix b) && PyStr.eqb (start a) (start b)
  && PyStr.eqb (end_ a) (end_ b) && PyStr.eqb (summary a) (summary b).

Definition pattern_gt (a b : Pattern) : bool :=
  PyStr.gt (prefix a) (prefix b)
  || (PyStr.eqb (prefix a) (prefix b)
      && (PyStr.gt (start a) (start b)
          || (PyStr.eqb (start a) (start b) && PyStr.gt (summary a) (summary b)))).

(** Ascending order of two neighbours of a sorted list: [a < b or a == b]. *)
Definition pattern_le (a b : Pattern) : Prop :=
  pattern_lt a b = true \/ pattern_eq a b = true.

(** ** The expander *)

Fixpoint mapM {A B} (f : A -> result B) (l : list A) : result (list B) :=
  match l with
  | [] => Ok []
  | x :: l' => y ← f x; ys ← mapM f l'; mret (y :: ys)
  end.

(** [Pattern.expand]: [range(int(start), int(end) + 1)] is
    [seqZ a (b + 1 - a)]; the list [expanded] is built completely before the
    first pattern is yielded. *)
Definition expand (self : Pattern) : result (list Pattern) :=
  if negb (PyStr.truthy (start self)) then Ok [self]
  else
    let digits := String.length (start self) in
    a ← PyStr.int (start self);
    b ← PyStr.int (end_ self);
    mapM (fun i => Pattern_init (prefix self +:+ PyStr.format_0d i digits) "" "")
         (seqZ a (b + 1 - a)).

(** [Pattern.expand_patterns], consumed into a list *)
Fixpoint expand_patterns (i : list Pattern) : result (list Pattern) :=
  match i with
  | [] => Ok []
  | pattern :: rest =>
      ps ← expand pattern; qs ← expand_patterns rest; mret (ps ++ qs)
  end.

(** ** The summarizer *)

(** The pending group of [Pattern.summarize]: [None] while [prefix is None],
    otherwise the variables [prefix] and [summary].  The list [summarized]
    of the source only feeds [logging.debug] and is left out. *)
Definition group : Type := option (string * string).

(** "eject one summary pattern" *)
Definition eject (pfx sm : string) : result Pattern :=
  if PyStr.len sm =? 1 then Pattern_init (pfx +:+ sm) "" ""
  else
    summary_pattern ← Pattern_init pfx "" "";
    mret (if negb (PyStr.len sm =? 10)
          then mkPattern (prefix summary_pattern) (start summary_pattern)
                         (end_ summary_pattern) sm
          else summary_pattern).

(** One iteration of the [for pattern in chain(...)] loop: the new pending
    group and the patterns yielded during the iteration. *)
Definition summarize_step (pattern_len : Z) (st : group) (pattern : Pattern)
  : result (group * list Pattern) :=
  if negb (PyStr.len (prefix pattern) =? pattern_len) then Ok (st, [pattern])
  else if PyStr.truthy (summary pattern) then Ok (st, [pattern])
  else
    match st with
    | Some (pfx, sm) =>
        if negb (PyStr.eqb (PyStr.drop_last (prefix pattern)) pfx) then
          summary_pattern ← eject pfx sm;
          match PyStr.last_char (prefix pattern) with
          | None => Raise IndexError
          | Some c =>
              Ok (Some (PyStr.drop_last (prefix pattern), String c EmptyString),
                  [summary_pattern])
          end
        else
          match PyStr.last_char (prefix pattern) with
          | None => Raise IndexError
          | Some c => Ok (Some (pfx, sm +:+ String c EmptyString), [])
          end
    | None =>
        match PyStr.last_char (prefix pattern) with
        | None => Raise IndexError
        | Some c =>
            Ok (Some (PyStr.drop_last (prefix pattern), String c EmptyString), [])
        end
    end.

Fixpoint summarize_run (pattern_len : Z) (st : group) (l : list Pattern)
  : result (group * list Pattern) :=
  match l with
  | [] => Ok (st, [])
  | pattern :: l' =>
      '(st1, out) ← summarize_step pattern_len st pattern;
      '(st2, outs) ← summarize_run pattern_len st1 l';
      mret (st2, out ++ outs)
  end.

(** The marker that [summarize] chains after its input *)
Definition marker (pattern_len : Z) : result Pattern :=
  Pattern_init (PyStr.repeat_char "x" (Z.to_nat pattern_len)) "" "".

(** [Pattern.summarize], consumed into a list *)
Definition summarize (i : list Pattern) (pattern_len : Z) : result (list Pattern) :=
  m ← marker pattern_len;
  '(_, out) ← summarize_run pattern_len None (i ++ [m]);
  mret out.

(** ** [optimize_patterns] *)

(** [list.sort()] compares with [__lt__] only and is stable.  [pattern_lt]
    orders patterns by the key (prefix, start, summary), so the stable sorted
    arrangement is unique; it is computed here by stable insertion. *)
Fixpoint insert_sorted (x : Pattern) (l : list Pattern) : list Pattern :=
  match l with
  | [] => [x]
  | y :: l' => if pattern_lt y x then y :: insert_sorted x l' else x :: l
  end.

Definition sort (l : list Pattern) : list Pattern := foldr insert_sorted [] l.

(** [[Pattern(p) for p in patterns if p[' TIPO_RED'] == 'MOVIL']] *)
Fixpoint mobile_patterns (patterns : list (gmap string field))
  : result (list Pattern) :=
  match patterns with
  | [] => Ok []
  | p :: rest =>
      t ← getitem p " TIPO_RED";
      if field_eq t "MOVIL" then
        x ← Pattern_init_row p; xs ← mobile_patterns rest; mret (x :: xs)
      else mobile_patterns rest
  end.

(** [for pattern_len in range(10, 2, -1)]: sort, then one summarizer pass *)
Fixpoint summarize_rounds (lens : list Z) (patterns : list Pattern)
  : result (list Pattern) :=
  match lens with
  | [] => Ok patterns
  | pattern_len :: lens' =>
      ps ← summarize (sort patterns) pattern_len;
      summarize_rounds lens' ps
  end.

Definition optimize_patterns (patterns : list (gmap string field))
  : result (list Pattern) :=
  ps ← mobile_patterns patterns;
  ps ← expand_patterns (sort ps);
  summarize_rounds [10; 9; 8; 7; 6; 5; 4; 3] ps.

(** ** The differencer *)

(** [next(i, None)] on a list iterator: the element and the rest *)
Definition next (i : list Pattern) : option Pattern * list Pattern :=
  match i with
  | [] => (None, [])
  | x :: r => (Some x, r)
  end.

(** The [while True] loop of [list_compare].  [i_old] and [i_new] are what
    the two iterators have not yet produced: [head_old] and [head_new] were
    already taken from them.  Every iteration that does not [break] advances
    an iterator, so [length old + length new] iterations suffice. *)
Fixpoint compare_loop (fuel : nat) (head_old head_new : option Pattern)
    (i_old i_new deleted added : list Pattern)
  : result (list Pattern * list Pattern) :=
  match head_old, head_new with
  | None, None => Ok (deleted, added)
  | None, Some _ => Ok (deleted, added ++ i_new)
  | Some _, None => Ok (deleted ++ i_old, added)
  | Some o, Some n =>
      match fuel with
      | O => Fuel
      | S fuel' =>
          if pattern_eq o n then
            compare_loop fuel' (next i_old).1 (next i_new).1
                         (next i_old).2 (next i_new).2 deleted added
          else if pattern_gt o n then
            compare_loop fuel' head_old (next i_new).1
                         i_old (next i_new).2 deleted (added ++ [n])
          else
            compare_loop fuel' (next i_old).1 head_new
                         (next i_old).2 i_new (deleted ++ [o]) added
      end
  end.

Definition list_compare (old new : list Pattern)
  : result (list Pattern * list Pattern) :=
  compare_loop (length old + length new) (next old).1 (next new).1
               (next old).2 (next new).2 [] [].

(** ** Numbers matched by a pattern *)

Module Numbers.

Fixpoint all_digits (s : string) : bool :=
  match s with
  | EmptyString => true
  | String c s' => PyStr.is_digit c && all_digits s'
  end.

Fixpoint mem (c : ascii) (s : string) : bool :=
  match s with
  | EmptyString => false
  | String d s' => Ascii.eqb c d || mem c s'
  end.

(** [strip_prefix p n = Some r] when [n = p +:+ r] *)
Fixpoint strip_prefix (p n : string) : option string :=
  match p, n with
  | EmptyString, _ => Some n
  | String c p', String d n' => if Ascii.eqb c d then strip_prefix p' n' else None
  | String _ _, EmptyString => None
  end.

(** ['X' * k]: the number of wild cards; a negative [k] gives none *)
Definition fill (k : Z) : nat := Z.to_nat k.

(** The national numbers that the pattern rendered by [for_ucm] matches.
    A simple pattern is rendered as [prefix] followed by
    ['X' * (10 - len(prefix))]; a digit-set pattern as [prefix], one
    position that admits the digits of [summary], and
    ['X' * (9 - len(prefix))].  An ['X'] matches one decimal digit.
    A range pattern has no rendering and matches nothing. *)
Definition matches (p : Pattern) (n : string) : bool :=
  if PyStr.truthy (start p) then false
  else
    match strip_prefix (prefix p) n with
    | None => false
    | Some rest =>
        if PyStr.truthy (summary p) then
          match rest with
          | EmptyString => false
          | String d rest' =>
              mem d (summary p)
              && Nat.eqb (String.length rest') (fill (9 - PyStr.len (prefix p)))
              && all_digits rest'
          end
        else
          Nat.eqb (String.length rest) (fill (10 - PyStr.len (prefix p)))
          && all_digits rest
    end.

(** The union of the numbers matched by a list of patterns *)
Definition covers (ps : list Pattern) (n : string) : bool :=
  existsb (fun p => matches p n) ps.

(** The value of a string of decimal digits, most significant first *)
Fixpoint value_acc (acc : Z) (s : string) : Z :=
  match s with
  | EmptyString => acc
  | String c s' => value_acc (10 * acc + PyStr.digit_val c) s'
  end.

Definition value (s : string) : Z := value_acc 0 s.

End Numbers.

(** ** Rendering for the switch *)

(** The property [for_ucm].  For a range pattern the source formats [None]
    into the text. *)
Definition for_ucm (self : Pattern) : string :=
  "\+52" +:+
  (if PyStr.truthy (start self) then "None"
   else if PyStr.truthy (summary self) then
     prefix self +:+ "[" +:+ summary self +:+ "]"
     +:+ PyStr.repeat_char "X" (Z.to_nat (9 - PyStr.len (prefix self)))
   else
     prefix self +:+ PyStr.repeat_char "X" (Z.to_nat (10 - PyStr.len (prefix self)))).

(** How the switch reads a rendered pattern: a backslash makes the next
    character literal, [X] stands for one decimal digit, a bracketed list
    for one of its characters, any other character for itself. *)
Inductive ucm_mode : Type :=
  | Plain
  | Escaped
  | InSet (d : ascii) (found : bool).

Fixpoint ucm_accepts (m : ucm_mode) (pat num : string) : bool :=
  match pat with
  | EmptyString =>
      match m, num with
      | Plain, EmptyString => true
      | _, _ => false
      end
  | String c pat' =>
      match m with
      | InSet d found =>
          if Ascii.eqb c "]" then found && ucm_accepts Plain pat' num
          else ucm_accepts (InSet d (found || Ascii.eqb d c)) pat' num
      | Escaped =>
          match num with
          | String d num' => Ascii.eqb c d && ucm_accepts Plain pat' num'
          | EmptyString => false
          end
      | Plain =>
          if Ascii.eqb c "\" then ucm_accepts Escaped pat' num
          else
            match num with
            | EmptyString => false
            | String d num' =>
                if Ascii.eqb c "[" then ucm_accepts (InSet d false) pat' num'
                else if Ascii.eqb c "X" then PyStr.is_digit d && ucm_accepts Plain pat' num'
                else Ascii.eqb c d && ucm_accepts Plain pat' num'
            end
      end
  end.

(** A simple pattern: neither range nor digit set *)
Definition simple (pfx : string) : Pattern := mkPattern pfx "" "" "".


(** ** Notions used to state the properties of the summarizer *)

(** A pattern that a pass at [pattern_len] collects into a group: its prefix
    has the length of the pass and it has no digit set. *)
Definition groupable (pattern_len : Z) (p : Pattern) : bool :=
  (PyStr.len (prefix p) =? pattern_len) && negb (PyStr.truthy (summary p)).

(** A run of groupable patterns that share the group prefix [gp] *)
Definition is_group (pattern_len : Z) (gp : string) (g : list Pattern) : Prop :=
  Forall (fun p => groupable pattern_len p = true
                   /\ PyStr.drop_last (prefix p) = gp) g.

(** The trailing digits of a run, in the order of the run *)
Fixpoint collected (g : list Pattern) : string :=
  match g with
  | [] => ""
  | p :: g' =>
      match PyStr.last_char (prefix p) with
      | Some c => String c (collected g')
      | None => collected g'
      end
  end.

(** The pattern that closing the group [(pfx, sm)] yields *)
Definition eject_pattern (pfx sm : string) : Pattern :=
  if PyStr.len sm =? 1 then simple (pfx +:+ sm)
  else if PyStr.len sm =? 10 then simple pfx
  else mkPattern pfx "" "" sm.

(** What is yielded when the pending group is closed *)
Definition flush (st : group) : list Pattern :=
  match st with
  | None => []
  | Some (pfx, sm) => [eject_pattern pfx sm]
  end.

(** The simple patterns that the pending group stands for *)
Definition pending (st : group) : list Pattern :=
  match st with
  | None => []
  | Some (pfx, sm) =>
      (fun c => simple (pfx +:+ String c "")) <$> String.list_ascii_of_string sm
  end.

(** The pending group is not the group of prefix [gp]. *)
Definition not_pending (gp : string) (st : group) : Prop :=
  match st with
  | None => True
  | Some (pfx, _) => pfx <> gp
  end.

(** The simple patterns [gp + d] for the characters [d] of a list *)
Definition fan (gp : string) (ds : list ascii) : list Pattern :=
  (fun d => simple (gp +:+ String d "")) <$> ds.

(** [x] is the summary of a group: of a non-empty run [g] of consecutive
    elements of the list [h] of groupable patterns. *)
Definition summary_of (pattern_len : Z) (h : list Pattern) (x : Pattern) : Prop :=
  exists gp g a b,
    h = a ++ g ++ b /\ g <> [] /\ is_group pattern_len gp g
    /\ x = eject_pattern gp (collected g).

(** The pending group consists of the last groupable patterns of [h]. *)
Definition pending_in (pattern_len : Z) (h : list Pattern) (st : group) : Prop :=
  match st with
  | None => True
  | Some (gp, sm) =>
      exists a g, h = a ++ g /\ g <> [] /\ is_group pattern_len gp g
                  /\ sm = collected g
  end.

(** The numbers matched by the group of prefix [gp] with the collected
    digits [sm]: [gp], one of the digits of [sm], then wild cards. *)
Definition group_matches (gp sm n : string) : bool :=
  match Numbers.strip_prefix gp n with
  | Some (String d rest) =>
      Numbers.mem d sm
      && Nat.eqb (String.length rest) (Numbers.fill (9 - PyStr.len gp))
      && Numbers.all_digits rest
  | _ => false
  end.

(** A pending group of a pass at [pattern_len] over patterns of digits *)
Definition digit_group (pattern_len : Z) (st : group) : Prop :=
  match st with
  | None => True
  | Some (gp, sm) =>
      PyStr.len gp = pattern_len - 1 /\ Numbers.all_digits gp = true
      /\ sm <> "" /\ Numbers.all_digits sm = true
  end.

(** A sorted input with a duplicate: "5550" twice, then "5551" ... "5558" *)
Definition duplicated_input : list Pattern :=
  [simple "5550"; simple "5550"; simple "5551"; simple "5552"; simple "5553";
   simple "5554"; simple "5555"; simple "5556"; simple "5557"; simple "5558"].

(** ** Raw records of the dataset *)



(** The record is of the network type that [optimize_patterns] keeps. *)
Definition mobile (p : gmap string field) : Prop :=
  p !! " TIPO_RED" = Some (Str "MOVIL").



(** A text that is no number: [int()] rejects it. *)
Definition not_a_number (s : string) : Prop := PyStr.int s = Raise ValueError.


(** A character that occurs in some literal that [int()] accepts: a digit,
    white space, a sign or an underscore. *)
Definition int_char (c : ascii) : bool :=
  PyStr.is_digit c || PyStr.is_space c
  || Ascii.eqb c "+" || Ascii.eqb c "-" || Ascii.eqb c "_".

(** A text that is empty or has a character that no literal of [int()]
    contains *)
Definition foreign_text (s : string) : Prop :=
  s = "" \/ exists c, Numbers.mem c s = true /\ int_char c = false.


(** A record with the given fields *)
Definition record (tipo_red nir serie ini fin : field) : gmap string field :=
  <[" TIPO_RED" := tipo_red]> (<[" NIR" := nir]> (<[" SERIE" := serie]>
    (<[" NUMERACION_INICIAL" := ini]> (<[" NUMERACION_FINAL" := fin]> ∅)))).

(** A mobile record whose block runs from 5 down to 3 *)
Definition out_of_order_row : gmap string field :=
  record (Str "MOVIL") (Str "55") (Str "1234") (Str "5") (Str "3").

(** A mobile record whose block start is no number *)
Definition non_numeric_row : gmap string field :=
  record (Str "MOVIL") (Str "55") (Str "1234") (Str "12a") (Str "30").

(** A record of another network type that lacks every other field *)
Definition fixed_row : gmap string field := <[" TIPO_RED" := Str "FIJO"]> ∅.



(** A mobile record with the block 0000 - 1234 of the series 55 1234 *)
Definition block_row : gmap string field :=
  record (Str "MOVIL") (Str "55") (Str "1234") (Str "0") (Str "1234").

(** A mobile record whose block end has five digits *)
Definition wide_row : gmap string field :=
  record (Str "MOVIL") (Str "55") (Str "1234") (Str "0") (Str "99999").

(** ** The trim rule *)

(** The rule in the words of the specification: while [end] ends in 9 and
    [start] ends in 0 and both are non-empty, the trailing digit of both is
    dropped.  [fuel] bounds the iterations; [String.length end] suffice. *)
Fixpoint trim_rule_loop (fuel : nat) (start end_ : string) : string * string :=
  match fuel, PyStr.last_char start, PyStr.last_char end_ with
  | S fuel', Some cs, Some ce =>
      if Ascii.eqb ce "9" && Ascii.eqb cs "0" then
        trim_rule_loop fuel' (PyStr.drop_last start) (PyStr.drop_last end_)
      else (start, end_)
  | _, _, _ => (start, end_)
  end.

Definition trim_rule (start end_ : string) : string * string :=
  trim_rule_loop (String.length end_) start end_.

(** Where the loop of [__init__] leaves the rule: [start] is empty and [end]
    still ends in 9, so that [self.start[-1]] is evaluated on [''] *)
Definition start_exhausted (start end_ : string) : bool :=
  negb (PyStr.truthy start)
  && match PyStr.last_char end_ with
     | Some c => Ascii.eqb c "9"
     | None => false
     end.

(** ** Counting the covered numbers *)

(** The result of [covered_numbers]: an [int], or a [float], which
    [10 ** k] is for a negative [k].  The value of a float is not computed. *)
Inductive number : Type :=
  | Int (z : Z)
  | Float.

(** [10 ** k] *)
Definition pow10 (k : Z) : number := if k <? 0 then Float else Int (10 ^ k).

(** [n * x] for an [int] [n] *)
Definition times (n : Z) (x : number) : number :=
  match x with
  | Int z => Int (n * z)
  | Float => Float
  end.

(** [x + y] *)
Definition plus (x y : number) : number :=
  match x, y with
  | Int a, Int b => Int (a + b)
  | _, _ => Float
  end.

(** The property [covered_numbers].  Its first statement,
    [if self.start: r = None], has no effect: the [if ... else] that follows
    assigns [r] in both branches. *)
Definition covered_numbers (self : Pattern) : number :=
  if PyStr.truthy (summary self) then
    times (PyStr.len (summary self)) (pow10 (9 - PyStr.len (prefix self)))
  else pow10 (10 - PyStr.len (prefix self)).

(** [sum(p.covered_numbers for p in patterns)], as [pattern_analysis]
    computes it *)
Definition total_covered (patterns : list Pattern) : number :=
  foldl (fun acc p => plus acc (covered_numbers p)) (Int 0) patterns.

(** The integer that [covered_numbers] is when no exponent is negative *)
Definition covered_Z (p : Pattern) : Z :=
  if PyStr.truthy (summary p) then
    PyStr.len (summary p) * 10 ^ (9 - PyStr.len (prefix p))
  else 10 ^ (10 - PyStr.len (prefix p)).

(** [covered_numbers] of [p] is an integer. *)
Definition counted (p : Pattern) : Prop := covered_numbers p = Int (covered_Z p).

Definition sum_Z (ps : list Pattern) : Z := foldr (fun p acc => covered_Z p + acc) 0 ps.

(** The numbers that the pending group of a pass at [pattern_len] counts *)
Definition pending_Z (pattern_len : Z) (st : group) : Z :=
  match st with
  | None => 0
  | Some (_, sm) => PyStr.len sm * 10 ^ (10 - pattern_len)
  end.

(** What the loop of [list_compare] computes, by recursion on the two lists:
    the deleted and the added patterns.  When one list is used up, the first
    remaining element of the other list is in neither result. *)
Fixpoint merge_diff (old : list Pattern) : list Pattern -> list Pattern * list Pattern :=
  fix inner (new : list Pattern) : list Pattern * list Pattern :=
    match old, new with
    | [], [] => ([], [])
    | [], _ :: new' => ([], new')
    | _ :: old', [] => (old', [])
    | o :: old', n :: new' =>
        if pattern_eq o n then merge_diff old' new'
        else if pattern_gt o n then ((inner new').1, n :: (inner new').2)
        else (o :: (merge_diff old' new).1, (merge_diff old' new).2)
    end.

(** Strictly ascending lists of patterns *)
Definition ascending (l : list Pattern) : Prop :=
  StronglySorted (fun a b => pattern_lt a b = true) l.

(** ** Provisioning *)

(** The calls that [assert_partition] and [provision_patterns] make on the
    AXL helper object, with the arguments that matter here. *)
Inductive axl_call : Type :=
  | Get_route_partition (name : string)
  | Add_route_partition (name : string)
  | Get_route_list (name : string)
  | List_translation (partition : string)
  | List_route_pattern (partition : string)
  | Add_translation (pattern partition : string)
  | Add_route_pattern (pattern partition route_list : string)
  | Remove_translation (uuid : string)
  | Remove_route_pattern (uuid : string).

(** A call that changes the configuration of the switch *)
Definition is_write (c : axl_call) : bool :=
  match c with
  | Add_route_partition _ | Add_translation _ _ | Add_route_pattern _ _ _
  | Remove_translation _ | Remove_route_pattern _ => true
  | _ => false
  end.

(** An object that a list call returns: its fields ['pattern'] and ['uuid'] *)
Record ucm_object : Type := mkObject { o_pattern : string; o_uuid : string }.

(** What the switch answers.  Each of these calls is made at most once in a
    run, so one answer per call describes the switch: the uuid of the
    partition if it exists, the value that creating the partition returns,
    the route list if it exists, and the objects of the partition. *)
Record axl_answers : Type := mkAnswers {
  get_route_partition : option string;
  add_route_partition : option string;
  get_route_list : option string;
  list_objects : list ucm_object
}.

(** How a run ends: it returns, or [exit(code)] ends the process. *)
Inductive ending : Type :=
  | Returned
  | Exited (code : Z).

Definition PARTITION_NAME : string := "mobile".

(** [assert_partition(axl, name, read_only)]: the calls made and the value
    returned *)
Definition assert_partition (axl : axl_answers) (name : string) (read_only : bool)
  : list axl_call * option string :=
  match get_route_partition axl with
  | Some uuid => ([Get_route_partition name], Some uuid)
  | None =>
      if read_only then ([Get_route_partition name], None)
      else ([Get_route_partition name; Add_route_partition name],
            add_route_partition axl)
  end.

(** The patterns to add and the objects to remove, as [provision_patterns]
    determines them from the rendered patterns and the listed objects *)
Definition new_patterns (patterns : list string) (ucm_objects : list ucm_object)
  : list string :=
  filter (fun p => p ∉ o_pattern <$> ucm_objects) patterns.

Definition remove_objects (patterns : list string) (ucm_objects : list ucm_object)
  : list ucm_object :=
  filter (fun o => o_pattern o ∉ patterns) ucm_objects.

(** [provision_patterns] after the helper object is made: the calls on it,
    in order, and how the run ends.  [route_list_name] is [None] for blocking
    translation patterns. *)
Definition provision_patterns (axl : axl_answers) (read_only : bool)
    (route_list_name : option string) (patterns : list Pattern)
  : list axl_call * ending :=
  let '(calls, local_partition) := assert_partition axl PARTITION_NAME read_only in
  let calls :=
    match route_list_name with
    | None => calls
    | Some name => calls ++ [Get_route_list name]
    end in
  let stop :=
    match route_list_name with
    | None => false
    | Some _ =>
        match get_route_list axl with
        | None => negb read_only
        | Some _ => false
        end
    end in
  if stop then (calls, Exited 2)
  else
    let lister :=
      match route_list_name with
      | None => List_translation PARTITION_NAME
      | Some _ => List_route_pattern PARTITION_NAME
      end in
    let adder (pattern : string) :=
      match route_list_name with
      | None => Add_translation pattern PARTITION_NAME
      | Some name => Add_route_pattern pattern PARTITION_NAME name
      end in
    let remover (uuid : string) :=
      match route_list_name with
      | None => Remove_translation uuid
      | Some _ => Remove_route_pattern uuid
      end in
    let '(calls, ucm_objects) :=
      match local_partition with
      | None => (calls, [])
      | Some _ => (calls ++ [lister], list_objects axl)
      end in
    let patterns := for_ucm <$> patterns in
    let adds := if read_only then [] else adder <$> new_patterns patterns ucm_objects in
    let removes :=
      if read_only then []
      else (fun o => remover (o_uuid o)) <$> remove_objects patterns ucm_objects in
    (calls ++ adds ++ removes, Returned).

(** The patterns that the calls of a run add, and the uuids they remove *)
Definition added_by (calls : list axl_call) : list string :=
  omap (fun c => match c with
                 | Add_translation p _ | Add_route_pattern p _ _ => Some p
                 | _ => None
                 end) calls.

Definition removed_by (calls : list axl_call) : list string :=
  omap (fun c => match c with
                 | Remove_translation u | Remove_route_pattern u => Some u
                 | _ => None
                 end) calls.

(** A string that does not begin with a decimal digit *)
Definition no_digit_head (t : string) : Prop :=
  match t with
  | EmptyString => True
  | String c _ => PyStr.is_digit c = false
  end.

(** ** The downloaded files *)

(** The regular expressions used here are sequences of atoms that each match
    one character: a literal, [\d], or [.], which matches any character but
    a line feed. *)
Inductive atom : Type :=
  | Lit (c : ascii)
  | Digit
  | AnyChar.

Definition atom_matches (a : atom) (c : ascii) : bool :=
  match a with
  | Lit d => Ascii.eqb d c
  | Digit => PyStr.is_digit c
  | AnyChar => negb (Ascii.eqb c "010")
  end.

(** [re.match]: the expression matches at the start of the string; what
    follows the match is not looked at. *)
Fixpoint re_match (re : list atom) (s : string) : bool :=
  match re, s with
  | [], _ => true
  | _ :: _, EmptyString => false
  | a :: re', String c s' => atom_matches a c && re_match re' s'
  end.

Fixpoint literal (s : string) : list atom :=
  match s with
  | EmptyString => []
  | String c s' => Lit c :: literal s'
  end.

(** [pnn_Publico_\d{2}_\d{2}_\d{4}.zip] *)
Definition re_zip : list atom :=
  literal "pnn_Publico_" ++ [Digit; Digit; Lit "_"; Digit; Digit; Lit "_";
                             Digit; Digit; Digit; Digit; AnyChar]
  ++ literal "zip".

(** An index of a slice: a negative index counts from the end, and indices
    are clipped to the string. *)
Definition slice_index (n i : Z) : Z :=
  if i <? 0 then Z.max (i + n) 0 else Z.min i n.

(** [x[i:j]] *)
Definition slice (x : string) (i j : Z) : string :=
  let lo := slice_index (PyStr.len x) i in
  let hi := slice_index (PyStr.len x) j in
  String.substring (Z.to_nat lo) (Z.to_nat (hi - lo)) x.

(** The sort key: [f'{x[-8:-4]}{x[-11:-9]}{x[-14:-12]}'] *)
Definition zip_key (x : string) : string :=
  slice x (-8) (-4) +:+ slice x (-11) (-9) +:+ slice x (-14) (-12).

(** [list.sort(key=..., reverse=True)]: descending by key, and names with
    equal keys stay in their order; by stable insertion from the right. *)
Fixpoint insert_desc (x : string) (l : list string) : list string :=
  match l with
  | [] => [x]
  | y :: l' => if PyStr.lt (zip_key x) (zip_key y) then y :: insert_desc x l' else x :: l
  end.

Definition sort_desc (l : list string) : list string := foldr insert_desc [] l.

(** [all_zips()], for the directory listing [listdir] and the test [isfile] *)
Definition all_zips (listdir : list string) (isfile : string -> bool) : list string :=
  sort_desc (filter (fun f => re_match re_zip f && isfile f = true) listdir).

(** The date in a file name, read from the start as the expression reads it:
    [pnn_Publico_dd_mm_yyyy] *)
Definition date (f : string) : Z :=
  Numbers.value (String.substring 18 4 f) * 10000
  + Numbers.value (String.substring 15 2 f) * 100
  + Numbers.value (String.substring 12 2 f).

(** The pattern that [marker] builds *)
Definition marker_pattern (pattern_len : Z) : Pattern :=
  simple (PyStr.repeat_char "x" (Z.to_nat pattern_len)).

(** The ten decimal digits *)
Definition ten_digits : list ascii := String.list_ascii_of_string "0123456789".

(** The strings of [k] decimal digits *)
Fixpoint digit_strings (k : nat) : list string :=
  match k with
  | O => [""]
  | S k' => d ← ten_digits; (String d <$> digit_strings k')
  end.

(** A simple or digit-set pattern of the data model: no range, and a prefix
    of decimal digits. *)
Definition plain (p : Pattern) : Prop :=
  start p = "" /\ Numbers.all_digits (prefix p) = true.

(* ===================================================================== *)
(** * Properties *)
(* ===================================================================== *)

(** ** Strings *)

Section string_order.

Lemma ascii_compare_refl c : Ascii.compare c c = Eq.
Proof. unfold Ascii.compare. apply N.compare_refl. Qed.

Lemma str_compare_refl s : String.compare s s = Eq.
Proof. induction s as [|c s IH]; simpl; [done|]. by rewrite ascii_compare_refl. Qed.


Lemma ascii_compare_lt_trans a b c :
  Ascii.compare a b = Lt -> Ascii.compare b c = Lt -> Ascii.compare a c = Lt.
Proof.
  unfold Ascii.compare. rewrite !N.compare_lt_iff. apply N.lt_trans.
Qed.

Lemma str_compare_lt_trans a b c :
  String.compare a b = Lt -> String.compare b c = Lt -> String.compare a c = Lt.
Proof.
  revert b c. induction a as [|x a IH]; intros [|y b] [|z c]; simpl; try done.
  destruct (Ascii.compare x y) eqn:Hxy; try done.
  - apply Ascii.compare_eq_iff in Hxy as ->.
    destruct (Ascii.compare y z); try done. apply IH.
  - destruct (Ascii.compare y z) eqn:Hyz; try done.
    + apply Ascii.compare_eq_iff in Hyz as <-. by rewrite Hxy.
    + by rewrite (ascii_compare_lt_trans _ _ _ Hxy Hyz).
Qed.

Lemma str_gt_lt a b : PyStr.gt a b = PyStr.lt b a.
Proof.
  unfold PyStr.gt, PyStr.lt. rewrite (String.compare_antisym b a).
  by destruct (String.compare a b).
Qed.

Lemma str_lt_iff a b : PyStr.lt a b = true <-> String.compare a b = Lt.
Proof. unfold PyStr.lt. by destruct (String.compare a b). Qed.

Lemma str_eqb_iff a b : PyStr.eqb a b = true <-> a = b.
Proof. apply String.eqb_eq. Qed.

Lemma str_eqb_refl a : PyStr.eqb a a = true.
Proof. by apply str_eqb_iff. Qed.

Lemma str_lt_irrefl a : PyStr.lt a a = false.
Proof. unfold PyStr.lt. by rewrite str_compare_refl. Qed.

Lemma str_lt_trans a b c :
  PyStr.lt a b = true -> PyStr.lt b c = true -> PyStr.lt a c = true.
Proof. rewrite !str_lt_iff. apply str_compare_lt_trans. Qed.

Lemma str_lt_asym a b : PyStr.lt a b = true -> PyStr.lt b a = false.
Proof.
  intros H. destruct (PyStr.lt b a) eqn:Hba; [|done].
  pose proof (str_lt_trans _ _ _ H Hba) as Haa. by rewrite str_lt_irrefl in Haa.
Qed.


End string_order.

(** ** The order on patterns *)

Section pattern_order.

(** [pattern_lt] is the lexicographic order on (prefix, start, summary). *)
Lemma pattern_lt_iff p q :
  pattern_lt p q = true <->
  PyStr.lt (prefix p) (prefix q) = true
  \/ (prefix p = prefix q
      /\ (PyStr.lt (start p) (start q) = true
          \/ (start p = start q /\ PyStr.lt (summary p) (summary q) = true))).
Proof.
  unfold pattern_lt.
  rewrite orb_true_iff, andb_true_iff, orb_true_iff, andb_true_iff.
  by rewrite !str_eqb_iff.
Qed.

Lemma pattern_gt_lt p q : pattern_gt p q = pattern_lt q p.
Proof.
  unfold pattern_gt, pattern_lt. rewrite !str_gt_lt.
  by rewrite (String.eqb_sym (prefix p)), (String.eqb_sym (start p)).
Qed.

Lemma pattern_eq_iff p q : pattern_eq p q = true <-> p = q.
Proof.
  unfold pattern_eq. rewrite !andb_true_iff, !str_eqb_iff.
  destruct p, q; simpl; split; [intros [[[-> ->] ->] ->]; done|].
  by intros [= -> -> -> ->].
Qed.

Lemma pattern_lt_irrefl p : pattern_lt p p = false.
Proof.
  apply not_true_is_false. rewrite pattern_lt_iff.
  rewrite !str_lt_irrefl. intuition discriminate.
Qed.

Lemma pattern_lt_trans p q r :
  pattern_lt p q = true -> pattern_lt q r = true -> pattern_lt p r = true.
Proof.
  rewrite !pattern_lt_iff.
  intros [H1|[E1 [H1|[F1 H1]]]] [H2|[E2 [H2|[F2 H2]]]];
    try rewrite E1 in *; try rewrite <- E2 in *;
    try rewrite F1 in *; try rewrite <- F2 in *;
    eauto 8 using str_lt_trans.
Qed.

Lemma pattern_lt_asym p q : pattern_lt p q = true -> pattern_lt q p = false.
Proof.
  intros H. destruct (pattern_lt q p) eqn:Hqp; [|done].
  pose proof (pattern_lt_trans _ _ _ H Hqp) as Hpp.
  by rewrite pattern_lt_irrefl in Hpp.
Qed.

Lemma pattern_lt_ne p q : pattern_lt p q = true -> p <> q.
Proof. intros H ->. by rewrite pattern_lt_irrefl in H. Qed.



End pattern_order.




(** ** String surgery: [s[-1]], [s[:-1]] and concatenation *)

Section string_surgery.

Lemma str_app_nil_l s : "" +:+ s = s.
Proof. done. Qed.

Lemma str_app_cons c s t : String c s +:+ t = String c (s +:+ t).
Proof. done. Qed.

Lemma str_app_nil_r s : s +:+ "" = s.
Proof. induction s as [|c s IH]; [done|]. by rewrite str_app_cons, IH. Qed.

Lemma str_app_assoc s t u : (s +:+ t) +:+ u = s +:+ (t +:+ u).
Proof. induction s as [|c s IH]; [done|]. by rewrite !str_app_cons, IH. Qed.

Lemma str_length_app s t :
  String.length (s +:+ t) = (String.length s + String.length t)%nat.
Proof. induction s as [|c s IH]; [done|]. rewrite str_app_cons. simpl. by rewrite IH. Qed.

Lemma str_app_eq_nil s t : s +:+ t = "" -> s = "" /\ t = "".
Proof. by destruct s. Qed.

Lemma last_char_snoc s c : PyStr.last_char (s +:+ String c "") = Some c.
Proof.
  induction s as [|d s IH]; [done|]. rewrite str_app_cons. simpl.
  destruct (s +:+ String c "") eqn:E; [by destruct s|done].
Qed.

Lemma drop_last_snoc s c : PyStr.drop_last (s +:+ String c "") = s.
Proof.
  induction s as [|d s IH]; [done|]. rewrite str_app_cons. simpl.
  destruct (s +:+ String c "") eqn:E; [by destruct s|]. by rewrite IH.
Qed.

(** A non-empty string is [s[:-1] + s[-1]]. *)
Lemma str_snoc_inv s :
  s <> "" -> exists c, PyStr.last_char s = Some c
                       /\ s = PyStr.drop_last s +:+ String c "".
Proof.
  induction s as [|d s IH]; [done|]. intros _.
  destruct s as [|e s]; [by exists d|].
  destruct IH as (c & Hl & Hd); [done|]. exists c. split; [done|].
  change (PyStr.drop_last (String d (String e s)))
    with (String d (PyStr.drop_last (String e s))).
  by rewrite str_app_cons, <- Hd.
Qed.

Lemma last_char_None s : PyStr.last_char s = None <-> s = "".
Proof.
  split; [|by intros ->]. intros H. destruct s as [|c s]; [done|].
  destruct (str_snoc_inv (String c s)) as (?&?&?); congruence.
Qed.

Lemma last_char_Some s c :
  PyStr.last_char s = Some c -> s = PyStr.drop_last s +:+ String c "".
Proof.
  intros H. destruct (str_snoc_inv s) as (c'&?&?); [by intros ->|]. congruence.
Qed.

Lemma drop_last_length s :
  s <> "" -> S (String.length (PyStr.drop_last s)) = String.length s.
Proof.
  intros (c & _ & H)%str_snoc_inv. rewrite H at 2. rewrite str_length_app. simpl. lia.
Qed.

Lemma repeat_char_snoc c k :
  PyStr.repeat_char c k +:+ String c "" = PyStr.repeat_char c (S k).
Proof. induction k as [|k IH]; [done|]. simpl. by rewrite str_app_cons, IH. Qed.

Lemma repeat_char_length c k : String.length (PyStr.repeat_char c k) = k.
Proof. induction k as [|k IH]; simpl; congruence. Qed.

Lemma truthy_false s : PyStr.truthy s = false <-> s = "".
Proof. by destruct s. Qed.

End string_surgery.

(** ** The constructor: trimming *)

Section trimming.

(** What the [while] loop computes: it removes [k] trailing pairs of a
    ['0'] of [start] and a ['9'] of [end] and stops at the first pair that
    is not of this shape; it raises [IndexError] when [start] runs out
    while [end] still ends in ['9']. *)
Lemma trim_loop_spec fuel s e :
  (String.length e <= fuel)%nat ->
  exists k s' e',
    s = s' +:+ PyStr.repeat_char "0" k /\ e = e' +:+ PyStr.repeat_char "9" k
    /\ ((trim_loop fuel s e = Ok (s', e')
         /\ ~ (PyStr.last_char s' = Some "0"%char /\ PyStr.last_char e' = Some "9"%char)
         /\ ~ (s' = "" /\ PyStr.last_char e' = Some "9"%char))
        \/ (trim_loop fuel s e = Raise IndexError
            /\ s' = "" /\ PyStr.last_char e' = Some "9"%char)).
Proof.
  revert s e. induction fuel as [|fuel IH]; intros s e Hfuel.
  - destruct e; [|simpl in Hfuel; lia].
    exists O, s, "". rewrite !str_app_nil_r. split; [done|]. split; [done|].
    left. simpl. intuition discriminate.
  - assert (Hstop : forall r, r = Ok (s, e) ->
              ~ (PyStr.last_char s = Some "0"%char /\ PyStr.last_char e = Some "9"%char) ->
              ~ (s = "" /\ PyStr.last_char e = Some "9"%char) ->
              trim_loop (S fuel) s e = r ->
              exists k s' e',
                s = s' +:+ PyStr.repeat_char "0" k /\ e = e' +:+ PyStr.repeat_char "9" k
                /\ ((trim_loop (S fuel) s e = Ok (s', e')
                     /\ ~ (PyStr.last_char s' = Some "0"%char
                           /\ PyStr.last_char e' = Some "9"%char)
                     /\ ~ (s' = "" /\ PyStr.last_char e' = Some "9"%char))
                    \/ (trim_loop (S fuel) s e = Raise IndexError
                        /\ s' = "" /\ PyStr.last_char e' = Some "9"%char))).
    { intros r -> H1 H2 Hr. exists O, s, e. rewrite !str_app_nil_r.
      split; [done|]. split; [done|]. left. auto. }
    cbn [trim_loop] in *.
    destruct (PyStr.truthy e) eqn:Ht; simpl in *.
    2:{ apply truthy_false in Ht as ->.
        eapply Hstop; [done| | |done]; intros [_ ?]; done. }
    destruct (PyStr.last_char e) as [ce|] eqn:Hce.
    2:{ eapply Hstop; [done| | |done]; intros [_ ?]; done. }
    destruct (Ascii.eqb_spec ce "9") as [->|Hne9]; simpl in *.
    2:{ eapply Hstop; [done| | |done]; intros [_ ?]; congruence. }
    destruct (PyStr.last_char s) as [cs|] eqn:Hcs.
    2:{ apply last_char_None in Hcs as ->. exists O, "", e.
        rewrite !str_app_nil_r. split; [done|]. split; [done|]. right. auto. }
    destruct (Ascii.eqb_spec cs "0") as [->|Hne0]; simpl in *.
    2:{ eapply Hstop; [done| | |done]; [intros [? _]; congruence|].
        intros [-> _]. done. }
    pose proof (last_char_Some _ _ Hce) as He.
    pose proof (last_char_Some _ _ Hcs) as Hs.
    destruct (IH (PyStr.drop_last s) (PyStr.drop_last e)) as (k & s' & e' & Es & Ee & Hr).
    { assert (e <> "") as Hne by (by intros ->).
      pose proof (drop_last_length e Hne). lia. }
    exists (S k), s', e'. rewrite <- !repeat_char_snoc, <- !str_app_assoc.
    rewrite <- Es, <- Ee, <- Hs, <- He. auto.
Qed.

(** The loop is given enough iterations. *)
Lemma trim_loop_fuel s e : trim s e <> Fuel.
Proof.
  unfold trim. destruct (trim_loop_spec (String.length e) s e) as
    (k & s' & e' & _ & _ & [[-> _]|[-> _]]); done.
Qed.

Lemma trim_equal_width s e :
  String.length s = String.length e ->
  exists k s' e',
    trim s e = Ok (s', e')
    /\ s = s' +:+ PyStr.repeat_char "0" k /\ e = e' +:+ PyStr.repeat_char "9" k
    /\ ~ (PyStr.last_char s' = Some "0"%char /\ PyStr.last_char e' = Some "9"%char).
Proof.
  intros Hlen. unfold trim.
  destruct (trim_loop_spec (String.length e) s e) as
    (k & s' & e' & Es & Ee & [(Hr & Hstop & _)|(_ & -> & Hlast)]); [done|by eauto 8|].
  exfalso. subst s e. rewrite !str_length_app, !repeat_char_length in Hlen.
  simpl in Hlen. assert (e' = "") as -> by (destruct e'; [done|simpl in Hlen; lia]).
  done.
Qed.

(** The loop of [__init__] against the rule: the rule drops [k] trailing
    pairs of a ['0'] and a ['9'] and stops at the first pair that is not of
    this shape; the loop returns what the rule leaves, unless the rule has
    stopped for an empty [start] before an [end] that ends in ['9'], where
    the loop raises [IndexError]. *)
Lemma trim_rule_loop_spec fuel s e :
  (String.length e <= fuel)%nat ->
  exists k,
    s = (trim_rule_loop fuel s e).1 +:+ PyStr.repeat_char "0" k
    /\ e = (trim_rule_loop fuel s e).2 +:+ PyStr.repeat_char "9" k
    /\ ~ (PyStr.last_char (trim_rule_loop fuel s e).1 = Some "0"%char
          /\ PyStr.last_char (trim_rule_loop fuel s e).2 = Some "9"%char)
    /\ trim_loop fuel s e =
         if start_exhausted (trim_rule_loop fuel s e).1 (trim_rule_loop fuel s e).2
         then Raise IndexError
         else Ok (trim_rule_loop fuel s e).
Proof.
  revert s e. induction fuel as [|fuel IH]; intros s e Hfuel.
  - destruct e; [|simpl in Hfuel; lia]. exists O. cbn. rewrite !str_app_nil_r.
    split; [done|]. split; [done|]. split; [by intros [_ ?]|].
    unfold start_exhausted. cbn. by rewrite andb_false_r.
  - assert (Hstop : trim_rule_loop (S fuel) s e = (s, e) ->
              ~ (PyStr.last_char s = Some "0"%char /\ PyStr.last_char e = Some "9"%char) ->
              trim_loop (S fuel) s e
                = (if start_exhausted s e then Raise IndexError else Ok (s, e)) ->
              exists k,
                s = (trim_rule_loop (S fuel) s e).1 +:+ PyStr.repeat_char "0" k
                /\ e = (trim_rule_loop (S fuel) s e).2 +:+ PyStr.repeat_char "9" k
                /\ ~ (PyStr.last_char (trim_rule_loop (S fuel) s e).1 = Some "0"%char
                      /\ PyStr.last_char (trim_rule_loop (S fuel) s e).2 = Some "9"%char)
                /\ trim_loop (S fuel) s e =
                     if start_exhausted (trim_rule_loop (S fuel) s e).1
                          (trim_rule_loop (S fuel) s e).2
                     then Raise IndexError
                     else Ok (trim_rule_loop (S fuel) s e)).
    { intros -> H1 H2. exists O. cbn [fst snd PyStr.repeat_char].
      rewrite !str_app_nil_r. auto. }
    cbn [trim_rule_loop trim_loop] in *. unfold start_exhausted in *.
    destruct (PyStr.last_char e) as [ce|] eqn:Hce.
    2:{ apply last_char_None in Hce as ->. cbn in *.
        apply Hstop; [by destruct (PyStr.last_char s)|by intros [_ ?]|].
        by rewrite andb_false_r. }
    assert (PyStr.truthy e = true) as Ht by (by destruct e). rewrite Ht in *.
    cbn [negb] in *.
    destruct (Ascii.eqb_spec ce "9") as [->|Hne9]; cbn [negb andb] in *.
    2:{ apply Hstop; [by destruct (PyStr.last_char s)|intros [_ ?]; congruence|].
        by rewrite andb_false_r. }
    destruct (PyStr.last_char s) as [cs|] eqn:Hcs.
    2:{ apply last_char_None in Hcs as ->. apply Hstop; [done|by intros [? _]|done]. }
    assert (PyStr.truthy s = true) as Hts by (by destruct s). rewrite Hts in *.
    cbn [negb andb] in *.
    destruct (Ascii.eqb_spec cs "0") as [->|Hne0]; cbn [negb] in *.
    2:{ apply Hstop; [done|intros [? _]; congruence|done]. }
    clear Hstop.
    pose proof (last_char_Some _ _ Hce) as He.
    pose proof (last_char_Some _ _ Hcs) as Hs.
    destruct (IH (PyStr.drop_last s) (PyStr.drop_last e)) as (k & Es & Ee & Hstop & Hr).
    { assert (e <> "") as Hne by (by intros ->).
      pose proof (drop_last_length e Hne). lia. }
    exists (S k). rewrite <- !repeat_char_snoc, <- !str_app_assoc.
    rewrite <- Es, <- Ee, <- Hs, <- He. auto.
Qed.

Lemma trim_empty s : trim s "" = Ok (s, "").
Proof. done. Qed.

Lemma Pattern_init_simple p : Pattern_init p "" "" = Ok (simple p).
Proof. done. Qed.

End trimming.

(** ** Decimal digits: [int()], [str()] and zero padding *)

Section decimal.

Import Numbers.

Lemma digit_not_space c : PyStr.is_digit c = true -> PyStr.is_space c = false.
Proof. by destruct c as [[] [] [] [] [] [] [] []]. Qed.

Lemma digit_not_sign c :
  PyStr.is_digit c = true -> Ascii.eqb c "-" = false /\ Ascii.eqb c "+" = false.
Proof. by destruct c as [[] [] [] [] [] [] [] []]. Qed.

Lemma digit_val_range c : PyStr.is_digit c = true -> 0 <= PyStr.digit_val c < 10.
Proof.
  unfold PyStr.is_digit, PyStr.digit_val. cbv zeta.
  rewrite andb_true_iff, !N.leb_le. lia.
Qed.

Lemma digit_val_inj c d : PyStr.digit_val c = PyStr.digit_val d -> c = d.
Proof.
  unfold PyStr.digit_val. intros H.
  rewrite <- (ascii_N_embedding c), <- (ascii_N_embedding d). f_equal. lia.
Qed.

Lemma digit_char_spec d :
  0 <= d < 10 ->
  PyStr.is_digit (PyStr.digit_char d) = true
  /\ PyStr.digit_val (PyStr.digit_char d) = d.
Proof.
  intros H.
  assert (d = 0 \/ d = 1 \/ d = 2 \/ d = 3 \/ d = 4 \/ d = 5 \/ d = 6
          \/ d = 7 \/ d = 8 \/ d = 9) as Hd by lia.
  repeat (destruct Hd as [->|Hd]; [by vm_compute|]). by subst d.
Qed.

Lemma all_digits_app s t : all_digits (s +:+ t) = all_digits s && all_digits t.
Proof.
  induction s as [|c s IH]; [done|]. rewrite str_app_cons. simpl.
  by rewrite IH, andb_assoc.
Qed.

Lemma all_digits_repeat k : all_digits (PyStr.repeat_char "0" k) = true.
Proof. induction k as [|k IH]; [done|]. simpl. by rewrite IH. Qed.

Lemma value_acc_shift acc s :
  value_acc acc s = acc * 10 ^ Z.of_nat (String.length s) + value s.
Proof.
  unfold value. revert acc. induction s as [|c s IH]; intros acc.
  - simpl. lia.
  - cbn [value_acc String.length]. rewrite (IH (10 * acc + _)), (IH (10 * 0 + _)).
    rewrite Nat2Z.inj_succ, Z.pow_succ_r by lia. lia.
Qed.

Lemma value_cons c s :
  value (String c s) = PyStr.digit_val c * 10 ^ Z.of_nat (String.length s) + value s.
Proof. unfold value at 1. cbn [value_acc]. rewrite value_acc_shift. lia. Qed.

Lemma value_app s t :
  value (s +:+ t) = value s * 10 ^ Z.of_nat (String.length t) + value t.
Proof.
  induction s as [|c s IH].
  - rewrite str_app_nil_l. unfold value at 2. simpl. lia.
  - rewrite str_app_cons, !value_cons, IH, str_length_app.
    rewrite Nat2Z.inj_add, Z.pow_add_r by lia. lia.
Qed.

Lemma value_repeat_zero k : value (PyStr.repeat_char "0" k) = 0.
Proof.
  induction k as [|k IH]; [done|]. cbn [PyStr.repeat_char]. rewrite value_cons, IH.
  change (PyStr.digit_val "0") with 0. lia.
Qed.

Lemma value_range s :
  all_digits s = true -> 0 <= value s < 10 ^ Z.of_nat (String.length s).
Proof.
  induction s as [|c s IH]; [by vm_compute|].
  cbn [all_digits]. rewrite andb_true_iff. intros [Hc Hs].
  rewrite value_cons. cbn [String.length]. rewrite Nat2Z.inj_succ, Z.pow_succ_r by lia.
  pose proof (digit_val_range c Hc). specialize (IH Hs). nia.
Qed.

(** A string of digits is determined by its width and its value. *)
Lemma value_inj s t :
  all_digits s = true -> all_digits t = true ->
  String.length s = String.length t -> value s = value t -> s = t.
Proof.
  revert t. induction s as [|c s IH]; intros [|d t]; try done.
  cbn [all_digits String.length]. rewrite !andb_true_iff.
  intros [Hc Hs] [Hd Ht] [= Hlen]. rewrite !value_cons, Hlen. intros Hv.
  pose proof (value_range s Hs) as Rs. pose proof (value_range t Ht) as Rt.
  rewrite Hlen in Rs.
  pose proof (digit_val_range c Hc). pose proof (digit_val_range d Hd).
  assert (PyStr.digit_val c = PyStr.digit_val d) as Hcd by nia.
  rewrite (digit_val_inj _ _ Hcd) in *. f_equal. apply IH; [done..|]. lia.
Qed.

Lemma rstrip_digits s : all_digits s = true -> PyStr.rstrip s = s.
Proof.
  induction s as [|c s IH]; [done|]. cbn [all_digits]. rewrite andb_true_iff.
  intros [Hc Hs]. cbn [PyStr.rstrip]. rewrite (IH Hs).
  destruct s; [|done]. by rewrite (digit_not_space c Hc).
Qed.

Lemma lstrip_digits s : all_digits s = true -> PyStr.lstrip s = s.
Proof.
  destruct s as [|c s]; [done|]. cbn [all_digits]. rewrite andb_true_iff.
  intros [Hc _]. simpl. by rewrite (digit_not_space c Hc).
Qed.

Lemma digits_us_digits prev acc s :
  all_digits s = true -> (s <> "" \/ prev = true) ->
  PyStr.digits_us prev acc s = Some (value_acc acc s).
Proof.
  revert prev acc. induction s as [|c s IH]; intros prev acc.
  - intros _ [?| ->]; done.
  - cbn [all_digits]. rewrite andb_true_iff. intros [Hc Hs] _.
    cbn [PyStr.digits_us value_acc]. rewrite Hc. apply IH; auto.
Qed.

(** [int()] of a non-empty string of digits is its decimal value. *)
Lemma int_digits s :
  all_digits s = true -> s <> "" -> PyStr.int s = Ok (value s).
Proof.
  intros Hs Hne. unfold PyStr.int. rewrite (rstrip_digits s Hs), (lstrip_digits s Hs).
  destruct s as [|c s]; [done|].
  pose proof Hs as Hs'. cbn [all_digits] in Hs'. apply andb_true_iff in Hs' as [Hc _].
  destruct (digit_not_sign c Hc) as [-> ->].
  rewrite (digits_us_digits false 0 (String c s)); auto.
Qed.

Lemma dec_loop_spec fuel n :
  0 <= n < Z.of_nat fuel ->
  all_digits (PyStr.dec_loop fuel n) = true
  /\ value (PyStr.dec_loop fuel n) = n
  /\ (1 <= String.length (PyStr.dec_loop fuel n))%nat
  /\ forall d, (1 <= d)%nat -> n < 10 ^ Z.of_nat d ->
               (String.length (PyStr.dec_loop fuel n) <= d)%nat.
Proof.
  revert n. induction fuel as [|fuel IH]; intros n Hn; [lia|].
  cbn [PyStr.dec_loop]. destruct (Z.ltb_spec n 10) as [Hlt|Hge].
  - destruct (digit_char_spec n) as [Hd Hv]; [lia|].
    cbn [all_digits String.length]. rewrite Hd.
    split; [done|]. split; [|split; [lia|intros; lia]].
    rewrite value_cons, Hv. unfold value. simpl. lia.
  - assert (0 <= n / 10 < Z.of_nat fuel) as Hq.
    { split; [apply Z.div_pos; lia|].
      assert (n / 10 < n) by (apply Z.div_lt; lia). lia. }
    destruct (IH _ Hq) as (Hd & Hv & Hl1 & Hl).
    destruct (digit_char_spec (n mod 10)) as [Hd' Hv'].
    { apply Z.mod_pos_bound. lia. }
    rewrite all_digits_app, value_app, str_length_app. cbn [all_digits String.length].
    rewrite Hd, Hd', Hv. split; [done|]. split; [|split; [lia|]].
    + rewrite value_cons, Hv'. unfold value. simpl.
      pose proof (Z.div_mod n 10). lia.
    + intros d Hd1 Hnd. destruct d as [|[|d]]; [lia| |].
      * change (10 ^ Z.of_nat 1) with 10 in Hnd. lia.
      * assert (n / 10 < 10 ^ Z.of_nat (S d)) as Hq'.
        { apply Z.div_lt_upper_bound; [lia|].
          rewrite <- Z.pow_succ_r by lia. by rewrite <- Nat2Z.inj_succ. }
        specialize (Hl (S d) ltac:(lia) Hq'). lia.
Qed.

(** Zero padding to width [d] of [0 <= i < 10 ^ d] is the string of [d]
    digits whose value is [i]. *)
Lemma format_0d_spec i d :
  (1 <= d)%nat -> 0 <= i < 10 ^ Z.of_nat d ->
  all_digits (PyStr.format_0d i d) = true
  /\ String.length (PyStr.format_0d i d) = d
  /\ value (PyStr.format_0d i d) = i.
Proof.
  intros Hd Hi. unfold PyStr.format_0d. destruct (Z.ltb_spec i 0) as [?|_]; [lia|].
  unfold PyStr.zfill, PyStr.dec.
  destruct (dec_loop_spec (S (Z.to_nat i)) i) as (Ha & Hv & Hl1 & Hl); [lia|].
  specialize (Hl d Hd ltac:(lia)).
  rewrite all_digits_app, str_length_app, value_app, repeat_char_length.
  rewrite all_digits_repeat, value_repeat_zero, Ha, Hv.
  split; [done|]. split; lia.
Qed.

End decimal.

(** ** The expander *)

Section expander.

Import Numbers.

Lemma mapM_Ok {A B} (f : A -> result B) (g : A -> B) l :
  (forall x, x ∈ l -> f x = Ok (g x)) -> mapM f l = Ok (g <$> l).
Proof.
  induction l as [|x l IH]; intros H; [done|].
  cbn [mapM]. rewrite (H x) by left. cbn.
  rewrite IH; [done|]. intros y Hy. apply H. by right.
Qed.

Lemma truthy_true s : PyStr.truthy s = true <-> s <> "".
Proof. by destruct s. Qed.

(** The expansion of a range pattern with bounds of [d] digits: one simple
    pattern per integer of the range, in ascending order. *)
Lemma expand_range self :
  start self <> "" ->
  all_digits (start self) = true -> all_digits (end_ self) = true ->
  String.length (start self) = String.length (end_ self) ->
  expand self =
    Ok ((fun i => simple (prefix self +:+ PyStr.format_0d i (String.length (start self))))
          <$> seqZ (value (start self)) (value (end_ self) + 1 - value (start self))).
Proof.
  intros Hne Hs He Hlen. unfold expand.
  apply truthy_true in Hne as Ht. rewrite Ht. cbn [negb].
  rewrite (int_digits _ Hs Hne). cbn.
  assert (end_ self <> "") as Hne'.
  { intros E. rewrite E in Hlen. by destruct (start self). }
  rewrite (int_digits _ He Hne'). cbn.
  apply mapM_Ok. intros i _. apply Pattern_init_simple.
Qed.

End expander.

(** C3.  A range pattern whose [start] and [end] are strings of [d] digits
    ([d] at least one) expands, without error and without duplicates, to
    exactly the simple patterns [prefix + s] where [s] is a string of [d]
    digits whose value lies between the values of [start] and [end]; a
    pattern without [start] expands to itself. *)
Theorem expand_coverage :
  (forall self,
      start self <> "" ->
      Numbers.all_digits (start self) = true ->
      Numbers.all_digits (end_ self) = true ->
      String.length (start self) = String.length (end_ self) ->
      exists out,
        expand self = Ok out
        /\ NoDup out
        /\ forall q,
            q ∈ out <->
            exists s, q = simple (prefix self +:+ s)
                      /\ Numbers.all_digits s = true
                      /\ String.length s = String.length (start self)
                      /\ Numbers.value (start self) <= Numbers.value s
                         <= Numbers.value (end_ self))
  /\ (forall self, start self = "" -> expand self = Ok [self]).
Proof.
  split.
  - intros self Hne Hs He Hlen. eexists. split; [by apply expand_range|].
    set (d := String.length (start self)).
    assert (1 <= d)%nat as Hd.
    { subst d. destruct (start self); [done|simpl; lia]. }
    pose proof (value_range _ Hs) as Rs. pose proof (value_range _ He) as Re.
    rewrite <- Hlen in Re. fold d in Rs, Re.
    split.
    + apply NoDup_fmap_2_strong; [|apply NoDup_seqZ].
      intros i j Hi Hj [= E%String.app_inj].
      apply elem_of_seqZ in Hi, Hj.
      destruct (format_0d_spec i d Hd ltac:(lia)) as (_ & _ & Vi).
      destruct (format_0d_spec j d Hd ltac:(lia)) as (_ & _ & Vj).
      congruence.
    + intros q. rewrite list_elem_of_fmap. split.
      * intros (i & -> & Hi%elem_of_seqZ).
        destruct (format_0d_spec i d Hd ltac:(lia)) as (Ha & Hl & Hv).
        exists (PyStr.format_0d i d). rewrite Hv. repeat split; [done..|lia|lia].
      * intros (s & -> & Ha & Hl & Hv). exists (Numbers.value s).
        pose proof (value_range _ Ha) as Rv. rewrite Hl in Rv.
        destruct (format_0d_spec (Numbers.value s) d Hd ltac:(lia)) as (Ha' & Hl' & Hv').
        split; [|apply elem_of_seqZ; lia].
        do 2 f_equal. apply value_inj; congruence.
  - intros self E. unfold expand. by rewrite E.
Qed.

Lemma expand_coverage_witness :
  exists out,
    expand (mkPattern "5512" "07" "11" "") = Ok out
    /\ NoDup out
    /\ forall q,
        q ∈ out <->
        exists s, q = simple ("5512" +:+ s)
                  /\ Numbers.all_digits s = true
                  /\ String.length s = 2%nat
                  /\ 7 <= Numbers.value s <= 11.
Proof.
  destruct expand_coverage as [H _].
  apply (H (mkPattern "5512" "07" "11" "")); [discriminate|reflexivity..].
Defined.

(** ** The summarizer: one iteration and runs of iterations *)

Section summarizer_steps.

Variable L : Z.
Hypothesis HL : 1 <= L.

Lemma eject_Ok pfx sm : eject pfx sm = Ok (eject_pattern pfx sm).
Proof.
  unfold eject, eject_pattern. destruct (PyStr.len sm =? 1); [done|].
  rewrite Pattern_init_simple. cbn. by destruct (PyStr.len sm =? 10).
Qed.

Lemma groupable_iff p :
  groupable L p = true <-> PyStr.len (prefix p) = L /\ summary p = "".
Proof.
  unfold groupable. rewrite andb_true_iff, Z.eqb_eq, negb_true_iff, truthy_false. done.
Qed.

(** The prefix of a groupable pattern is not empty. *)
Lemma groupable_last p :
  groupable L p = true ->
  exists c, PyStr.last_char (prefix p) = Some c
            /\ prefix p = PyStr.drop_last (prefix p) +:+ String c "".
Proof.
  intros [Hlen _]%groupable_iff. apply str_snoc_inv. intros E.
  rewrite E in Hlen. unfold PyStr.len in Hlen. simpl in Hlen. lia.
Qed.

Lemma step_pass st p :
  groupable L p = false -> summarize_step L st p = Ok (st, [p]).
Proof.
  unfold groupable, summarize_step. intros H.
  destruct (PyStr.len (prefix p) =? L); [|done]. simpl in *.
  by apply negb_false_iff in H as ->.
Qed.

Lemma step_new st p c :
  groupable L p = true -> PyStr.last_char (prefix p) = Some c ->
  not_pending (PyStr.drop_last (prefix p)) st ->
  summarize_step L st p =
    Ok (Some (PyStr.drop_last (prefix p), String c ""), flush st).
Proof.
  intros [Hlen Hsm]%groupable_iff Hc Hst. unfold summarize_step.
  rewrite Hsm, Hc. apply Z.eqb_eq in Hlen as ->. simpl.
  destruct st as [[pfx sm]|]; [|done]. simpl in Hst.
  destruct (String.eqb_spec (PyStr.drop_last (prefix p)) pfx) as [E|_]; [by subst|].
  unfold PyStr.eqb. destruct (String.eqb_spec (PyStr.drop_last (prefix p)) pfx); [done|].
  simpl. rewrite eject_Ok. done.
Qed.

Lemma step_join sm p c :
  groupable L p = true -> PyStr.last_char (prefix p) = Some c ->
  summarize_step L (Some (PyStr.drop_last (prefix p), sm)) p =
    Ok (Some (PyStr.drop_last (prefix p), sm +:+ String c ""), []).
Proof.
  intros [Hlen Hsm]%groupable_iff Hc. unfold summarize_step.
  rewrite Hsm, Hc. apply Z.eqb_eq in Hlen as ->. simpl.
  unfold PyStr.eqb. by rewrite String.eqb_refl.
Qed.

(** A pass at a length of at least one raises no exception. *)
Lemma step_total st p : exists st' out, summarize_step L st p = Ok (st', out).
Proof.
  destruct (groupable L p) eqn:Hg; [|rewrite step_pass; eauto].
  destruct (groupable_last p Hg) as (c & Hc & _).
  destruct st as [[pfx sm]|]; [|rewrite (step_new None p c); eauto; done].
  destruct (decide (pfx = PyStr.drop_last (prefix p))) as [->|Hne].
  - rewrite (step_join sm p c); eauto.
  - rewrite (step_new _ p c); eauto.
Qed.

Lemma run_cons st p l :
  summarize_run L st (p :: l) =
    '(st1, out) ← summarize_step L st p;
    '(st2, outs) ← summarize_run L st1 l;
    mret (st2, out ++ outs).
Proof. done. Qed.

Lemma run_app st l1 l2 st1 o1 :
  summarize_run L st l1 = Ok (st1, o1) ->
  summarize_run L st (l1 ++ l2) =
    '(st2, o2) ← summarize_run L st1 l2; mret (st2, o1 ++ o2).
Proof.
  revert st st1 o1. induction l1 as [|p l1 IH]; intros st st1 o1.
  - intros [= <- <-]. simpl. by destruct (summarize_run L st l2) as [[]| |].
  - rewrite <- app_comm_cons, !run_cons.
    destruct (summarize_step L st p) as [[sa oa]| |]; [|done..]. cbn.
    destruct (summarize_run L sa l1) as [[sb ob]| |] eqn:E; [|done..]. cbn.
    intros [= <- <-]. rewrite (IH _ _ _ E).
    destruct (summarize_run L sb l2) as [[sc oc]| |]; [|done..]. cbn.
    by rewrite app_assoc.
Qed.

Lemma run_total st l : exists st' out, summarize_run L st l = Ok (st', out).
Proof.
  revert st. induction l as [|p l IH]; intros st; [by eexists _, _|].
  rewrite run_cons. destruct (step_total st p) as (s1 & o1 & ->). cbn.
  destruct (IH s1) as (s2 & o2 & ->). cbn. eauto.
Qed.

(** A run of patterns of one group only extends the pending group, after
    closing the group that was pending before. *)
Lemma run_group_join gp sm g :
  is_group L gp g ->
  summarize_run L (Some (gp, sm)) g = Ok (Some (gp, sm +:+ collected g), []).
Proof.
  revert sm. induction g as [|p g IH]; intros sm Hg.
  - simpl. by rewrite str_app_nil_r.
  - apply Forall_cons in Hg as [[Hp <-] Hg].
    destruct (groupable_last p Hp) as (c & Hc & _).
    rewrite run_cons, (step_join sm p c Hp Hc). cbn.
    rewrite (IH _ Hg). cbn. rewrite Hc, str_app_assoc. done.
Qed.

Lemma run_group st gp g :
  g <> [] -> is_group L gp g -> not_pending gp st ->
  summarize_run L st g = Ok (Some (gp, collected g), flush st).
Proof.
  destruct g as [|p g]; [done|]. intros _ Hg Hst.
  apply Forall_cons in Hg as [[Hp <-] Hg].
  destruct (groupable_last p Hp) as (c & Hc & _).
  rewrite run_cons, (step_new st p c Hp Hc Hst). cbn.
  rewrite (run_group_join _ _ _ Hg). cbn. rewrite Hc, app_nil_r. done.
Qed.

(** A group followed by a groupable pattern of another group: the group is
    closed by yielding one pattern. *)
Lemma run_group_closed st gp g q c :
  g <> [] -> is_group L gp g -> not_pending gp st ->
  groupable L q = true -> PyStr.last_char (prefix q) = Some c ->
  PyStr.drop_last (prefix q) <> gp ->
  summarize_run L st (g ++ [q]) =
    Ok (Some (PyStr.drop_last (prefix q), String c ""),
        flush st ++ [eject_pattern gp (collected g)]).
Proof.
  intros Hne Hg Hst Hq Hc Hqg.
  rewrite (run_app _ _ _ _ _ (run_group st gp g Hne Hg Hst)).
  rewrite run_cons, (step_new _ q c Hq Hc); [done|]. simpl. congruence.
Qed.

End summarizer_steps.

(** ** The marker that ends a pass *)

Section the_marker.

Variable L : Z.
Hypothesis HL : 1 <= L.

Lemma marker_Ok : marker L = Ok (marker_pattern L).
Proof. apply Pattern_init_simple. Qed.

Lemma marker_prefix :
  prefix (marker_pattern L) = PyStr.repeat_char "x" (Z.to_nat (L - 1)) +:+ String "x" "".
Proof.
  unfold marker_pattern. cbn [prefix simple]. rewrite repeat_char_snoc.
  f_equal. lia.
Qed.

Lemma marker_groupable : groupable L (marker_pattern L) = true.
Proof.
  apply groupable_iff. split; [|done]. unfold PyStr.len, marker_pattern.
  cbn [prefix simple]. rewrite repeat_char_length. lia.
Qed.

Lemma marker_last : PyStr.last_char (prefix (marker_pattern L)) = Some "x"%char.
Proof. rewrite marker_prefix. apply last_char_snoc. Qed.

Lemma marker_drop_last :
  PyStr.drop_last (prefix (marker_pattern L)) = PyStr.repeat_char "x" (Z.to_nat (L - 1)).
Proof. rewrite marker_prefix. apply drop_last_snoc. Qed.

(** A non-empty string of digits is not a string of [x]. *)
Lemma digits_not_marker gp k :
  Numbers.all_digits gp = true -> gp <> "" -> PyStr.repeat_char "x" k <> gp.
Proof.
  intros Hd Hne E. subst gp. destruct k as [|k]; [done|]. simpl in Hd. done.
Qed.

(** [summarize] is the run over the input followed by the iteration for
    the marker; the group that is pending after the marker is dropped. *)
Lemma summarize_unfold i st1 o1 :
  summarize_run L None i = Ok (st1, o1) ->
  summarize i L =
    '(_, o2) ← summarize_step L st1 (marker_pattern L); mret (o1 ++ o2).
Proof.
  intros Hrun. unfold summarize. rewrite marker_Ok. cbn.
  change (mbind ?f ?x) with (bind x f).
  rewrite (run_app L None i [(marker_pattern L)] st1 o1 Hrun). rewrite run_cons.
  destruct (summarize_step L st1 (marker_pattern L)) as [[s2 o2]| |]; [|done..].
  cbn. by rewrite app_nil_r.
Qed.

(** The marker closes a pending group of digits. *)
Lemma summarize_closed i gp sm o1 :
  2 <= L ->
  summarize_run L None i = Ok (Some (gp, sm), o1) ->
  Numbers.all_digits gp = true -> PyStr.len gp = L - 1 ->
  summarize i L = Ok (o1 ++ [eject_pattern gp sm]).
Proof.
  intros HL2 Hrun Hd Hlen. rewrite (summarize_unfold _ _ _ Hrun).
  rewrite (step_new L _ _ _ marker_groupable marker_last); [done|].
  unfold not_pending. rewrite marker_drop_last. intros E. symmetry in E. revert E.
  apply digits_not_marker; [done|]. intros ->. unfold PyStr.len in Hlen.
  simpl in Hlen. lia.
Qed.

Lemma summarize_nil : summarize [] L = Ok [].
Proof.
  rewrite (summarize_unfold [] None []); [|done].
  by rewrite (step_new L None _ _ marker_groupable marker_last).
Qed.

End the_marker.

(** ** Closing a group: the full rule and the singleton rule *)

Section closing_rules.

Lemma str_length_list s :
  String.length s = length (String.list_ascii_of_string s).
Proof. induction s as [|c s IH]; simpl; congruence. Qed.

Lemma eject_pattern_full gp sm :
  String.list_ascii_of_string sm ≡ₚ ten_digits -> eject_pattern gp sm = simple gp.
Proof.
  intros Hp. apply Permutation_length in Hp. rewrite <- str_length_list in Hp.
  unfold eject_pattern, PyStr.len. rewrite Hp. done.
Qed.

Lemma eject_pattern_single gp c :
  eject_pattern gp (String c "") = simple (gp +:+ String c "").
Proof. done. Qed.

Lemma fan_is_group L gp ds : PyStr.len gp = L - 1 -> is_group L gp (fan gp ds).
Proof.
  intros Hlen. apply Forall_fmap, Forall_forall. intros d _. simpl.
  rewrite drop_last_snoc. split; [|done]. apply groupable_iff. split; [|done].
  unfold PyStr.len in *. cbn [prefix simple]. rewrite str_length_app. simpl. lia.
Qed.

Lemma fan_collected gp ds :
  String.list_ascii_of_string (collected (fan gp ds)) = ds.
Proof.
  induction ds as [|d ds IH]; [done|]. cbn [fan fmap list_fmap collected prefix simple].
  rewrite last_char_snoc. simpl. f_equal. apply IH.
Qed.

End closing_rules.

(** C7.  In a pass at length [L], a group whose collected trailing digits
    are the ten digits is closed, by the next groupable pattern of another
    group, by yielding exactly one pattern: the simple pattern of the group
    prefix.  A pass over the ten patterns [gp + d] alone yields the single
    pattern [gp], and the pass at length 5 over "55510" ... "55519" yields
    "5551". *)
Theorem full_group_collapses :
  (forall L st gp g q c,
      1 <= L ->
      is_group L gp g ->
      String.list_ascii_of_string (collected g) ≡ₚ ten_digits ->
      not_pending gp st ->
      groupable L q = true -> PyStr.last_char (prefix q) = Some c ->
      PyStr.drop_last (prefix q) <> gp ->
      summarize_run L st (g ++ [q]) =
        Ok (Some (PyStr.drop_last (prefix q), String c ""),
            flush st ++ [simple gp]))
  /\ (forall L gp,
        2 <= L -> PyStr.len gp = L - 1 -> Numbers.all_digits gp = true ->
        summarize (fan gp ten_digits) L = Ok [simple gp])
  /\ summarize [simple "55510"; simple "55511"; simple "55512"; simple "55513";
                simple "55514"; simple "55515"; simple "55516"; simple "55517";
                simple "55518"; simple "55519"] 5
     = Ok [simple "5551"].
Proof.
  split; [|split; [|reflexivity]].
  - intros L st gp g q c HL Hg Hten Hst Hq Hc Hqg.
    assert (g <> []) as Hne by (intros ->; by apply Permutation_nil_l in Hten).
    rewrite (run_group_closed L HL st gp g q c); try done.
    by rewrite eject_pattern_full.
  - intros L gp HL Hlen Hd.
    assert (1 <= L) as HL1 by lia.
    pose proof (fan_is_group L gp ten_digits Hlen) as Hg.
    rewrite (summarize_closed L HL1 _ gp (collected (fan gp ten_digits)) []); try done.
    + rewrite eject_pattern_full; [done|]. by rewrite fan_collected.
    + by rewrite (run_group L HL1 None gp).
Qed.

Lemma full_group_collapses_witness :
  summarize_run 5 (Some ("5550", "7")) (fan "5551" ten_digits ++ [simple "55520"]) =
    Ok (Some ("5552", "0"), [simple "55507"; simple "5551"]).
Proof.
  destruct full_group_collapses as [H _].
  apply (H 5 (Some ("5550", "7")) "5551" (fan "5551" ten_digits) (simple "55520") "0"%char);
    try done.
  by apply fan_is_group.
Defined.

(** C8.  In a pass at length [L], a group of exactly one simple pattern is
    closed by yielding a pattern whose prefix is the group prefix followed by
    the trailing digit and whose digit set is empty: it equals the original
    pattern.  A pass over a single simple pattern of digits yields it
    unchanged. *)
Theorem singleton_group_unchanged :
  (forall L st p d q c,
      1 <= L ->
      groupable L p = true -> start p = "" -> end_ p = "" ->
      PyStr.last_char (prefix p) = Some d ->
      not_pending (PyStr.drop_last (prefix p)) st ->
      groupable L q = true -> PyStr.last_char (prefix q) = Some c ->
      PyStr.drop_last (prefix q) <> PyStr.drop_last (prefix p) ->
      exists x,
        summarize_run L st [p; q] =
          Ok (Some (PyStr.drop_last (prefix q), String c ""), flush st ++ [x])
        /\ x = mkPattern (PyStr.drop_last (prefix p) +:+ String d "") "" "" ""
        /\ pattern_eq x p = true)
  /\ (forall L p,
        2 <= L -> groupable L p = true -> plain p -> end_ p = "" ->
        summarize [p] L = Ok [p]).
Proof.
  split.
  - intros L st p d q c HL Hp Hs He Hd Hst Hq Hc Hqp.
    eexists. split; [|split; [reflexivity|]].
    + change [p; q] with ([p] ++ [q]).
      rewrite (run_group_closed L HL st (PyStr.drop_last (prefix p)) [p] q c); try done.
      * cbn [collected]. rewrite Hd. done.
      * by apply Forall_singleton.
    + apply pattern_eq_iff. rewrite <- (last_char_Some _ _ Hd).
      apply groupable_iff in Hp as [_ Hsm]. destruct p; simpl in *; congruence.
  - intros L p HL Hp [Hs Hdig] He.
    assert (1 <= L) as HL1 by lia.
    destruct (groupable_last L HL1 p Hp) as (d & Hd & Hpd).
    pose proof Hp as [Hlen Hsm]%groupable_iff.
    assert (Numbers.all_digits (PyStr.drop_last (prefix p)) = true
            /\ PyStr.len (PyStr.drop_last (prefix p)) = L - 1) as [Hgd Hgl].
    { rewrite Hpd in Hdig, Hlen. rewrite all_digits_app in Hdig.
      apply andb_true_iff in Hdig as [-> _]. split; [done|].
      unfold PyStr.len in *. rewrite str_length_app in Hlen. simpl in Hlen. lia. }
    rewrite (summarize_closed L HL1 [p] (PyStr.drop_last (prefix p)) (String d "") []);
      try done.
    + rewrite eject_pattern_single, <- Hpd. unfold simple.
      destruct p; simpl in *; congruence.
    + rewrite (run_group L HL1 None (PyStr.drop_last (prefix p)) [p]); try done.
      * cbn [collected]. by rewrite Hd.
      * by apply Forall_singleton.
Qed.

Lemma singleton_group_unchanged_witness :
  exists x,
    summarize_run 5 None [simple "55512"; simple "55520"] =
      Ok (Some ("5552", "0"), flush None ++ [x])
    /\ x = mkPattern ("5551" +:+ "2") "" "" ""
    /\ pattern_eq x (simple "55512") = true.
Proof.
  destruct singleton_group_unchanged as [H _].
  apply (H 5 None (simple "55512") "2"%char (simple "55520") "0"%char); done.
Defined.

(** C9.  Empty input is not an error: expanding no pattern yields no
    pattern, a summarizer pass over no pattern yields no pattern (the marker
    is not yielded), the differencer on two empty lists returns two empty
    lists, and the whole reduction of an empty dataset is empty. *)
Theorem empty_run :
  expand_patterns [] = Ok []
  /\ (forall L, 1 <= L -> summarize [] L = Ok [])
  /\ list_compare [] [] = Ok ([], [])
  /\ optimize_patterns [] = Ok [].
Proof.
  split; [done|]. split; [|by split].
  intros L HL. by apply summarize_nil.
Qed.

Lemma empty_run_witness : summarize [] 10 = Ok [].
Proof.
  destruct empty_run as (_ & H & _). apply (H 10). lia.
Defined.

(** ** Where the yielded patterns come from *)

Section provenance.

Variable L : Z.
Hypothesis HL : 1 <= L.

Lemma collected_app g1 g2 : collected (g1 ++ g2) = collected g1 +:+ collected g2.
Proof.
  induction g1 as [|p g1 IH]; [done|]. cbn [app collected].
  destruct (PyStr.last_char (prefix p)); [|done]. by rewrite IH.
Qed.

Lemma summary_of_mono h k x : summary_of L h x -> summary_of L (h ++ k) x.
Proof.
  intros (gp & g & a & b & -> & Hne & Hg & ->).
  exists gp, g, a, (b ++ k). by rewrite <- !app_assoc.
Qed.

Lemma pending_in_start h p c :
  groupable L p = true -> PyStr.last_char (prefix p) = Some c ->
  pending_in L (h ++ [p]) (Some (PyStr.drop_last (prefix p), String c "")).
Proof.
  intros Hp Hc. exists h, [p]. split; [done|]. split; [done|].
  split; [by apply Forall_singleton|]. cbn [collected]. by rewrite Hc.
Qed.

Lemma step_provenance h st p st' out :
  pending_in L h st ->
  summarize_step L st p = Ok (st', out) ->
  pending_in L (h ++ filter (fun p => groupable L p = true) [p]) st'
  /\ (length out + length (flush st') <= 1 + length (flush st))%nat
  /\ (groupable L p = true -> length (flush st') = 1%nat)
  /\ forall x, x ∈ out -> (x = p /\ groupable L p = false) \/ summary_of L h x.
Proof.
  intros Hin Hstep. destruct (groupable L p) eqn:Hp.
  2:{ rewrite step_pass in Hstep by done. injection Hstep as <- <-.
      rewrite filter_cons_False, filter_nil, app_nil_r by congruence.
      split; [done|]. split; [simpl; lia|]. split; [done|].
      intros x ->%list_elem_of_singleton. by left. }
  rewrite filter_cons_True, filter_nil by done.
  destruct (groupable_last L HL p Hp) as (c & Hc & _).
  destruct st as [[gp sm]|].
  - destruct (decide (gp = PyStr.drop_last (prefix p))) as [->|Hne].
    + rewrite (step_join L sm p c Hp Hc) in Hstep. injection Hstep as <- <-.
      split; [|split; [simpl; lia|split; [done|by intros x ?%elem_of_nil]]].
      destruct Hin as (a & g & -> & Hgne & Hg & ->).
      exists a, (g ++ [p]). rewrite <- app_assoc. split; [done|].
      split; [by destruct g|]. split.
      * apply Forall_app. split; [done|]. by apply Forall_singleton.
      * rewrite collected_app. cbn [collected]. by rewrite Hc.
    + rewrite (step_new L _ p c Hp Hc) in Hstep by done. injection Hstep as <- <-.
      split; [by apply pending_in_start|]. split; [simpl; lia|]. split; [done|].
      intros x ->%list_elem_of_singleton. right.
      destruct Hin as (a & g & -> & Hgne & Hg & ->).
      exists gp, g, a, []. by rewrite app_nil_r.
  - rewrite (step_new L None p c Hp Hc) in Hstep by done. injection Hstep as <- <-.
    split; [by apply pending_in_start|]. split; [simpl; lia|]. split; [done|].
    by intros x ?%elem_of_nil.
Qed.

Lemma run_provenance h st l st' out :
  pending_in L h st ->
  summarize_run L st l = Ok (st', out) ->
  pending_in L (h ++ filter (fun p => groupable L p = true) l) st'
  /\ (length out + length (flush st') <= length l + length (flush st))%nat
  /\ forall x, x ∈ out ->
       (x ∈ l /\ groupable L x = false) \/ summary_of L (h ++ filter (fun p => groupable L p = true) l) x.
Proof.
  revert h st st' out. induction l as [|p l IH]; intros h st st' out Hin Hrun.
  - injection Hrun as <- <-. rewrite filter_nil, app_nil_r.
    split; [done|]. split; [simpl; lia|]. by intros x ?%elem_of_nil.
  - rewrite run_cons in Hrun.
    destruct (summarize_step L st p) as [[s1 o1]| |] eqn:Hstep; [|done..].
    cbn in Hrun.
    destruct (summarize_run L s1 l) as [[s2 o2]| |] eqn:Hrest; [|done..].
    cbn in Hrun. injection Hrun as <- <-.
    destruct (step_provenance _ _ _ _ _ Hin Hstep) as (Hin1 & Hlen1 & _ & Hout1).
    destruct (IH _ _ _ _ Hin1 Hrest) as (Hin2 & Hlen2 & Hout2).
    assert (h ++ filter (fun p => groupable L p = true) (p :: l) = (h ++ filter (fun p => groupable L p = true) [p]) ++ filter (fun p => groupable L p = true) l) as E.
    { change (p :: l) with ([p] ++ l). by rewrite filter_app, app_assoc. }
    rewrite E. split; [done|]. split; [rewrite length_app; simpl; lia|].
    intros x [Hx|Hx]%elem_of_app.
    + destruct (Hout1 x Hx) as [[-> ?]|Hs].
      * left. split; [left|done].
      * right. rewrite <- app_assoc. by apply summary_of_mono.
    + destruct (Hout2 x Hx) as [[? ?]|Hs]; [|by right].
      left. split; [by right|done].
Qed.

End provenance.

(** C10.  A pass at a length [L] of at least one over any list [i] ends
    without error, and every pattern that it yields is either a pattern of
    [i] that the pass does not group, or the summary of a group of
    consecutive groupable patterns of [i]; the pass yields at most as many
    patterns as [i] has.  So the marker is never yielded, neither as itself
    nor as a member of a group. *)
Theorem marker_never_yielded :
  forall i L,
    1 <= L ->
    exists out,
      summarize i L = Ok out
      /\ (length out <= length i)%nat
      /\ forall x, x ∈ out ->
           (x ∈ i /\ groupable L x = false)
           \/ summary_of L (filter (fun p => groupable L p = true) i) x.
Proof.
  intros i L HL.
  destruct (run_total L HL None i) as (st1 & o1 & Hrun).
  destruct (run_provenance L HL [] None i st1 o1 I Hrun) as (Hin & Hlen & Hout).
  rewrite app_nil_l in Hin, Hout.
  rewrite (summarize_unfold L i st1 o1 Hrun).
  destruct (step_total L HL st1 (marker_pattern L)) as (st2 & o2 & Hstep).
  rewrite Hstep. cbn. eexists. split; [done|].
  destruct (step_provenance L HL _ _ _ _ _ Hin Hstep) as (_ & Hlen2 & Hpend & Hout2).
  specialize (Hpend (marker_groupable L ltac:(lia))).
  split; [rewrite length_app; simpl in *; lia|].
  intros x [Hx|Hx]%elem_of_app; [by apply Hout|].
  destruct (Hout2 x Hx) as [[_ Hm]|Hs]; [|by right].
  by rewrite (marker_groupable L) in Hm by lia.
Qed.

Lemma marker_never_yielded_witness :
  exists out,
    summarize [simple "551"; simple "552"; simple "56"; simple "571"] 3 = Ok out
    /\ (length out <= 4)%nat
    /\ forall x, x ∈ out ->
         (x ∈ [simple "551"; simple "552"; simple "56"; simple "571"]
          /\ groupable 3 x = false)
         \/ summary_of 3 (filter (fun p => groupable 3 p = true)
                            [simple "551"; simple "552"; simple "56"; simple "571"]) x.
Proof.
  apply (marker_never_yielded [simple "551"; simple "552"; simple "56"; simple "571"] 3).
  lia.
Defined.

(** ** Numbers matched by patterns and by groups *)

Section matching.

Import Numbers.

Lemma covers_cons p l n : covers (p :: l) n = matches p n || covers l n.
Proof. done. Qed.

Lemma covers_app l1 l2 n : covers (l1 ++ l2) n = covers l1 n || covers l2 n.
Proof. apply existsb_app. Qed.

Lemma strip_prefix_app a b n :
  strip_prefix (a +:+ b) n =
    match strip_prefix a n with Some r => strip_prefix b r | None => None end.
Proof.
  revert n. induction a as [|c a IH]; intros n; [by destruct b|].
  rewrite str_app_cons. destruct n as [|d n]; [done|]. simpl.
  destruct (Ascii.eqb c d); [apply IH|done].
Qed.

Lemma len_snoc gp c : PyStr.len (gp +:+ String c "") = PyStr.len gp + 1.
Proof. unfold PyStr.len. rewrite str_length_app. simpl. lia. Qed.

(** A pattern without range and digit set matches as the simple pattern of
    its prefix. *)
Lemma matches_simple p n :
  start p = "" -> summary p = "" -> matches p n = matches (simple (prefix p)) n.
Proof. unfold matches. by intros -> ->. Qed.

Lemma matches_single gp c n :
  matches (simple (gp +:+ String c "")) n = group_matches gp (String c "") n.
Proof.
  unfold matches, group_matches. cbn [start prefix summary simple PyStr.truthy].
  rewrite strip_prefix_app, len_snoc.
  destruct (strip_prefix gp n) as [[|d r]|]; [done| |done].
  cbn [strip_prefix mem]. rewrite (Ascii.eqb_sym c d).
  destruct (Ascii.eqb d c); [|done]. simpl.
  by replace (10 - (PyStr.len gp + 1)) with (9 - PyStr.len gp) by lia.
Qed.

Lemma matches_digit_set gp sm n :
  sm <> "" -> matches (mkPattern gp "" "" sm) n = group_matches gp sm n.
Proof.
  intros Hne%truthy_true. unfold matches, group_matches.
  cbn [start prefix summary PyStr.truthy]. rewrite Hne.
  by destruct (strip_prefix gp n) as [[|d r]|].
Qed.

Lemma matches_full gp sm n :
  PyStr.len gp <= 9 -> (forall d, mem d sm = PyStr.is_digit d) ->
  matches (simple gp) n = group_matches gp sm n.
Proof.
  intros Hlen Hall. unfold matches, group_matches.
  cbn [start prefix summary simple PyStr.truthy].
  destruct (strip_prefix gp n) as [r|]; [|done].
  replace (fill (10 - PyStr.len gp)) with (S (fill (9 - PyStr.len gp)))
    by (unfold fill; lia).
  destruct r as [|d r]; [done|]. cbn [String.length all_digits Nat.eqb].
  rewrite Hall. btauto.
Qed.

Lemma group_matches_app gp sm1 sm2 n :
  group_matches gp (sm1 +:+ sm2) n = group_matches gp sm1 n || group_matches gp sm2 n.
Proof.
  unfold group_matches. destruct (strip_prefix gp n) as [[|d r]|]; [done| |done].
  assert (mem d (sm1 +:+ sm2) = mem d sm1 || mem d sm2) as ->.
  { induction sm1 as [|c sm1 IH]; [done|]. rewrite str_app_cons. simpl.
    rewrite IH. btauto. }
  btauto.
Qed.

Lemma covers_pending gp sm n :
  covers (pending (Some (gp, sm))) n = group_matches gp sm n.
Proof.
  induction sm as [|c sm IH].
  - unfold group_matches. simpl. by destruct (strip_prefix gp n) as [[|d r]|].
  - change (String c sm) with (String c "" +:+ sm) at 2.
    rewrite group_matches_app, <- IH, <- matches_single. done.
Qed.

Lemma mem_elem_of d sm : mem d sm = true <-> d ∈ String.list_ascii_of_string sm.
Proof.
  induction sm as [|c sm IH]; simpl.
  - split; [done|by intros ?%elem_of_nil].
  - rewrite orb_true_iff, elem_of_cons, IH.
    destruct (Ascii.eqb_spec d c); intuition congruence.
Qed.

Lemma is_digit_ten d : PyStr.is_digit d = true <-> d ∈ ten_digits.
Proof.
  rewrite <- (mem_elem_of d "0123456789").
  by destruct d as [[] [] [] [] [] [] [] []].
Qed.

Lemma all_digits_Forall sm :
  all_digits sm = true <->
  Forall (fun c => PyStr.is_digit c = true) (String.list_ascii_of_string sm).
Proof.
  induction sm as [|c sm IH]; simpl; [by split|].
  rewrite andb_true_iff, Forall_cons, IH. done.
Qed.

(** Ten distinct digits are all the digits. *)
Lemma ten_distinct_digits sm :
  all_digits sm = true -> NoDup (String.list_ascii_of_string sm) ->
  PyStr.len sm = 10 -> forall d, mem d sm = PyStr.is_digit d.
Proof.
  intros Hd Hnd Hlen d.
  assert (String.list_ascii_of_string sm ≡ₚ ten_digits) as Hp.
  { apply submseteq_length_Permutation.
    - apply NoDup_submseteq; [done|]. intros c Hc. apply is_digit_ten.
      apply all_digits_Forall in Hd. by apply (proj1 (Forall_forall _ _) Hd).
    - rewrite <- str_length_list. unfold PyStr.len in Hlen.
      change (length ten_digits) with 10%nat. lia. }
  apply eq_true_iff_eq. rewrite mem_elem_of, is_digit_ten. by rewrite Hp.
Qed.

(** Closing a group of distinct digits neither gains nor loses a number. *)
Lemma eject_sound gp sm n :
  PyStr.len gp <= 9 -> sm <> "" -> all_digits sm = true ->
  NoDup (String.list_ascii_of_string sm) ->
  matches (eject_pattern gp sm) n = group_matches gp sm n.
Proof.
  intros Hlen Hne Hd Hnd. unfold eject_pattern.
  destruct (Z.eqb_spec (PyStr.len sm) 1) as [H1|H1].
  - destruct sm as [|c [|c' sm]]; [done| |unfold PyStr.len in H1; simpl in H1; lia].
    apply matches_single.
  - destruct (Z.eqb_spec (PyStr.len sm) 10) as [H10|H10].
    + apply matches_full; [done|]. by apply ten_distinct_digits.
    + by apply matches_digit_set.
Qed.

End matching.

(** ** Soundness of a summarizer pass *)

Section soundness.

Import Numbers.

Variable L : Z.
Hypothesis HL : 2 <= L <= 10.

#[local] Arguments flush : simpl never.
#[local] Arguments pending : simpl never.

Lemma covers_nil n : covers [] n = false.
Proof. done. Qed.

Ltac bool_atoms H :=
  revert H;
  repeat match goal with
    | |- context [covers ?a ?n] => destruct (covers a n)
    | |- context [group_matches ?a ?b ?n] => destruct (group_matches a b n)
    | |- context [matches ?a ?n] => destruct (matches a n)
    end;
  simpl; congruence.

Ltac norm_covers H :=
  repeat first
    [ rewrite covers_nil in H | rewrite covers_nil
    | rewrite covers_app in H | rewrite covers_cons in H
    | rewrite covers_pending in H | rewrite group_matches_app in H
    | rewrite covers_app | rewrite covers_cons
    | rewrite covers_pending | rewrite group_matches_app ].

Lemma list_ascii_app s t :
  String.list_ascii_of_string (s +:+ t) =
    String.list_ascii_of_string s ++ String.list_ascii_of_string t.
Proof. induction s as [|c s IH]; [done|]. rewrite str_app_cons. simpl. by rewrite IH. Qed.

Lemma pending_prefix_NoDup gp sm :
  NoDup (prefix <$> pending (Some (gp, sm))) -> NoDup (String.list_ascii_of_string sm).
Proof.
  unfold pending. rewrite <- list_fmap_compose. apply NoDup_fmap_1.
Qed.

Lemma flush_sound st n :
  digit_group L st -> NoDup (prefix <$> pending st) ->
  covers (flush st) n = covers (pending st) n.
Proof.
  destruct st as [[gp sm]|]; [|done]. intros (Hlen & _ & Hne & Hd) Hnd.
  rewrite covers_pending. unfold flush. cbn [covers existsb]. rewrite orb_false_r.
  apply eject_sound; [lia|done..|by eapply pending_prefix_NoDup].
Qed.

(** The group of a groupable pattern of digits *)
Lemma groupable_digit_group p c :
  plain p -> groupable L p = true -> PyStr.last_char (prefix p) = Some c ->
  digit_group L (Some (PyStr.drop_last (prefix p), String c ""))
  /\ PyStr.is_digit c = true.
Proof.
  intros [_ Hd] [Hlen _]%groupable_iff Hc. apply last_char_Some in Hc.
  rewrite Hc in Hd, Hlen. rewrite all_digits_app in Hd. rewrite len_snoc in Hlen.
  apply andb_true_iff in Hd as [Hd1 Hd2]. simpl in Hd2. rewrite andb_true_r in Hd2.
  split; [|done]. split; [lia|]. split; [done|]. split; [done|]. simpl.
  by rewrite Hd2.
Qed.

Lemma run_sound l st :
  digit_group L st -> Forall plain l ->
  NoDup ((prefix <$> pending st)
         ++ (prefix <$> filter (fun p => groupable L p = true) l)) ->
  exists st' out,
    summarize_run L st l = Ok (st', out)
    /\ digit_group L st' /\ NoDup (prefix <$> pending st')
    /\ forall n, covers (out ++ pending st') n = covers (pending st ++ l) n.
Proof.
  assert (1 <= L) as HL1 by lia.
  revert st. induction l as [|p l IH]; intros st Hst Hpl Hnd.
  - exists st, []. rewrite filter_nil, fmap_nil, !app_nil_r in *. done.
  - apply Forall_cons in Hpl as [Hp Hpl]. rewrite run_cons.
    destruct (groupable L p) eqn:Hg.
    2:{ rewrite step_pass by done. cbn.
        rewrite filter_cons_False in Hnd by congruence.
        destruct (IH st Hst Hpl Hnd) as (st' & out & -> & Hst' & Hnd' & Hcov).
        cbn. exists st', (p :: out). split; [done|]. split; [done|]. split; [done|].
        intros n. specialize (Hcov n). norm_covers Hcov. bool_atoms Hcov. }
    rewrite filter_cons_True, fmap_cons in Hnd by done.
    destruct (groupable_last L HL1 p Hg) as (c & Hc & Hpc).
    destruct (groupable_digit_group p c Hp Hg Hc) as [Hnew Hcd].
    pose proof Hg as [_ Hsm]%groupable_iff. destruct Hp as [Hstart Hdig].
    assert (forall n, matches p n = covers (pending (Some (PyStr.drop_last (prefix p), String c ""))) n)
      as Hpn.
    { intros n. rewrite covers_pending, <- matches_single, <- Hpc.
      by apply matches_simple. }
    assert (prefix <$> pending (Some (PyStr.drop_last (prefix p), String c ""))
            = [prefix p]) as Hpp.
    { unfold pending. simpl. by rewrite <- Hpc. }
    destruct st as [[gp sm]|].
    + destruct (decide (gp = PyStr.drop_last (prefix p))) as [->|Hne].
      * rewrite (step_join L sm p c Hg Hc). cbn.
        destruct Hst as (Hlen & Hgd & Hsne & Hsd).
        destruct (IH (Some (PyStr.drop_last (prefix p), sm +:+ String c ""))) as
          (st' & out & -> & Hst' & Hnd' & Hcov); [|done| |].
        { split; [done|]. split; [done|]. split; [by destruct sm|].
          rewrite all_digits_app, Hsd. simpl. by rewrite Hcd. }
        { unfold pending. rewrite list_ascii_app, !fmap_app. simpl.
          rewrite <- Hpc, <- app_assoc. done. }
        cbn. exists st', out. split; [done|]. split; [done|]. split; [done|].
        intros n. specialize (Hcov n). norm_covers Hcov.
        rewrite (Hpn n). norm_covers Hcov. bool_atoms Hcov.
      * rewrite (step_new L _ p c Hg Hc) by done. cbn.
        destruct (IH (Some (PyStr.drop_last (prefix p), String c ""))) as
          (st' & out & -> & Hst' & Hnd' & Hcov); [done..| |].
        { rewrite Hpp. by apply NoDup_app in Hnd as (_ & _ & Hnd). }
        cbn. eexists st', _. split; [done|]. split; [done|]. split; [done|].
        intros n. specialize (Hcov n).
        assert (covers (flush (Some (gp, sm))) n = covers (pending (Some (gp, sm))) n)
          as Hfl.
        { apply flush_sound; [done|]. by apply NoDup_app in Hnd as (? & _). }
        norm_covers Hcov. rewrite (Hpn n). norm_covers Hfl.
        revert Hfl. bool_atoms Hcov.
    + rewrite (step_new L None p c Hg Hc) by done. cbn.
      destruct (IH (Some (PyStr.drop_last (prefix p), String c ""))) as
        (st' & out & -> & Hst' & Hnd' & Hcov); [done..| |].
      { by rewrite Hpp. }
      cbn. exists st', out. split; [done|]. split; [done|]. split; [done|].
      intros n. specialize (Hcov n). change (pending None) with (@nil Pattern).
      norm_covers Hcov. rewrite (Hpn n). norm_covers Hcov. bool_atoms Hcov.
Qed.

(** One pass over patterns of digits, whose groupable patterns have
    distinct prefixes, matches the numbers that its input matches. *)
Lemma summarize_sound_distinct i :
  Forall plain i ->
  NoDup (prefix <$> filter (fun p => groupable L p = true) i) ->
  exists out, summarize i L = Ok out /\ forall n, covers out n = covers i n.
Proof.
  intros Hpl Hnd. assert (1 <= L) as HL1 by lia.
  destruct (run_sound i None I Hpl Hnd) as (st1 & o1 & Hrun & Hst1 & Hnd1 & Hcov).
  destruct st1 as [[gp sm]|].
  - pose proof Hst1 as (Hlen & Hgd & _).
    rewrite (summarize_closed L HL1 i gp sm o1) by (done || lia).
    eexists. split; [done|]. intros n. specialize (Hcov n).
    change (pending None ++ i) with i in Hcov. rewrite <- Hcov, !covers_app.
    f_equal. by apply (flush_sound (Some (gp, sm))).
  - rewrite (summarize_unfold L i None o1 Hrun).
    rewrite (step_new L None _ "x"%char (marker_groupable L HL1) (marker_last L HL1)) by done.
    cbn. eexists. split; [done|]. intros n. specialize (Hcov n).
    change (pending None ++ i) with i in Hcov. rewrite <- Hcov, !covers_app.
    by rewrite !covers_nil.
Qed.

End soundness.

(** ** Sorted lists of patterns *)

Section sorted_lists.

#[local] Instance pattern_lt_transitive :
  Transitive (fun a b => pattern_lt a b = true).
Proof. intros a b c. apply pattern_lt_trans. Qed.

(** A list that is sorted ascending and has no duplicates is strictly
    ascending. *)
Lemma sorted_strict l :
  Sorted pattern_le l -> NoDup l ->
  StronglySorted (fun a b => pattern_lt a b = true) l.
Proof.
  intros Hs Hnd. apply Sorted_StronglySorted; [apply _|].
  induction Hs as [|a l Hs IH Hhd]; [constructor|].
  apply NoDup_cons in Hnd as [Ha Hnd]. constructor; [by apply IH|].
  destruct Hhd as [|b l [Hlt|Heq]]; constructor; [done|].
  apply pattern_eq_iff in Heq as ->. exfalso. apply Ha. left.
Qed.

Lemma strict_distinct_prefixes L l :
  Forall plain l -> StronglySorted (fun a b => pattern_lt a b = true) l ->
  NoDup (prefix <$> filter (fun p => groupable L p = true) l).
Proof.
  intros Hpl Hs. induction Hs as [|a l Hs IH Hall]; [constructor|].
  apply Forall_cons in Hpl as [[Hsa _] Hpl].
  destruct (groupable L a) eqn:Hg; [|rewrite filter_cons_False by congruence; auto].
  rewrite filter_cons_True, fmap_cons by done. constructor; [|auto].
  intros (b & Hab & [Hgb Hb]%list_elem_of_filter)%list_elem_of_fmap.
  pose proof (proj1 (Forall_forall _ _) Hall b Hb) as Hlt. simpl in Hlt.
  pose proof (proj1 (Forall_forall _ _) Hpl b Hb) as [Hsb _].
  apply groupable_iff in Hg as [_ Hma]. apply groupable_iff in Hgb as [_ Hmb].
  apply pattern_lt_iff in Hlt. rewrite Hab, Hsa, Hsb, Hma, Hmb in Hlt.
  rewrite !str_lt_irrefl in Hlt. intuition discriminate.
Qed.

End sorted_lists.

(** C1, as amended.  For every list of simple and digit-set patterns of the
    data model (no range, prefix of digits) that is sorted ascending and free
    of duplicates, and for every length [L] from 10 down to 3, one summarizer
    pass at [L] ends without error and its output matches exactly the numbers
    that its input matches. *)
Theorem summarize_sound :
  forall i L,
    3 <= L <= 10 ->
    Forall plain i -> Sorted pattern_le i -> NoDup i ->
    exists out,
      summarize i L = Ok out
      /\ forall n, Numbers.covers out n = Numbers.covers i n.
Proof.
  intros i L HL Hpl Hs Hnd.
  apply summarize_sound_distinct; [lia|done|].
  apply strict_distinct_prefixes; [done|]. by apply sorted_strict.
Qed.

Lemma summarize_sound_witness :
  exists out,
    summarize [simple "5551"; simple "5552"; mkPattern "5553" "" "" "12"; simple "5561"] 4
      = Ok out
    /\ forall n,
        Numbers.covers out n =
        Numbers.covers
          [simple "5551"; simple "5552"; mkPattern "5553" "" "" "12"; simple "5561"] n.
Proof.
  apply (summarize_sound
           [simple "5551"; simple "5552"; mkPattern "5553" "" "" "12"; simple "5561"] 4).
  - lia.
  - repeat constructor.
  - repeat constructor; left; reflexivity.
  - apply (bool_decide_unpack _). vm_compute. exact I.
Defined.

(** C1, as stated, fails: the input below is sorted ascending (it is what
    [list.sort()] leaves unchanged) but contains "5550" twice.  The pass at
    length 4 collects ten trailing digits, takes the group for complete and
    yields "555", which matches 5559000000; no pattern of the input does. *)
Lemma summarize_gains_numbers_on_duplicates :
  Forall plain duplicated_input
  /\ Sorted pattern_le duplicated_input
  /\ sort duplicated_input = duplicated_input
  /\ summarize duplicated_input 4 = Ok [simple "555"]
  /\ Numbers.covers [simple "555"] "5559000000" = true
  /\ Numbers.covers duplicated_input "5559000000" = false.
Proof.
  split; [repeat constructor|]. split; [|by vm_compute].
  unfold duplicated_input.
  repeat first [apply Sorted_nil | apply Sorted_cons | apply HdRel_nil | apply HdRel_cons];
    first [by left | by right].
Qed.

(** ** Raw records: what the constructor rejects *)

Section raw_records.

Lemma int_not_Fuel s : PyStr.int s <> Fuel.
Proof.
  unfold PyStr.int. destruct (PyStr.lstrip (PyStr.rstrip s)) as [|c body]; [done|].
  destruct (Ascii.eqb c "-"); [by destruct (PyStr.digits_us false 0 body)|].
  destruct (Ascii.eqb c "+"); [by destruct (PyStr.digits_us false 0 body)|].
  by destruct (PyStr.digits_us false 0 (String c body)).
Qed.

Lemma mem_rstrip c s :
  Numbers.mem c s = true -> PyStr.is_space c = false ->
  Numbers.mem c (PyStr.rstrip s) = true.
Proof.
  intros Hm Hc. induction s as [|d s IH]; [done|].
  cbn [Numbers.mem] in Hm. cbn [PyStr.rstrip].
  destruct (Ascii.eqb_spec c d) as [<-|Hne]; simpl in Hm.
  - destruct (PyStr.rstrip s); [rewrite Hc|]; simpl; by rewrite Ascii.eqb_refl.
  - specialize (IH Hm). destruct (PyStr.rstrip s) as [|e r]; [done|].
    cbn [Numbers.mem] in *. rewrite IH. by rewrite orb_true_r.
Qed.

Lemma mem_lstrip c s :
  Numbers.mem c s = true -> PyStr.is_space c = false ->
  Numbers.mem c (PyStr.lstrip s) = true.
Proof.
  intros Hm Hc. induction s as [|d s IH]; [done|]. cbn [PyStr.lstrip].
  destruct (PyStr.is_space d) eqn:Hd; [|done]. apply IH.
  cbn [Numbers.mem] in Hm. destruct (Ascii.eqb_spec c d) as [->|_]; [congruence|done].
Qed.

Lemma digits_us_bad c prev acc s :
  Numbers.mem c s = true -> PyStr.is_digit c = false -> Ascii.eqb c "_" = false ->
  PyStr.digits_us prev acc s = None.
Proof.
  intros Hm Hd Hu. revert prev acc. induction s as [|d s IH]; intros prev acc; [done|].
  cbn [Numbers.mem] in Hm. cbn [PyStr.digits_us].
  destruct (Ascii.eqb_spec c d) as [<-|_]; simpl in Hm.
  - by rewrite Hd, Hu.
  - destruct (PyStr.is_digit d); [by apply IH|].
    destruct (Ascii.eqb d "_"); [|done]. destruct prev; [by apply IH|done].
Qed.

Lemma int_Raise s e : PyStr.int s = Raise e -> e = ValueError.
Proof.
  unfold PyStr.int. destruct (PyStr.lstrip (PyStr.rstrip s)) as [|c body]; [congruence|].
  destruct (Ascii.eqb c "-"); [destruct (PyStr.digits_us false 0 body); congruence|].
  destruct (Ascii.eqb c "+"); [destruct (PyStr.digits_us false 0 body); congruence|].
  destruct (PyStr.digits_us false 0 (String c body)); congruence.
Qed.

(** [int()] raises [ValueError] on the empty text and on a text with a
    character that no literal contains. *)
Lemma int_foreign_text s : foreign_text s -> not_a_number s.
Proof.
  intros [->|(c & Hm & Hc)]; [done|].
  unfold int_char in Hc. rewrite !orb_false_iff in Hc.
  destruct Hc as ((((Hd & Hs) & Hplus) & Hminus) & Hu).
  pose proof (mem_lstrip c _ (mem_rstrip c s Hm Hs) Hs) as Hm'.
  unfold not_a_number, PyStr.int.
  destruct (PyStr.lstrip (PyStr.rstrip s)) as [|d body]; [done|].
  assert (Hbody : Ascii.eqb c d = false -> PyStr.digits_us false 0 body = None).
  { intros E. cbn [Numbers.mem] in Hm'. rewrite E in Hm'. by apply (digits_us_bad c). }
  destruct (Ascii.eqb_spec d "-") as [->|_]; [by rewrite Hbody|].
  destruct (Ascii.eqb_spec d "+") as [->|_]; [by rewrite Hbody|].
  by rewrite (digits_us_bad c).
Qed.

(** Texts of literal characters only that are no numbers all the same *)
Lemma not_a_number_literal_chars :
  not_a_number " " /\ not_a_number "1 2" /\ not_a_number "1__0"
  /\ not_a_number "+" /\ not_a_number "_1" /\ not_a_number "1_".
Proof. by vm_compute. Qed.

(** A text is a number or it is not. *)
Lemma int_cases s : (exists n, PyStr.int s = Ok n) \/ not_a_number s.
Proof.
  destruct (PyStr.int s) as [n|e|] eqn:E; [by eauto| |by apply int_not_Fuel in E].
  right. unfold not_a_number. rewrite E. by apply int_Raise in E as ->.
Qed.

Lemma trim_not_Fuel s e : trim s e <> Fuel.
Proof. apply trim_loop_fuel. Qed.

Lemma field_int_not_Fuel v : field_int v <> Fuel.
Proof. destruct v; [apply int_not_Fuel|done]. Qed.

Lemma Pattern_init_row_not_Fuel p : Pattern_init_row p <> Fuel.
Proof.
  unfold Pattern_init_row, getitem.
  destruct (p !! " NIR"); [|done]. cbn.
  destruct (p !! " SERIE"); [|done]. cbn.
  destruct (p !! " NUMERACION_INICIAL") as [ini|]; [|done]. cbn.
  destruct (field_int ini) eqn:Ei; [|done|by apply field_int_not_Fuel in Ei]. cbn.
  destruct (p !! " NUMERACION_FINAL") as [fin|]; [|done]. cbn.
  destruct (field_int fin) eqn:Ef; [|done|by apply field_int_not_Fuel in Ef]. cbn.
  destruct (trim _ _) as [[ts te]|ex|] eqn:Et; [done|done|by apply trim_not_Fuel in Et].
Qed.

(** The constructor on a record is the constructor on the fields read from
    it, the bounds padded to four digits. *)
Lemma Pattern_init_row_fields r nir serie ini fin a b :
  r !! " NIR" = Some nir -> r !! " SERIE" = Some serie ->
  r !! " NUMERACION_INICIAL" = Some (Str ini) ->
  r !! " NUMERACION_FINAL" = Some (Str fin) ->
  PyStr.int ini = Ok a -> PyStr.int fin = Ok b ->
  Pattern_init_row r =
    Pattern_init (field_str nir +:+ field_str serie)
      (PyStr.format_0d a 4) (PyStr.format_0d b 4).
Proof.
  intros E1 E2 E3 E4 Ea Eb. unfold Pattern_init_row, Pattern_init, getitem.
  rewrite E1, E2, E3, E4. cbn. rewrite Ea. cbn. rewrite Eb. done.
Qed.





End raw_records.




(** ** The constructor and the trim rule *)

Lemma Pattern_init_rule p s e :
  Pattern_init p s e =
    if start_exhausted (trim_rule s e).1 (trim_rule s e).2 then Raise IndexError
    else Ok (mkPattern p (trim_rule s e).1 (trim_rule s e).2 "").
Proof.
  unfold Pattern_init, trim, trim_rule.
  destruct (trim_rule_loop_spec (String.length e) s e (le_n _)) as (k & _ & _ & _ & ->).
  destruct (trim_rule_loop (String.length e) s e) as [s' e']. cbn [fst snd].
  by destruct (start_exhausted s' e').
Qed.

Lemma equal_width_not_exhausted s e :
  String.length s = String.length e ->
  start_exhausted (trim_rule s e).1 (trim_rule s e).2 = false.
Proof.
  intros Hlen. destruct (trim_equal_width s e Hlen) as (k & s' & e' & Ht & _).
  pose proof (Pattern_init_rule "" s e) as Hp. unfold Pattern_init in Hp.
  rewrite Ht in Hp. cbn in Hp.
  by destruct (start_exhausted (trim_rule s e).1 (trim_rule s e).2).
Qed.

(** C6, as amended.  Constructing a range pattern applies the trim rule as
    long as [start] does not run out: the rule drops some number [k] of
    trailing digits from both bounds, those of [start] all [0] and those of
    [end] all [9], and stops at the first pair that is not of this shape;
    the constructor stores what the rule leaves, and it raises [IndexError]
    instead when the rule has stopped for an empty [start] before an [end]
    that still ends in [9].  With bounds of the same width this does not
    happen.  The constructor on a record does the same with the two bounds
    padded to four digits and the prefix made of NIR and SERIE, and bounds
    from 0 to 9999 are padded to the same width.  In particular ("00", "99")
    is trimmed to ("", "") and ("10", "90") is left unchanged. *)
Theorem Pattern_init_trims :
  (forall p s e,
      (exists k,
          s = (trim_rule s e).1 +:+ PyStr.repeat_char "0" k
          /\ e = (trim_rule s e).2 +:+ PyStr.repeat_char "9" k
          /\ ~ (PyStr.last_char (trim_rule s e).1 = Some "0"%char
                /\ PyStr.last_char (trim_rule s e).2 = Some "9"%char))
      /\ Pattern_init p s e =
           if start_exhausted (trim_rule s e).1 (trim_rule s e).2
           then Raise IndexError
           else Ok (mkPattern p (trim_rule s e).1 (trim_rule s e).2 ""))
  /\ (forall s e,
        String.length s = String.length e ->
        start_exhausted (trim_rule s e).1 (trim_rule s e).2 = false)
  /\ (forall r nir serie ini fin i f,
        r !! " NIR" = Some nir -> r !! " SERIE" = Some serie ->
        r !! " NUMERACION_INICIAL" = Some (Str ini) ->
        r !! " NUMERACION_FINAL" = Some (Str fin) ->
        PyStr.int ini = Ok i -> PyStr.int fin = Ok f ->
        Pattern_init_row r =
          (if start_exhausted (trim_rule (PyStr.format_0d i 4) (PyStr.format_0d f 4)).1
                (trim_rule (PyStr.format_0d i 4) (PyStr.format_0d f 4)).2
           then Raise IndexError
           else Ok (mkPattern (field_str nir +:+ field_str serie)
                      (trim_rule (PyStr.format_0d i 4) (PyStr.format_0d f 4)).1
                      (trim_rule (PyStr.format_0d i 4) (PyStr.format_0d f 4)).2 ""))
        /\ (0 <= i <= 9999 -> 0 <= f <= 9999 ->
            Numbers.all_digits (PyStr.format_0d i 4) = true
            /\ String.length (PyStr.format_0d i 4) = 4%nat
            /\ Numbers.value (PyStr.format_0d i 4) = i
            /\ Numbers.all_digits (PyStr.format_0d f 4) = true
            /\ String.length (PyStr.format_0d f 4) = 4%nat
            /\ Numbers.value (PyStr.format_0d f 4) = f
            /\ start_exhausted
                 (trim_rule (PyStr.format_0d i 4) (PyStr.format_0d f 4)).1
                 (trim_rule (PyStr.format_0d i 4) (PyStr.format_0d f 4)).2 = false))
  /\ (forall p, Pattern_init p "00" "99" = Ok (mkPattern p "" "" ""))
  /\ (forall p, Pattern_init p "10" "90" = Ok (mkPattern p "10" "90" "")).
Proof.
  split; [|split; [|split; [|by split]]].
  - intros p s e. split; [|apply Pattern_init_rule].
    unfold trim_rule.
    destruct (trim_rule_loop_spec (String.length e) s e (le_n _)) as (k & Es & Ee & Hs & _).
    by exists k.
  - apply equal_width_not_exhausted.
  - intros r nir serie ini fin i f E1 E2 E3 E4 Ei Ef. split.
    + rewrite (Pattern_init_row_fields r nir serie ini fin i f E1 E2 E3 E4 Ei Ef).
      apply Pattern_init_rule.
    + intros Hi Hf.
      destruct (format_0d_spec i 4 ltac:(lia) ltac:(simpl; lia)) as (Di & Li & Vi).
      destruct (format_0d_spec f 4 ltac:(lia) ltac:(simpl; lia)) as (Df & Lf & Vf).
      repeat (split; [done|]). apply equal_width_not_exhausted. congruence.
Qed.

Lemma Pattern_init_trims_witness :
  Pattern_init_row (record (Str "MOVIL") (Str "55") (Str "1234") (Str "100") (Str "199"))
    = Ok (mkPattern "551234" "01" "01" "")
  /\ Numbers.all_digits (PyStr.format_0d 100 4) = true
  /\ String.length (PyStr.format_0d 100 4) = 4%nat
  /\ Numbers.value (PyStr.format_0d 100 4) = 100
  /\ Numbers.all_digits (PyStr.format_0d 199 4) = true
  /\ String.length (PyStr.format_0d 199 4) = 4%nat
  /\ Numbers.value (PyStr.format_0d 199 4) = 199
  /\ start_exhausted
       (trim_rule (PyStr.format_0d 100 4) (PyStr.format_0d 199 4)).1
       (trim_rule (PyStr.format_0d 100 4) (PyStr.format_0d 199 4)).2 = false
  /\ start_exhausted (trim_rule "0100" "0199").1 (trim_rule "0100" "0199").2 = false.
Proof.
  destruct Pattern_init_trims as (_ & Hwidth & Hrow & _).
  destruct (Hrow (record (Str "MOVIL") (Str "55") (Str "1234") (Str "100") (Str "199"))
              (Str "55") (Str "1234") "100" "199" 100 199) as [H1 H2];
    [reflexivity..|].
  split; [exact H1|].
  destruct H2 as (A & B & C & D & E & F & G); [lia|lia|].
  repeat (split; [assumption|]).
  apply (Hwidth "0100" "0199"). reflexivity.
Defined.

(** C6, as stated, fails where [start] runs out first: the bounds 0 and
    99999 of a record are padded to "0000" and "99999"; the rule drops four
    pairs and stops at an empty [start] and the [end] "9", but the
    constructor raises [IndexError] and builds no pattern. *)
Lemma Pattern_init_row_start_runs_out :
  mobile wide_row
  /\ trim_rule "0000" "99999" = ("", "9")
  /\ Pattern_init_row wide_row = Raise IndexError
  /\ Pattern_init "551234" "0000" "99999" = Raise IndexError
  /\ optimize_patterns [wide_row] = Raise IndexError.
Proof. repeat split; by vm_compute. Qed.

(** ** The differencer *)

Section differencer.

Lemma next_length i :
  (length (option_list (next i).1) + length (next i).2 = length i)%nat.
Proof. by destruct i. Qed.

(** The loop is given enough iterations. *)
Lemma compare_loop_fuel fuel head_old head_new i_old i_new deleted added :
  (length (option_list head_old) + length i_old
   + length (option_list head_new) + length i_new <= S fuel)%nat ->
  compare_loop fuel head_old head_new i_old i_new deleted added <> Fuel.
Proof.
  revert head_old head_new i_old i_new deleted added.
  induction fuel as [|fuel IH]; intros [o|] [n|] i_old i_new deleted added Hm;
    cbn [compare_loop]; try done.
  - simpl in Hm. lia.
  - pose proof (next_length i_old). pose proof (next_length i_new).
    destruct (pattern_eq o n); [|destruct (pattern_gt o n)]; apply IH;
      simpl in *; lia.
Qed.

Lemma list_compare_not_Fuel old new : list_compare old new <> Fuel.
Proof.
  unfold list_compare. apply compare_loop_fuel.
  pose proof (next_length old). pose proof (next_length new). lia.
Qed.

End differencer.

(** C2: the code does not do what the claim (and the docstring of
    [list_compare]) says.  When one iterator is exhausted, the loop appends
    what the other iterator has not yet produced, but not the element that
    was already taken from it: that element is in neither result.  On the
    example of the specification the pattern "55514" is not reported as
    added; in general the first element of [new] is lost when [old] is
    empty, and the first element of [old] when [new] is empty. *)
Theorem list_compare_drops_pending_head :
  list_compare [simple "55512"; simple "55513"] [simple "55513"; simple "55514"]
    = Ok ([simple "55512"], [])
  /\ (forall n new, list_compare [] (n :: new) = Ok ([], new))
  /\ (forall o old, list_compare (o :: old) [] = Ok (old, [])).
Proof. split; [by vm_compute|]. by split. Qed.

(** ** The rendered pattern and the numbers it matches *)

Section rendering.

Import Numbers.

Lemma digit_not_special c :
  PyStr.is_digit c = true ->
  Ascii.eqb c "\" = false /\ Ascii.eqb c "[" = false
  /\ Ascii.eqb c "X" = false /\ Ascii.eqb c "]" = false.
Proof. by destruct c as [[] [] [] [] [] [] [] []]. Qed.

Lemma ucm_accepts_digits s rest n :
  all_digits s = true ->
  ucm_accepts Plain (s +:+ rest) n =
    match strip_prefix s n with
    | Some r => ucm_accepts Plain rest r
    | None => false
    end.
Proof.
  revert n. induction s as [|c s IH]; intros n Hs; [done|].
  cbn [all_digits] in Hs. apply andb_true_iff in Hs as [Hc Hs].
  destruct (digit_not_special c Hc) as (E1 & E2 & E3 & _).
  rewrite str_app_cons. cbn [ucm_accepts strip_prefix]. rewrite E1.
  destruct n as [|d n]; [done|]. rewrite E2, E3.
  destruct (Ascii.eqb c d); [by apply IH|done].
Qed.

Lemma ucm_accepts_wild k r :
  ucm_accepts Plain (PyStr.repeat_char "X" k) r
  = Nat.eqb (String.length r) k && all_digits r.
Proof.
  revert r. induction k as [|k IH]; intros [|d r]; try done.
  cbn [PyStr.repeat_char ucm_accepts]. rewrite IH. simpl. btauto.
Qed.

Lemma ucm_accepts_set d found sm rest n :
  all_digits sm = true ->
  ucm_accepts (InSet d found) (sm +:+ String "]" rest) n
  = (found || mem d sm) && ucm_accepts Plain rest n.
Proof.
  revert found. induction sm as [|c sm IH]; intros found Hs.
  - rewrite str_app_nil_l. simpl. by rewrite orb_false_r.
  - cbn [all_digits] in Hs. apply andb_true_iff in Hs as [Hc Hs].
    destruct (digit_not_special c Hc) as (_ & _ & _ & E).
    rewrite str_app_cons. cbn [ucm_accepts mem]. rewrite E, (IH _ Hs).
    by rewrite orb_assoc.
Qed.

(** The numbers that [matches] gives to a simple or digit-set pattern of
    digits are those that the switch accepts for its rendering, after the
    country code. *)
Lemma matches_for_ucm p n :
  plain p -> all_digits (summary p) = true ->
  ucm_accepts Plain (for_ucm p) ("+52" +:+ n) = matches p n.
Proof.
  intros [Hs Hp] Hsm. unfold for_ucm, matches. rewrite Hs. cbn [PyStr.truthy].
  change (ucm_accepts Plain ("\+52" +:+ ?r) ("+52" +:+ n))
    with (ucm_accepts Plain r n).
  destruct (PyStr.truthy (summary p)) eqn:Ht.
  - rewrite (ucm_accepts_digits _ _ _ Hp).
    destruct (strip_prefix (prefix p) n) as [[|d r]|]; [done| |done].
    rewrite str_app_cons, str_app_nil_l. cbn [ucm_accepts].
    change (Ascii.eqb "[" "\") with false. change (Ascii.eqb "[" "[") with true.
    cbn iota. change ("]" +:+ ?x) with (String "]" x).
    rewrite (ucm_accepts_set _ _ _ _ _ Hsm), ucm_accepts_wild.
    unfold fill. simpl. btauto.
  - rewrite (ucm_accepts_digits _ _ _ Hp).
    destruct (strip_prefix (prefix p) n) as [r|]; [|done].
    by rewrite ucm_accepts_wild.
Qed.

End rendering.

(** ** [list.sort()] *)

Section sorting.

Lemma insert_sorted_Permutation x l : insert_sorted x l ≡ₚ x :: l.
Proof.
  induction l as [|y l IH]; [done|]. cbn [insert_sorted].
  destruct (pattern_lt y x); [|done]. rewrite IH. apply Permutation_swap.
Qed.

Lemma sort_Permutation l : sort l ≡ₚ l.
Proof.
  induction l as [|x l IH]; [done|]. cbn [sort foldr].
  rewrite insert_sorted_Permutation. by rewrite IH.
Qed.

Lemma insert_sorted_ascending x l :
  Sorted (fun a b => pattern_lt b a = false) l ->
  Sorted (fun a b => pattern_lt b a = false) (insert_sorted x l).
Proof.
  induction 1 as [|y l Hs IH Hhd]; [by repeat constructor|].
  cbn [insert_sorted]. destruct (pattern_lt y x) eqn:Hyx.
  - constructor; [done|]. destruct Hhd as [|z l Hz]; cbn [insert_sorted].
    + constructor. by apply pattern_lt_asym.
    + destruct (pattern_lt z x); constructor; [done|]. by apply pattern_lt_asym.
  - constructor; [by constructor|]. by constructor.
Qed.

(** The sorted list has no descent: no element is less than its
    predecessor. *)
Lemma sort_ascending l : Sorted (fun a b => pattern_lt b a = false) (sort l).
Proof.
  induction l as [|x l IH]; [constructor|]. by apply insert_sorted_ascending.
Qed.

End sorting.

(** ** Outside the domain of the pass and of the constructor *)

Section outside_the_domain.

(** At length zero the marker has an empty prefix, and taking its last
    character raises. *)
Lemma summarize_nil_zero : summarize [] 0 = Raise IndexError.
Proof. reflexivity. Qed.

(** At a negative length the marker has the prefix [''], whose length
    differs from the length of the pass: it is passed through. *)
Lemma summarize_nil_negative : summarize [] (-1) = Ok [simple ""].
Proof. reflexivity. Qed.

(** At length one every group has the empty prefix, as the group of the
    marker has: the last group is never closed. *)
Lemma summarize_length_one : summarize [simple "5"] 1 = Ok [].
Proof. reflexivity. Qed.

(** With bounds of different widths the constructor can run out of [start]
    while [end] still ends in 9. *)
Lemma Pattern_init_unequal_width : Pattern_init "55" "0" "99" = Raise IndexError.
Proof. reflexivity. Qed.

End outside_the_domain.

(* ===================================================================== *)
(** * Further properties of the code *)
(* ===================================================================== *)

(** ** The summarizer: groups of other sizes, runs that are not adjacent *)

Section more_groups.

Lemma collected_length L gp g :
  1 <= L -> is_group L gp g -> String.length (collected g) = length g.
Proof.
  intros HL Hg. induction Hg as [|p g [Hp _] _ IH]; [done|].
  destruct (groupable_last L HL p Hp) as (c & Hc & _).
  cbn [collected length]. rewrite Hc. simpl. by rewrite IH.
Qed.

Lemma collected_get L gp g k p :
  1 <= L -> is_group L gp g -> g !! k = Some p ->
  String.get k (collected g) = PyStr.last_char (prefix p).
Proof.
  intros HL Hg. revert k. induction Hg as [|p' g [Hp _] _ IH]; intros k Hk; [done|].
  destruct (groupable_last L HL p' Hp) as (c & Hc & _).
  cbn [collected]. rewrite Hc. destruct k as [|k]; simpl in *.
  - by injection Hk as <-.
  - by apply IH.
Qed.

Lemma eject_pattern_digit_set gp sm :
  String.length sm <> 1%nat -> String.length sm <> 10%nat ->
  eject_pattern gp sm = mkPattern gp "" "" sm.
Proof.
  intros H1 H10. unfold eject_pattern, PyStr.len.
  destruct (Z.eqb_spec (Z.of_nat (String.length sm)) 1); [lia|].
  destruct (Z.eqb_spec (Z.of_nat (String.length sm)) 10); [lia|done].
Qed.

(** A pattern whose prefix has one character has the empty group prefix. *)
Lemma drop_last_length_one s : PyStr.len s = 1 -> PyStr.drop_last s = "".
Proof.
  unfold PyStr.len. destruct s as [|c [|d s]]; simpl; [lia|done|lia].
Qed.

Lemma run_length_one st i :
  (st = None \/ exists sm, st = Some ("", sm)) ->
  exists st',
    (st' = None \/ exists sm, st' = Some ("", sm))
    /\ summarize_run 1 st i = Ok (st', filter (fun p => groupable 1 p = false) i).
Proof.
  revert st. induction i as [|p i IH]; intros st Hst; [by exists st|].
  rewrite run_cons. destruct (groupable 1 p) eqn:Hg.
  - rewrite filter_cons_False by congruence.
    destruct (groupable_last 1 ltac:(lia) p Hg) as (c & Hc & _).
    pose proof Hg as [Hlen _]%groupable_iff.
    pose proof (drop_last_length_one _ Hlen) as Hd.
    assert (exists sm', summarize_step 1 st p = Ok (Some ("", sm'), [])) as (sm' & ->).
    { destruct Hst as [->|(sm & ->)].
      - rewrite (step_new 1 None p c Hg Hc) by done. rewrite Hd. by eexists.
      - rewrite <- Hd. rewrite (step_join 1 sm p c Hg Hc). by eexists. }
    cbn. destruct (IH (Some ("", sm'))) as (st' & Hst' & ->); [eauto|].
    cbn. eauto.
  - rewrite filter_cons_True by done. rewrite step_pass by done. cbn.
    destruct (IH st Hst) as (st' & Hst' & ->). cbn. eauto.
Qed.

End more_groups.

(** X1.  In a pass at length [L], a group of [k] patterns with [k] neither 1
    nor 10 is closed by yielding exactly one digit-set pattern: its prefix is
    the group prefix and its digit set lists the trailing characters of the
    [k] patterns in the order in which they were met. *)
Theorem partial_group_digit_set :
  forall L st gp g q c,
    1 <= L ->
    is_group L gp g ->
    (2 <= length g)%nat -> length g <> 10%nat ->
    not_pending gp st ->
    groupable L q = true -> PyStr.last_char (prefix q) = Some c ->
    PyStr.drop_last (prefix q) <> gp ->
    summarize_run L st (g ++ [q]) =
      Ok (Some (PyStr.drop_last (prefix q), String c ""),
          flush st ++ [mkPattern gp "" "" (collected g)])
    /\ String.length (collected g) = length g
    /\ forall k p, g !! k = Some p ->
         String.get k (collected g) = PyStr.last_char (prefix p).
Proof.
  intros L st gp g q c HL Hg H2 H10 Hst Hq Hc Hqg.
  pose proof (collected_length L gp g HL Hg) as Hlen.
  split; [|split; [done|intros k p; by apply (collected_get L gp)]].
  rewrite (run_group_closed L HL st gp g q c); try done.
  - rewrite eject_pattern_digit_set; [done|lia..].
  - intros ->. simpl in H2. lia.
Qed.

Lemma partial_group_digit_set_witness :
  summarize_run 5 None ([simple "55517"; simple "55513"; simple "55514"] ++ [simple "55520"]) =
    Ok (Some (PyStr.drop_last (prefix (simple "55520")), String "0" ""),
        flush None
        ++ [mkPattern "5551" "" "" (collected [simple "55517"; simple "55513"; simple "55514"])])
  /\ String.length (collected [simple "55517"; simple "55513"; simple "55514"])
     = length [simple "55517"; simple "55513"; simple "55514"]
  /\ forall k p, [simple "55517"; simple "55513"; simple "55514"] !! k = Some p ->
       String.get k (collected [simple "55517"; simple "55513"; simple "55514"])
       = PyStr.last_char (prefix p).
Proof.
  apply (partial_group_digit_set 5 None "5551"
           [simple "55517"; simple "55513"; simple "55514"] (simple "55520") "0"%char).
  - lia.
  - repeat constructor.
  - simpl. lia.
  - simpl. lia.
  - exact I.
  - reflexivity.
  - reflexivity.
  - vm_compute. discriminate.
Defined.

(** X2.  A group is a run of consecutive groupable patterns: two runs with
    the same group prefix that are separated by a run of another group are
    closed separately, and the pass yields two summaries for that prefix. *)
Theorem separated_runs_not_merged :
  forall L gp gp' g1 g2 g3 q c,
    1 <= L ->
    g1 <> [] -> g2 <> [] -> g3 <> [] ->
    is_group L gp g1 -> is_group L gp' g2 -> is_group L gp g3 ->
    gp' <> gp ->
    groupable L q = true -> PyStr.last_char (prefix q) = Some c ->
    PyStr.drop_last (prefix q) <> gp ->
    summarize_run L None (g1 ++ g2 ++ g3 ++ [q]) =
      Ok (Some (PyStr.drop_last (prefix q), String c ""),
          [eject_pattern gp (collected g1); eject_pattern gp' (collected g2);
           eject_pattern gp (collected g3)]).
Proof.
  intros L gp gp' g1 g2 g3 q c HL N1 N2 N3 G1 G2 G3 Hne Hq Hc Hqg.
  rewrite (run_app L None g1 _ _ _ (run_group L HL None gp g1 N1 G1 I)).
  rewrite (run_app L _ g2 _ _ _
             (run_group L HL (Some (gp, collected g1)) gp' g2 N2 G2 ltac:(simpl; congruence))).
  rewrite (run_group_closed L HL (Some (gp', collected g2)) gp g3 q c); try done.
Qed.

Lemma separated_runs_not_merged_witness :
  summarize_run 3 None
    ([simple "551"; simple "552"] ++ [simple "561"] ++ [simple "553"] ++ [simple "571"]) =
    Ok (Some (PyStr.drop_last (prefix (simple "571")), String "1" ""),
        [eject_pattern "55" (collected [simple "551"; simple "552"]);
         eject_pattern "56" (collected [simple "561"]);
         eject_pattern "55" (collected [simple "553"])]).
Proof.
  apply (separated_runs_not_merged 3 "55" "56"
           [simple "551"; simple "552"] [simple "561"] [simple "553"]
           (simple "571") "1"%char);
    try discriminate; try reflexivity; try lia; repeat constructor.
Defined.

(** X3.  A pass at length 1 yields the patterns that it does not group and
    nothing else: every groupable pattern has the empty group prefix, which
    is also the group prefix of the marker, so the only group of the pass is
    never closed. *)
Theorem summarize_length_one_drops_groups :
  forall i, summarize i 1 = Ok (filter (fun p => groupable 1 p = false) i).
Proof.
  intros i. destruct (run_length_one None i) as (st1 & Hst1 & Hrun); [by left|].
  rewrite (summarize_unfold 1 i st1 _ Hrun).
  assert (exists sm', summarize_step 1 st1 (marker_pattern 1) = Ok (Some ("", sm'), []))
    as (sm' & ->).
  { destruct Hst1 as [->|(sm & ->)]; by eexists. }
  cbn. by rewrite app_nil_r.
Qed.

(** ** The expander on lists, the filter on the network type *)

Section lists_of_rows.

Lemma expand_rangeless p : start p = "" -> expand p = Ok [p].
Proof. intros E. unfold expand. by rewrite E. Qed.

Lemma expand_patterns_app l1 l2 :
  expand_patterns (l1 ++ l2) =
    ps ← expand_patterns l1; qs ← expand_patterns l2; mret (ps ++ qs).
Proof.
  induction l1 as [|p l1 IH].
  - cbn. by destruct (expand_patterns l2).
  - cbn [app expand_patterns]. destruct (expand p) as [ps| |]; [|done..]. cbn.
    change (mbind ?f ?x) with (bind x f) in *. rewrite IH.
    destruct (expand_patterns l1) as [qs| |]; [|done..]. cbn.
    destruct (expand_patterns l2) as [rs| |]; [|done..]. cbn.
    by rewrite app_assoc.
Qed.

Lemma mobile_patterns_app l1 l2 :
  mobile_patterns (l1 ++ l2) =
    xs ← mobile_patterns l1; ys ← mobile_patterns l2; mret (xs ++ ys).
Proof.
  induction l1 as [|p l1 IH].
  - cbn. by destruct (mobile_patterns l2).
  - cbn [app mobile_patterns]. destruct (getitem p " TIPO_RED") as [t| |]; [|done..]. cbn.
    change (mbind ?f ?x) with (bind x f) in *.
    destruct (field_eq t "MOVIL"); [|done].
    destruct (Pattern_init_row p) as [x| |]; [|done..]. cbn. rewrite IH.
    destruct (mobile_patterns l1) as [xs| |]; [|done..]. cbn.
    by destruct (mobile_patterns l2) as [ys| |].
Qed.

End lists_of_rows.

(** X4.  Expanding a list of patterns without range returns the list itself:
    simple and digit-set patterns, such as a summarizer pass yields, go
    through the expander unchanged and in order; and the expansion of a
    concatenation is the concatenation of the expansions. *)
Theorem expand_patterns_rangeless :
  (forall l, Forall (fun p => start p = "") l -> expand_patterns l = Ok l)
  /\ (forall l1 l2 ps qs,
        expand_patterns l1 = Ok ps -> expand_patterns l2 = Ok qs ->
        expand_patterns (l1 ++ l2) = Ok (ps ++ qs)).
Proof.
  split.
  - intros l Hl. induction Hl as [|p l Hp _ IH]; [done|].
    cbn [expand_patterns]. rewrite (expand_rangeless p Hp). cbn. by rewrite IH.
  - intros l1 l2 ps qs H1 H2. rewrite expand_patterns_app.
    change (mbind ?f ?x) with (bind x f). by rewrite H1, H2.
Qed.

Lemma expand_patterns_rangeless_witness :
  expand_patterns [simple "5551"; mkPattern "5552" "" "" "37"]
  = Ok [simple "5551"; mkPattern "5552" "" "" "37"].
Proof.
  destruct expand_patterns_rangeless as [H _].
  apply (H [simple "5551"; mkPattern "5552" "" "" "37"]). repeat constructor.
Defined.

(** X5.  A record whose network type is present and is not the string
    "MOVIL" (another string, or the [None] of a short row) has no influence
    on the result of [optimize_patterns], whatever its other fields are: the
    batch with the record and the batch without it give the same outcome. *)
Theorem other_network_rows_ignored :
  forall l1 r l2 t,
    r !! " TIPO_RED" = Some t -> t <> Str "MOVIL" ->
    optimize_patterns (l1 ++ r :: l2) = optimize_patterns (l1 ++ l2).
Proof.
  intros l1 r l2 t Ht Hne. unfold optimize_patterns.
  replace (mobile_patterns (l1 ++ r :: l2)) with (mobile_patterns (l1 ++ l2)); [done|].
  rewrite !mobile_patterns_app. f_equal.
  cbn [mobile_patterns]. unfold getitem. rewrite Ht. cbn.
  destruct t as [t|]; [|done]. cbn [field_eq].
  unfold PyStr.eqb. destruct (String.eqb_spec t "MOVIL") as [->|_]; done.
Qed.

Lemma other_network_rows_ignored_witness :
  optimize_patterns ([out_of_order_row] ++ fixed_row :: [non_numeric_row])
  = optimize_patterns ([out_of_order_row] ++ [non_numeric_row]).
Proof.
  apply (other_network_rows_ignored [out_of_order_row] fixed_row [non_numeric_row]
           (Str "FIJO")).
  - vm_compute. reflexivity.
  - discriminate.
Defined.

(** X6.  The filter on the network type reads the field of every record: a
    record without the field [" TIPO_RED"] makes the whole batch fail with an
    exception, also when no record of the batch is mobile. *)
Theorem missing_network_type_fails_batch :
  forall batch r,
    r ∈ batch -> r !! " TIPO_RED" = None ->
    exists e, optimize_patterns batch = Raise e.
Proof.
  intros batch r Hin Hr.
  assert (exists e, mobile_patterns batch = Raise e) as (e & He).
  { induction batch as [|p batch IH]; [by apply elem_of_nil in Hin|].
    cbn [mobile_patterns]. unfold getitem at 1.
    destruct (p !! " TIPO_RED") as [t|] eqn:Et; [|by eexists]. cbn.
    apply elem_of_cons in Hin as [->|Hin]; [congruence|].
    destruct (IH Hin) as (e & He).
    destruct (field_eq t "MOVIL"); [|by eexists].
    destruct (Pattern_init_row p) as [x|e'|] eqn:Ep;
      [|by eexists|by apply Pattern_init_row_not_Fuel in Ep].
    cbn. rewrite He. by eexists. }
  exists e. unfold optimize_patterns. by rewrite He.
Qed.

Lemma missing_network_type_fails_batch_witness :
  exists e, optimize_patterns [fixed_row; ∅] = Raise e.
Proof.
  apply (missing_network_type_fails_batch [fixed_row; ∅] ∅).
  - right; left.
  - reflexivity.
Defined.

(** ** Trimming keeps the block of numbers *)

Section blocks.

Import Numbers.

Lemma all_digits_repeat_nine k : all_digits (PyStr.repeat_char "9" k) = true.
Proof. induction k as [|k IH]; [done|]. simpl. by rewrite IH. Qed.

Lemma value_repeat_nine k :
  value (PyStr.repeat_char "9" k) = 10 ^ Z.of_nat k - 1.
Proof.
  induction k as [|k IH]; [done|]. cbn [PyStr.repeat_char].
  rewrite value_cons, IH, repeat_char_length.
  change (PyStr.digit_val "9") with 9.
  rewrite Nat2Z.inj_succ, Z.pow_succ_r by lia. lia.
Qed.

(** The arithmetic of trimming: with [k] trailing digits dropped, a number
    [t * 10^k + u] lies between [s' * 10^k] and [e' * 10^k + 10^k - 1]
    exactly when [t] lies between [s'] and [e']. *)
Lemma block_arith P s' e' t u :
  0 <= u < P ->
  s' * P <= t * P + u <= e' * P + (P - 1) <-> s' <= t <= e'.
Proof. intros Hu. split; intros [H1 H2]; split; nia. Qed.

Lemma strip_prefix_Some p n r : strip_prefix p n = Some r <-> n = p +:+ r.
Proof.
  revert n. induction p as [|c p IH]; intros n.
  - cbn. rewrite str_app_nil_l. split; congruence.
  - rewrite str_app_cons. destruct n as [|d n]; cbn [strip_prefix]; [done|].
    destruct (Ascii.eqb_spec c d) as [->|Hne].
    + rewrite IH. split; congruence.
    + split; [done|]. intros [= ? _]. congruence.
Qed.

Lemma str_split r d :
  (d <= String.length r)%nat ->
  exists t u, r = t +:+ u /\ String.length t = d.
Proof.
  revert r. induction d as [|d IH]; intros r Hd; [by exists "", r|].
  destruct r as [|c r]; [simpl in Hd; lia|]. simpl in Hd.
  destruct (IH r ltac:(lia)) as (t & u & -> & Ht).
  exists (String c t), u. split; [done|]. simpl. by rewrite Ht.
Qed.

Lemma matches_simple_iff q n :
  matches (simple q) n = true <->
  exists r, n = q +:+ r /\ String.length r = fill (10 - PyStr.len q)
            /\ all_digits r = true.
Proof.
  unfold matches. cbn [start prefix summary simple PyStr.truthy]. split.
  - destruct (strip_prefix q n) as [r|] eqn:E; [|done].
    intros [Hl Hd]%andb_true_iff. apply Nat.eqb_eq in Hl.
    exists r. by apply strip_prefix_Some in E.
  - intros (r & Hn & Hl & Hd). apply strip_prefix_Some in Hn.
    rewrite Hn, Hl, Hd. by rewrite Nat.eqb_refl.
Qed.

Lemma covers_true_iff l n :
  covers l n = true <-> exists p, p ∈ l /\ matches p n = true.
Proof.
  unfold covers. rewrite existsb_exists. by setoid_rewrite list_elem_of_In.
Qed.

(** The members of the expansion of a range pattern *)
Lemma expand_range_elem self :
  start self <> "" ->
  all_digits (start self) = true -> all_digits (end_ self) = true ->
  String.length (start self) = String.length (end_ self) ->
  exists out,
    expand self = Ok out
    /\ forall q,
        q ∈ out <->
        exists s, q = simple (prefix self +:+ s)
                  /\ all_digits s = true
                  /\ String.length s = String.length (start self)
                  /\ value (start self) <= value s <= value (end_ self).
Proof.
  intros Hne Hs He Hlen. eexists. split; [by apply expand_range|].
  set (d := String.length (start self)).
  assert (1 <= d)%nat as Hd.
  { subst d. destruct (start self); [done|simpl; lia]. }
  pose proof (value_range _ Hs) as Rs. pose proof (value_range _ He) as Re.
  rewrite <- Hlen in Re. fold d in Rs, Re.
  intros q. rewrite list_elem_of_fmap. split.
  - intros (i & -> & Hi%elem_of_seqZ).
    destruct (format_0d_spec i d Hd ltac:(lia)) as (Ha & Hl & Hv).
    exists (PyStr.format_0d i d). rewrite Hv. repeat split; [done..|lia|lia].
  - intros (s & -> & Ha & Hl & Hv). exists (value s).
    pose proof (value_range _ Ha) as Rv. rewrite Hl in Rv.
    destruct (format_0d_spec (value s) d Hd ltac:(lia)) as (Ha' & Hl' & Hv').
    split; [|apply elem_of_seqZ; lia].
    do 2 f_equal. apply value_inj; congruence.
Qed.

(** What the constructor makes of a block with bounds of equal width *)
Lemma Pattern_init_block p s e :
  all_digits s = true -> all_digits e = true ->
  String.length s = String.length e ->
  exists k s' e',
    Pattern_init p s e = Ok (mkPattern p s' e' "")
    /\ (String.length s' + k = String.length s)%nat
    /\ String.length s' = String.length e'
    /\ all_digits s' = true /\ all_digits e' = true
    /\ value s = value s' * 10 ^ Z.of_nat k
    /\ value e = value e' * 10 ^ Z.of_nat k + (10 ^ Z.of_nat k - 1).
Proof.
  intros Hs He Hlen.
  destruct (trim_equal_width s e Hlen) as (k & s' & e' & Ht & Es & Ee & _).
  exists k, s', e'. unfold Pattern_init. rewrite Ht. split; [done|].
  subst s e. rewrite all_digits_app in Hs, He.
  apply andb_true_iff in Hs as [Hs _]. apply andb_true_iff in He as [He _].
  rewrite !str_length_app, !repeat_char_length in *.
  rewrite !value_app, !repeat_char_length, value_repeat_zero, value_repeat_nine.
  split; [lia|]. split; [lia|]. split; [done|]. split; [done|]. split; lia.
Qed.

End blocks.

Section block_coverage.

Import Numbers.

(** The numbers that the expansion of a constructed block matches *)
Lemma block_covers p s e :
  all_digits s = true -> all_digits e = true ->
  String.length s = String.length e ->
  PyStr.len p + PyStr.len s <= 10 ->
  exists pat out,
    Pattern_init p s e = Ok pat /\ expand pat = Ok out
    /\ forall n,
        covers out n = true <->
        exists t rest,
          n = p +:+ t +:+ rest
          /\ all_digits t = true /\ String.length t = String.length s
          /\ value s <= value t <= value e
          /\ all_digits rest = true /\ String.length n = 10%nat.
Proof.
  intros Hs He Hlen Hfit. unfold PyStr.len in Hfit.
  destruct (Pattern_init_block p s e Hs He Hlen)
    as (k & s' & e' & Hinit & Hk & Hse & Hs' & He' & Vs & Ve).
  exists (mkPattern p s' e' ""). destruct (decide (s' = "")) as [->|Hne].
  - (* the block is trimmed completely *)
    destruct e'; [|done]. simpl in Hk.
    exists [simple p]. split; [done|]. split; [done|].
    intros n. unfold covers. cbn [existsb]. rewrite orb_false_r, matches_simple_iff.
    change (value "") with 0 in *. unfold fill, PyStr.len. split.
    + intros (r & -> & Hl & Hd).
      destruct (str_split r k ltac:(lia)) as (t & rest & -> & Ht).
      rewrite all_digits_app in Hd. apply andb_true_iff in Hd as [Hdt Hdr].
      exists t, rest. pose proof (value_range t Hdt) as Rt. rewrite Ht in Rt.
      rewrite !str_length_app in *. repeat split; [done|lia|lia|lia|done|lia].
    + intros (t & rest & -> & Hdt & Ht & _ & Hdr & Hn).
      exists (t +:+ rest). rewrite !str_length_app in *.
      split; [done|]. split; [lia|]. by rewrite all_digits_app, Hdt, Hdr.
  - (* some digits of the bounds remain *)
    destruct (expand_range_elem (mkPattern p s' e' "")) as (out & Hexp & Hout);
      [done..|].
    cbn [prefix start end_] in Hout.
    exists out. split; [done|]. split; [done|].
    intros n. rewrite covers_true_iff. split.
    + intros (q & (t' & -> & Hdt' & Ht' & Vt')%Hout & Hm).
      apply matches_simple_iff in Hm as (r' & -> & Hl & Hd).
      unfold fill, PyStr.len in Hl. rewrite str_length_app in Hl.
      destruct (str_split r' k ltac:(lia)) as (u & rest & -> & Hu).
      rewrite all_digits_app in Hd. apply andb_true_iff in Hd as [Hdu Hdr].
      exists (t' +:+ u), rest.
      pose proof (value_range u Hdu) as Ru. rewrite Hu in Ru.
      rewrite !str_length_app in *. rewrite value_app, Hu, Vs, Ve.
      split; [by rewrite !str_app_assoc|]. split; [by rewrite all_digits_app, Hdt', Hdu|].
      split; [lia|]. split; [by apply block_arith|]. split; [done|lia].
    + intros (t & rest & -> & Hdt & Ht & Vt & Hdr & Hn).
      destruct (str_split t (String.length s') ltac:(lia)) as (t' & u & -> & Ht').
      rewrite all_digits_app in Hdt. apply andb_true_iff in Hdt as [Hdt' Hdu].
      rewrite !str_length_app in *.
      pose proof (value_range u Hdu) as Ru.
      assert (String.length u = k) as Hu by lia. rewrite Hu in Ru.
      rewrite value_app, Hu, Vs, Ve in Vt. apply block_arith in Vt; [|done].
      exists (simple (p +:+ t')). split; [apply Hout; by exists t'|].
      apply matches_simple_iff. exists (u +:+ rest).
      split; [by rewrite !str_app_assoc|].
      split; [|by rewrite all_digits_app, Hdu, Hdr].
      unfold fill, PyStr.len. rewrite !str_length_app. lia.
Qed.

End block_coverage.

(** X7.  Trimming keeps the block.  For bounds [s] and [e] of digits and of
    equal width the constructor succeeds and drops some number [k] of
    trailing digits from both; a number whose last [k] digits are [u] and
    whose leading digits are [t] lies between [s] and [e] exactly when [t]
    lies between the trimmed bounds. *)
Theorem trim_keeps_block :
  forall p s e,
    Numbers.all_digits s = true -> Numbers.all_digits e = true ->
    String.length s = String.length e ->
    exists k pat,
      Pattern_init p s e = Ok pat
      /\ prefix pat = p /\ summary pat = ""
      /\ (String.length (start pat) + k = String.length s)%nat
      /\ (String.length (end_ pat) + k = String.length e)%nat
      /\ forall t u,
          Numbers.all_digits u = true -> String.length u = k ->
          (Numbers.value s <= Numbers.value (t +:+ u) <= Numbers.value e
           <-> Numbers.value (start pat) <= Numbers.value t <= Numbers.value (end_ pat)).
Proof.
  intros p s e Hs He Hlen.
  destruct (Pattern_init_block p s e Hs He Hlen)
    as (k & s' & e' & Hinit & Hk & Hse & Hs' & He' & Vs & Ve).
  exists k, (mkPattern p s' e' ""). cbn [prefix summary start end_].
  split; [done|]. split; [done|]. split; [done|]. split; [lia|]. split; [lia|].
  intros t u Hdu Hu. pose proof (value_range u Hdu) as Ru. rewrite Hu in Ru.
  rewrite value_app, Hu, Vs, Ve. by apply block_arith.
Qed.

Lemma trim_keeps_block_witness :
  exists k pat,
    Pattern_init "551234" "0100" "0399" = Ok pat
    /\ prefix pat = "551234" /\ summary pat = ""
    /\ (String.length (start pat) + k = String.length "0100")%nat
    /\ (String.length (end_ pat) + k = String.length "0399")%nat
    /\ forall t u,
        Numbers.all_digits u = true -> String.length u = k ->
        (Numbers.value "0100" <= Numbers.value (t +:+ u) <= Numbers.value "0399"
         <-> Numbers.value (start pat) <= Numbers.value t <= Numbers.value (end_ pat)).
Proof.
  apply (trim_keeps_block "551234" "0100" "0399"); reflexivity.
Defined.

(** X8.  Constructor and expander together: for a block with bounds [s] and
    [e] of digits and of equal width, after a prefix that leaves room for
    them in ten digits, the constructed pattern expands without error and its
    expansion matches exactly the ten-digit numbers that consist of the
    prefix, a string of digits of the width of the bounds whose value lies
    between [s] and [e], and further digits. *)
Theorem block_expansion_covers :
  forall p s e,
    Numbers.all_digits s = true -> Numbers.all_digits e = true ->
    String.length s = String.length e ->
    PyStr.len p + PyStr.len s <= 10 ->
    exists pat out,
      Pattern_init p s e = Ok pat /\ expand pat = Ok out
      /\ forall n,
          Numbers.covers out n = true <->
          exists t rest,
            n = p +:+ t +:+ rest
            /\ Numbers.all_digits t = true /\ String.length t = String.length s
            /\ Numbers.value s <= Numbers.value t <= Numbers.value e
            /\ Numbers.all_digits rest = true /\ String.length n = 10%nat.
Proof. exact block_covers. Qed.

Lemma block_expansion_covers_witness :
  exists pat out,
    Pattern_init "551234" "0100" "0399" = Ok pat /\ expand pat = Ok out
    /\ forall n,
        Numbers.covers out n = true <->
        exists t rest,
          n = "551234" +:+ t +:+ rest
          /\ Numbers.all_digits t = true /\ String.length t = String.length "0100"
          /\ Numbers.value "0100" <= Numbers.value t <= Numbers.value "0399"
          /\ Numbers.all_digits rest = true /\ String.length n = 10%nat.
Proof.
  apply (block_expansion_covers "551234" "0100" "0399"); first [reflexivity | by vm_compute].
Defined.

(** ** From a record of the dataset to its patterns *)

Section rows_to_patterns.

Import Numbers.

Lemma mapM_Forall {A B} (f : A -> result B) (P : B -> Prop) l out :
  (forall x y, f x = Ok y -> P y) -> mapM f l = Ok out -> Forall P out.
Proof.
  intros Hf. revert out. induction l as [|x l IH]; intros out.
  - intros [= <-]. constructor.
  - cbn [mapM]. destruct (f x) as [y| |] eqn:Ex; [|done..]. cbn.
    destruct (mapM f l) as [ys| |]; [|done..]. cbn. intros [= <-].
    constructor; [by eapply Hf|by apply IH].
Qed.

Lemma expand_no_range p out :
  expand p = Ok out -> Forall (fun q => start q = "") out.
Proof.
  unfold expand. destruct (PyStr.truthy (start p)) eqn:Ht; cbn [negb].
  - destruct (PyStr.int (start p)) as [a| |]; [|done..]. cbn.
    destruct (PyStr.int (end_ p)) as [b| |]; [|done..]. cbn.
    apply mapM_Forall. intros i q E. cbn in E. by injection E as <-.
  - intros [= <-]. apply truthy_false in Ht. by constructor.
Qed.

Lemma expand_patterns_no_range l out :
  expand_patterns l = Ok out -> Forall (fun q => start q = "") out.
Proof.
  revert out. induction l as [|p l IH]; intros out; [by intros [= <-]|].
  cbn [expand_patterns]. destruct (expand p) as [ps| |] eqn:Ep; [|done..]. cbn.
  destruct (expand_patterns l) as [qs| |]; [|done..]. cbn. intros [= <-].
  apply Forall_app. split; [by eapply expand_no_range|by apply IH].
Qed.

Lemma eject_pattern_start pfx sm : start (eject_pattern pfx sm) = "".
Proof.
  unfold eject_pattern. destruct (PyStr.len sm =? 1); [done|].
  by destruct (PyStr.len sm =? 10).
Qed.

Lemma step_no_range L st p st' out :
  summarize_step L st p = Ok (st', out) -> start p = "" ->
  Forall (fun q => start q = "") out.
Proof.
  intros Hstep Hp. unfold summarize_step in Hstep.
  destruct (negb (PyStr.len (prefix p) =? L)).
  { injection Hstep as <- <-. by constructor. }
  destruct (PyStr.truthy (summary p)).
  { injection Hstep as <- <-. by constructor. }
  destruct st as [[pfx sm]|].
  - destruct (negb (PyStr.eqb (PyStr.drop_last (prefix p)) pfx)).
    + rewrite eject_Ok in Hstep. cbn in Hstep.
      destruct (PyStr.last_char (prefix p)); [|done].
      injection Hstep as <- <-. constructor; [apply eject_pattern_start|done].
    + destruct (PyStr.last_char (prefix p)); [|done]. by injection Hstep as <- <-.
  - destruct (PyStr.last_char (prefix p)); [|done]. by injection Hstep as <- <-.
Qed.

Lemma run_no_range L st l st' out :
  summarize_run L st l = Ok (st', out) -> Forall (fun q => start q = "") l ->
  Forall (fun q => start q = "") out.
Proof.
  revert st st' out. induction l as [|p l IH]; intros st st' out.
  - by intros [= <- <-].
  - rewrite run_cons. intros Hrun [Hp Hl]%Forall_cons.
    destruct (summarize_step L st p) as [[s1 o1]| |] eqn:Hstep; [|done..]. cbn in Hrun.
    destruct (summarize_run L s1 l) as [[s2 o2]| |] eqn:Hrest; [|done..]. cbn in Hrun.
    injection Hrun as <- <-. apply Forall_app. split.
    + by eapply step_no_range.
    + by eapply IH.
Qed.

Lemma summarize_no_range i L out :
  summarize i L = Ok out -> Forall (fun q => start q = "") i ->
  Forall (fun q => start q = "") out.
Proof.
  unfold summarize. rewrite marker_Ok. cbn. intros Hsum Hi.
  destruct (summarize_run L None (i ++ [marker_pattern L])) as [[s o]| |] eqn:Hrun;
    [|done..].
  cbn in Hsum. injection Hsum as <-. eapply run_no_range; [done|].
  apply Forall_app. split; [done|]. by constructor.
Qed.

Lemma sort_Forall (P : Pattern -> Prop) l : Forall P l -> Forall P (sort l).
Proof. by rewrite sort_Permutation. Qed.

Lemma summarize_rounds_no_range lens l out :
  summarize_rounds lens l = Ok out -> Forall (fun q => start q = "") l ->
  Forall (fun q => start q = "") out.
Proof.
  revert l out. induction lens as [|L lens IH]; intros l out.
  - by intros [= <-].
  - cbn [summarize_rounds]. intros Hr Hl.
    destruct (summarize (sort l) L) as [ps| |] eqn:Hs; [|done..]. cbn in Hr.
    eapply IH; [done|]. eapply summarize_no_range; [done|]. by apply sort_Forall.
Qed.

End rows_to_patterns.

(** X9.  From a record to its patterns.  For a record with the fields NIR
    and SERIE and with block bounds that are non-empty strings of digits of
    value at most 9999, where NIR and SERIE leave room for four more digits,
    the constructor succeeds, the pattern expands without error, and the
    expansion matches exactly the ten-digit numbers that consist of NIR,
    SERIE, four digits whose value lies between the two bounds, and further
    digits. *)
Theorem row_expansion_covers_block :
  forall r nir serie ini fin,
    r !! " NIR" = Some (Str nir) -> r !! " SERIE" = Some (Str serie) ->
    r !! " NUMERACION_INICIAL" = Some (Str ini) ->
    r !! " NUMERACION_FINAL" = Some (Str fin) ->
    Numbers.all_digits ini = true -> ini <> "" -> Numbers.value ini <= 9999 ->
    Numbers.all_digits fin = true -> fin <> "" -> Numbers.value fin <= 9999 ->
    PyStr.len nir + PyStr.len serie + 4 <= 10 ->
    exists pat out,
      Pattern_init_row r = Ok pat /\ expand pat = Ok out
      /\ forall n,
          Numbers.covers out n = true <->
          exists t rest,
            n = nir +:+ serie +:+ t +:+ rest
            /\ Numbers.all_digits t = true /\ String.length t = 4%nat
            /\ Numbers.value ini <= Numbers.value t <= Numbers.value fin
            /\ Numbers.all_digits rest = true /\ String.length n = 10%nat.
Proof.
  intros r nir serie ini fin E1 E2 E3 E4 Hi Hin Vi Hf Hfn Vf Hfit.
  pose proof (value_range ini Hi) as [Ri _]. pose proof (value_range fin Hf) as [Rf _].
  destruct (format_0d_spec (Numbers.value ini) 4 ltac:(lia) ltac:(simpl; lia))
    as (Da & La & Va).
  destruct (format_0d_spec (Numbers.value fin) 4 ltac:(lia) ltac:(simpl; lia))
    as (Db & Lb & Vb).
  rewrite (Pattern_init_row_fields r (Str nir) (Str serie) ini fin _ _ E1 E2 E3 E4
             (int_digits ini Hi Hin) (int_digits fin Hf Hfn)).
  cbn [field_str].
  destruct (block_covers (nir +:+ serie) _ _ Da Db ltac:(congruence))
    as (pat & out & Hinit & Hexp & Hcov).
  { unfold PyStr.len in *. rewrite str_length_app, La. lia. }
  exists pat, out. split; [done|]. split; [done|].
  intros n. rewrite Hcov, La, Va, Vb. by setoid_rewrite str_app_assoc.
Qed.

Lemma row_expansion_covers_block_witness :
  exists pat out,
    Pattern_init_row block_row = Ok pat /\ expand pat = Ok out
    /\ forall n,
        Numbers.covers out n = true <->
        exists t rest,
          n = "55" +:+ "1234" +:+ t +:+ rest
          /\ Numbers.all_digits t = true /\ String.length t = 4%nat
          /\ Numbers.value "0" <= Numbers.value t <= Numbers.value "1234"
          /\ Numbers.all_digits rest = true /\ String.length n = 10%nat.
Proof.
  apply (row_expansion_covers_block block_row "55" "1234" "0" "1234");
    first [by vm_compute | discriminate].
Defined.

(** X10.  [optimize_patterns] never returns a range pattern: whenever it
    ends without error, every pattern of its result has an empty [start],
    so that each of them has a rendering for the switch. *)
Theorem optimize_patterns_no_range :
  forall batch out,
    optimize_patterns batch = Ok out -> Forall (fun q => start q = "") out.
Proof.
  intros batch out. unfold optimize_patterns.
  generalize [10; 9; 8; 7; 6; 5; 4; 3]. intros lens.
  destruct (mobile_patterns batch) as [ps| |]; [|done..]. cbn.
  destruct (expand_patterns (sort ps)) as [qs| |] eqn:He; [|done..]. cbn.
  intros Hr. eapply summarize_rounds_no_range; [done|].
  by eapply expand_patterns_no_range.
Qed.

Lemma optimize_patterns_no_range_witness :
  Forall (fun q => start q = "")
    [simple "5512340"; mkPattern "5512341" "" "" "01";
     mkPattern "55123412" "" "" "012"; mkPattern "551234123" "" "" "01234"].
Proof.
  apply (optimize_patterns_no_range [block_row]). by vm_compute.
Defined.

(** ** The count of covered numbers *)

Section counting.

Import Numbers.

Lemma total_covered_from a l :
  foldl (fun acc p => plus acc (covered_numbers p)) Float l = Float
  /\ forall z,
       foldl (fun acc p => plus acc (covered_numbers p)) (Int a) l = Int z
       <-> Forall counted l /\ z = a + sum_Z l.
Proof.
  revert a. induction l as [|p l IH]; intros a.
  - split; [done|]. intros z. cbn. split.
    + intros [= <-]. split; [constructor|lia].
    + intros [_ ->]. f_equal. lia.
  - split; [apply (IH 0)|]. intros z. cbn [foldl sum_Z foldr].
    destruct (covered_numbers p) as [c|] eqn:Ec; cbn [plus].
    + assert (c = covered_Z p) as ->.
      { unfold covered_numbers, covered_Z, pow10, times in *.
        destruct (PyStr.truthy (summary p));
          [destruct (9 - PyStr.len (prefix p) <? 0)
          |destruct (10 - PyStr.len (prefix p) <? 0)]; congruence. }
      rewrite (proj2 (IH _)). rewrite Forall_cons. unfold counted at 2.
      rewrite Ec. fold (sum_Z l). intuition lia.
    + rewrite (proj1 (IH 0)). split; [done|].
      intros [[Hp _]%Forall_cons _]. unfold counted in Hp. congruence.
Qed.

Lemma total_covered_Int l z :
  total_covered l = Int z <-> Forall counted l /\ z = sum_Z l.
Proof. unfold total_covered. by rewrite (proj2 (total_covered_from 0 l)). Qed.

Lemma sum_Z_app l1 l2 : sum_Z (l1 ++ l2) = sum_Z l1 + sum_Z l2.
Proof. induction l1 as [|p l1 IH]; cbn; [done|]. fold (sum_Z (l1 ++ l2)) (sum_Z l1). lia. Qed.

Variable L : Z.
Hypothesis HL : 2 <= L <= 10.

Lemma groupable_counted p :
  groupable L p = true -> counted p /\ covered_Z p = 10 ^ (10 - L).
Proof.
  intros [Hlen Hsm]%groupable_iff. unfold counted, covered_numbers, covered_Z, pow10.
  rewrite Hsm, Hlen. cbn [PyStr.truthy]. by destruct (Z.ltb_spec (10 - L) 0); [lia|].
Qed.

Lemma eject_counted gp sm :
  PyStr.len gp = L - 1 -> sm <> "" ->
  counted (eject_pattern gp sm)
  /\ covered_Z (eject_pattern gp sm) = PyStr.len sm * 10 ^ (10 - L).
Proof.
  intros Hlen Hne. unfold eject_pattern.
  destruct (Z.eqb_spec (PyStr.len sm) 1) as [H1|H1].
  - unfold counted, covered_numbers, covered_Z, pow10. cbn [summary prefix simple PyStr.truthy].
    destruct sm as [|c [|c' sm]]; [done| |unfold PyStr.len in H1; simpl in H1; lia].
    rewrite len_snoc, Hlen, H1. replace (10 - (L - 1 + 1)) with (10 - L) by lia.
    destruct (Z.ltb_spec (10 - L) 0); [lia|]. split; [done|lia].
  - destruct (Z.eqb_spec (PyStr.len sm) 10) as [H10|H10].
    + unfold counted, covered_numbers, covered_Z, pow10. cbn [summary prefix simple PyStr.truthy].
      rewrite Hlen, H10. destruct (Z.ltb_spec (10 - (L - 1)) 0); [lia|]. split; [done|].
      replace (10 - (L - 1)) with (Z.succ (10 - L)) by lia. rewrite Z.pow_succ_r by lia. lia.
    + unfold counted, covered_numbers, covered_Z, pow10, times. cbn [summary prefix].
      apply truthy_true in Hne as ->. rewrite Hlen.
      replace (9 - (L - 1)) with (10 - L) by lia.
      by destruct (Z.ltb_spec (10 - L) 0); [lia|].
Qed.

Lemma flush_counted st :
  digit_group L st -> Forall counted (flush st) /\ sum_Z (flush st) = pending_Z L st.
Proof.
  destruct st as [[gp sm]|]; [|by split; [constructor|]].
  intros (Hlen & _ & Hne & _). destruct (eject_counted gp sm Hlen Hne) as [Hc Hz].
  split; [by repeat constructor|]. cbn. rewrite Hz. lia.
Qed.

Lemma run_counted l st :
  digit_group L st -> Forall plain l -> Forall counted l ->
  exists st' out,
    summarize_run L st l = Ok (st', out)
    /\ digit_group L st' /\ Forall counted out
    /\ sum_Z out + pending_Z L st' = pending_Z L st + sum_Z l.
Proof.
  assert (1 <= L) as HL1 by lia.
  revert st. induction l as [|p l IH]; intros st Hst Hpl Hcl.
  - exists st, []. cbn. repeat split; [done|constructor|lia].
  - apply Forall_cons in Hpl as [Hp Hpl]. apply Forall_cons in Hcl as [Hcp Hcl].
    rewrite run_cons. cbn [sum_Z foldr]. fold (sum_Z l).
    destruct (groupable L p) eqn:Hg.
    2:{ rewrite step_pass by done. cbn.
        destruct (IH st Hst Hpl Hcl) as (st' & out & -> & Hst' & Hco & Hsum).
        cbn. exists st', (p :: out). split; [done|]. split; [done|].
        split; [by constructor|]. cbn [sum_Z foldr]. fold (sum_Z out). lia. }
    destruct (groupable_last L HL1 p Hg) as (c & Hc & Hpc).
    destruct (groupable_digit_group L p c Hp Hg Hc) as [Hnew Hcd].
    destruct (groupable_counted p Hg) as [_ Hzp].
    assert (exists out1 sm1,
               summarize_step L st p = Ok (Some (PyStr.drop_last (prefix p), sm1), out1)
               /\ digit_group L (Some (PyStr.drop_last (prefix p), sm1))
               /\ Forall counted out1
               /\ sum_Z out1 + PyStr.len sm1 * 10 ^ (10 - L)
                  = pending_Z L st + 10 ^ (10 - L)) as (out1 & sm1 & -> & Hst1 & Hco1 & Hs1).
    { destruct st as [[gp sm]|].
      - destruct (decide (gp = PyStr.drop_last (prefix p))) as [->|Hne].
        + rewrite (step_join L sm p c Hg Hc). eexists [], _. split; [done|].
          destruct Hst as (Hlen & Hgd & Hsne & Hsd).
          split; [|split; [constructor|]].
          * split; [done|]. split; [done|]. split; [by destruct sm|].
            rewrite all_digits_app, Hsd. simpl. by rewrite Hcd.
          * cbn. rewrite len_snoc. lia.
        + rewrite (step_new L _ p c Hg Hc) by done. eexists _, _. split; [done|].
          split; [done|]. destruct (flush_counted _ Hst) as [Hcf Hsf].
          split; [done|]. rewrite Hsf. change (PyStr.len (String c "")) with 1. lia.
      - rewrite (step_new L None p c Hg Hc) by done. eexists _, _. split; [done|].
        split; [done|]. split; [constructor|]. cbn.
        change (PyStr.len (String c "")) with 1. lia. }
    cbn. destruct (IH _ Hst1 Hpl Hcl) as (st' & out & -> & Hst' & Hco & Hsum).
    cbn. eexists st', _. split; [done|]. split; [done|].
    split; [by apply Forall_app|]. rewrite sum_Z_app. cbn in Hsum. lia.
Qed.

(** One pass keeps the sum of the counts. *)
Lemma summarize_counted i z :
  Forall plain i -> total_covered i = Int z ->
  exists out, summarize i L = Ok out /\ total_covered out = Int z.
Proof.
  intros Hpl [Hci ->]%total_covered_Int. assert (1 <= L) as HL1 by lia.
  destruct (run_counted i None I Hpl Hci) as (st1 & o1 & Hrun & Hst1 & Hco & Hsum).
  destruct (flush_counted _ Hst1) as [Hcf Hsf].
  assert (summarize i L = Ok (o1 ++ flush st1)) as ->.
  { destruct st1 as [[gp sm]|].
    - destruct Hst1 as (Hlen & Hgd & _).
      by rewrite (summarize_closed L HL1 i gp sm o1) by (done || lia).
    - rewrite (summarize_unfold L i None o1 Hrun).
      by rewrite (step_new L None _ "x"%char (marker_groupable L HL1) (marker_last L HL1)). }
  eexists. split; [done|]. apply total_covered_Int. split; [by apply Forall_app|].
  rewrite sum_Z_app. cbn in Hsum. lia.
Qed.

End counting.

(** X11.  A summarizer pass keeps the count of covered numbers.  For a list
    of simple and digit-set patterns of digits whose counts
    [covered_numbers] add up to the integer [z], and for a length [L] from 10
    down to 2, the pass ends without error and the counts of its output add
    up to [z] too; the list need be neither sorted nor free of
    duplicates. *)
Theorem summarize_keeps_total_covered :
  forall i L z,
    2 <= L <= 10 ->
    Forall plain i -> total_covered i = Int z ->
    exists out, summarize i L = Ok out /\ total_covered out = Int z.
Proof. intros i L z HL. by apply summarize_counted. Qed.

Lemma summarize_keeps_total_covered_witness :
  exists out,
    summarize [simple "5551"; simple "5552"; mkPattern "5553" "" "" "12"; simple "5561"] 4
      = Ok out
    /\ total_covered out = Int 3200000.
Proof.
  apply (summarize_keeps_total_covered
           [simple "5551"; simple "5552"; mkPattern "5553" "" "" "12"; simple "5561"] 4).
  - lia.
  - repeat constructor.
  - reflexivity.
Defined.

(** ** [covered_numbers] counts the matched numbers *)

Section counting_matches.

Import Numbers.

Lemma digit_strings_elem k s :
  s ∈ digit_strings k <-> all_digits s = true /\ String.length s = k.
Proof.
  revert s. induction k as [|k IH]; intros s.
  - cbn [digit_strings]. rewrite list_elem_of_singleton.
    destruct s; simpl; intuition congruence.
  - cbn [digit_strings]. rewrite list_elem_of_bind. split.
    + intros (d & (r & -> & [Hr Hl]%IH)%list_elem_of_fmap & Hd%is_digit_ten).
      cbn [all_digits String.length]. rewrite Hd, Hr, Hl. done.
    + destruct s as [|d r]; [by intros [_ ?]|]. cbn [all_digits String.length].
      intros [[Hd Hr]%andb_true_iff [= Hl]]. exists d.
      split; [|by apply is_digit_ten]. apply list_elem_of_fmap. exists r.
      split; [done|]. by apply IH.
Qed.

Lemma digit_strings_NoDup k : NoDup (digit_strings k).
Proof.
  induction k as [|k IH]; [apply NoDup_singleton|]. cbn [digit_strings].
  apply NoDup_bind.
  - intros d1 d2 s _ _ (r1 & -> & _)%list_elem_of_fmap (r2 & [= -> _] & _)%list_elem_of_fmap.
    done.
  - intros d _. apply NoDup_fmap_2_strong; [|done]. by intros r1 r2 _ _ [= ->].
  - apply (bool_decide_unpack _). by vm_compute.
Qed.

Lemma length_bind_const {A B} (f : A -> list B) (l : list A) c :
  (forall x, x ∈ l -> length (f x) = c) -> length (l ≫= f) = (length l * c)%nat.
Proof.
  induction l as [|x l IH]; intros H; [done|].
  rewrite bind_cons, length_app, (H x) by left. cbn [length].
  rewrite IH; [lia|]. intros y Hy. apply H. by right.
Qed.

Lemma digit_strings_length k :
  Z.of_nat (length (digit_strings k)) = 10 ^ Z.of_nat k.
Proof.
  induction k as [|k IH]; [done|]. cbn [digit_strings].
  rewrite (length_bind_const _ _ (length (digit_strings k)))
    by (intros; apply length_fmap).
  change (length ten_digits) with 10%nat.
  rewrite Nat2Z.inj_mul, IH, (Nat2Z.inj_succ k), Z.pow_succ_r by lia. lia.
Qed.

Lemma matches_digit_set_iff gp sm n :
  sm <> "" ->
  matches (mkPattern gp "" "" sm) n = true <->
  exists d r, n = gp +:+ String d r /\ mem d sm = true
              /\ String.length r = fill (9 - PyStr.len gp) /\ all_digits r = true.
Proof.
  intros Hne. rewrite (matches_digit_set gp sm n Hne). unfold group_matches. split.
  - destruct (strip_prefix gp n) as [[|d r]|] eqn:E; [done| |done].
    intros [[Hm Hl%Nat.eqb_eq]%andb_true_iff Hd]%andb_true_iff.
    exists d, r. by apply strip_prefix_Some in E.
  - intros (d & r & Hn%strip_prefix_Some & Hm & Hl & Hd).
    rewrite Hn, Hm, Hl, Hd. by rewrite Nat.eqb_refl.
Qed.

Lemma matches_ignores_end p n :
  matches p n = matches (mkPattern (prefix p) (start p) "" (summary p)) n.
Proof. done. Qed.

End counting_matches.

(** X12.  [covered_numbers] is the number of numbers that the pattern
    matches: for a pattern without range whose prefix has at most 10
    characters when it is simple, and at most 9 characters and a digit set
    without repetition when it is a digit-set pattern, the matched numbers
    form a list without duplicates whose length is [covered_numbers]. *)
Theorem covered_numbers_counts_matches :
  forall p,
    start p = "" ->
    (summary p = "" -> PyStr.len (prefix p) <= 10) ->
    (summary p <> "" ->
     PyStr.len (prefix p) <= 9 /\ NoDup (String.list_ascii_of_string (summary p))) ->
    exists l,
      NoDup l
      /\ (forall n, n ∈ l <-> Numbers.matches p n = true)
      /\ covered_numbers p = Int (Z.of_nat (length l)).
Proof.
  intros [gp s e sm] Hs Hsimple Hset. cbn [start prefix summary] in *. subst s.
  unfold covered_numbers, pow10, times. cbn [summary prefix].
  destruct (decide (sm = "")) as [->|Hne].
  - specialize (Hsimple eq_refl). cbn [PyStr.truthy].
    exists ((fun r => gp +:+ r) <$> digit_strings (Numbers.fill (10 - PyStr.len gp))).
    split; [|split].
    + apply NoDup_fmap_2_strong; [|apply digit_strings_NoDup].
      intros r1 r2 _ _ E. by apply String.app_inj in E.
    + intros n. rewrite matches_ignores_end. cbn [prefix start summary].
      change (mkPattern gp "" "" "") with (simple gp).
      rewrite matches_simple_iff, list_elem_of_fmap.
      setoid_rewrite digit_strings_elem. naive_solver.
    + destruct (Z.ltb_spec (10 - PyStr.len gp) 0); [lia|].
      rewrite length_fmap, digit_strings_length. unfold Numbers.fill.
      rewrite Z2Nat.id by lia. done.
  - destruct (Hset Hne) as [Hlen Hnd]. apply truthy_true in Hne as Ht. rewrite Ht.
    exists (d ← String.list_ascii_of_string sm;
            ((fun r => gp +:+ String d r) <$> digit_strings (Numbers.fill (9 - PyStr.len gp)))).
    split; [|split].
    + apply NoDup_bind; [| |done].
      * intros d1 d2 n _ _ (r1 & -> & _)%list_elem_of_fmap (r2 & E & _)%list_elem_of_fmap.
        apply String.app_inj in E. by injection E.
      * intros d _. apply NoDup_fmap_2_strong; [|apply digit_strings_NoDup].
        intros r1 r2 _ _ E. apply String.app_inj in E. by injection E.
    + intros n. rewrite matches_ignores_end. cbn [prefix start summary].
      rewrite (matches_digit_set_iff gp sm n Hne), list_elem_of_bind.
      setoid_rewrite list_elem_of_fmap. setoid_rewrite digit_strings_elem.
      setoid_rewrite mem_elem_of. naive_solver.
    + destruct (Z.ltb_spec (9 - PyStr.len gp) 0); [lia|].
      rewrite (length_bind_const _ _ (length (digit_strings (Numbers.fill (9 - PyStr.len gp)))))
        by (intros; apply length_fmap).
      rewrite Nat2Z.inj_mul, digit_strings_length, <- str_length_list.
      unfold Numbers.fill, PyStr.len in *. rewrite Z2Nat.id by lia. done.
Qed.

Lemma covered_numbers_counts_matches_witness :
  exists l,
    NoDup l
    /\ (forall n, n ∈ l <-> Numbers.matches (mkPattern "55123412" "" "" "012") n = true)
    /\ covered_numbers (mkPattern "55123412" "" "" "012") = Int (Z.of_nat (length l)).
Proof.
  apply (covered_numbers_counts_matches (mkPattern "55123412" "" "" "012")).
  - reflexivity.
  - discriminate.
  - intros _. split; [by vm_compute|]. apply (bool_decide_unpack _). by vm_compute.
Defined.

(** ** What the differencer computes *)

Section differencer_results.

Lemma merge_diff_cons_cons o old n new :
  merge_diff (o :: old) (n :: new) =
    if pattern_eq o n then merge_diff old new
    else if pattern_gt o n then
           ((merge_diff (o :: old) new).1, n :: (merge_diff (o :: old) new).2)
         else (o :: (merge_diff old (n :: new)).1, (merge_diff old (n :: new)).2).
Proof. done. Qed.

Lemma merge_diff_nil_l new : merge_diff [] new = ([], tail new).
Proof. by destruct new. Qed.

Lemma merge_diff_nil_r old : merge_diff old [] = (tail old, []).
Proof. by destruct old. Qed.

(** The loop computes [merge_diff]. *)
Lemma compare_loop_model fuel old new deleted added :
  (length old + length new <= fuel)%nat ->
  compare_loop fuel (next old).1 (next new).1 (next old).2 (next new).2 deleted added
  = Ok (deleted ++ (merge_diff old new).1, added ++ (merge_diff old new).2).
Proof.
  revert old new deleted added.
  induction fuel as [|fuel IH]; intros [|o old] [|n new] deleted added Hf;
    cbn [next fst snd compare_loop]; rewrite ?app_nil_r; try done;
    try (simpl in Hf; lia).
  rewrite merge_diff_cons_cons.
  destruct (pattern_eq o n); [|destruct (pattern_gt o n)].
  - apply IH. simpl in Hf. lia.
  - rewrite (IH (o :: old) new) by (simpl in *; lia).
    cbn [fst snd]. by rewrite <- app_assoc.
  - rewrite (IH old (n :: new)) by (simpl in *; lia).
    cbn [fst snd]. by rewrite <- app_assoc.
Qed.

Lemma list_compare_model old new : list_compare old new = Ok (merge_diff old new).
Proof.
  unfold list_compare. rewrite compare_loop_model by done.
  by destruct (merge_diff old new).
Qed.

Lemma filter_ext_elem (P Q : Pattern -> Prop)
    `{!forall x, Decision (P x), !forall x, Decision (Q x)} (l : list Pattern) :
  (forall x, x ∈ l -> P x <-> Q x) -> filter P l = filter Q l.
Proof.
  induction l as [|x l IH]; intros Hext; [done|].
  assert (filter P l = filter Q l) as E.
  { apply IH. intros y Hy. apply Hext. by right. }
  destruct (decide (P x)) as [Hp|Hp].
  - rewrite !filter_cons_True; [by rewrite E| |done]. apply Hext; [left|done].
  - rewrite !filter_cons_False; [done| |done]. intros Hq. apply Hp, Hext; [left|done].
Qed.

Lemma ascending_cons x l :
  ascending (x :: l) <-> (forall p, p ∈ l -> pattern_lt x p = true) /\ ascending l.
Proof. unfold ascending. by rewrite StronglySorted_cons, Forall_forall. Qed.

(** No element of an ascending list is less than its head, or the head. *)
Lemma ascending_not_below n x l :
  ascending (x :: l) -> pattern_lt n x = true -> n ∉ x :: l.
Proof.
  intros [Hx _]%ascending_cons Hn [->|Hin]%elem_of_cons.
  - by rewrite pattern_lt_irrefl in Hn.
  - pose proof (pattern_lt_trans _ _ _ Hn (Hx n Hin)) as H.
    by rewrite pattern_lt_irrefl in H.
Qed.

Lemma ascending_head_not_in_tail x l : ascending (x :: l) -> x ∉ l.
Proof.
  intros [Hx _]%ascending_cons Hin. specialize (Hx x Hin).
  by rewrite pattern_lt_irrefl in Hx.
Qed.

(** An element that is neither equal to nor above the head of an ascending
    list is not in the list. *)
Lemma ascending_not_in o n l :
  ascending (n :: l) -> o <> n -> pattern_lt n o = false -> o ∉ n :: l.
Proof.
  intros [Hn _]%ascending_cons Hne Hlt [->|Hin]%elem_of_cons; [done|].
  rewrite (Hn o Hin) in Hlt. done.
Qed.

Lemma ascending_sublist k l : k `sublist_of` l -> ascending l -> ascending k.
Proof.
  induction 1 as [|x k l Hs IH|x k l Hs IH]; [done| |].
  - rewrite !ascending_cons. intros [Hx Hl]. split; [|by apply IH].
    intros p Hp. apply Hx. by eapply elem_of_sublist.
  - rewrite ascending_cons. intros [_ Hl]. by apply IH.
Qed.

Lemma last_tail_eq (x : Pattern) (l k : list Pattern) :
  x ∉ l -> x ∉ k -> last (x :: l) = last (x :: k) -> last l = last k.
Proof.
  intros Hl Hk. rewrite !last_cons.
  destruct (last l) as [y|] eqn:El, (last k) as [z|] eqn:Ek; try done.
  - intros [= ->]. apply last_Some_elem_of in El. done.
  - intros [= <-]. apply last_Some_elem_of in Ek. done.
Qed.

Lemma last_cons_not_in (n : Pattern) (l old : list Pattern) :
  n ∉ old -> last old = last (n :: l) -> l <> [] /\ last old = last l.
Proof.
  intros Hn. rewrite last_cons. destruct (last l) as [y|] eqn:El.
  - intros ->. split; [|done]. intros ->. done.
  - intros E. apply last_Some_elem_of in E. done.
Qed.

(** The results of [merge_diff] on two ascending lists *)
Lemma merge_diff_spec old :
  forall new,
    ascending old -> ascending new ->
    (merge_diff old new).1 `sublist_of` old
    /\ (merge_diff old new).2 `sublist_of` new
    /\ (forall p, p ∈ (merge_diff old new).1 -> p ∉ new)
    /\ (forall p, p ∈ (merge_diff old new).2 -> p ∉ old)
    /\ (length (filter (.∉ new) old) + length (filter (.∉ old) new)
        <= length (merge_diff old new).1 + length (merge_diff old new).2 + 1)%nat
    /\ (last old = last new ->
        (merge_diff old new).1 = filter (.∉ new) old
        /\ (merge_diff old new).2 = filter (.∉ old) new).
Proof.
  induction old as [|o old IHo]; intros new; induction new as [|n new IHn];
    intros So Sn.
  - cbn. split; [done|]. split; [done|]. split; [by intros p ?%elem_of_nil|].
    split; [by intros p ?%elem_of_nil|]. split; [lia|done].
  - cbn [merge_diff fst snd]. split; [done|]. split; [by apply sublist_cons|].
    split; [by intros p ?%elem_of_nil|]. split; [by intros p _ ?%elem_of_nil|].
    split.
    + pose proof (length_filter (.∉ []) (n :: new)). simpl in *. lia.
    + rewrite last_cons. by destruct (last new).
  - cbn [merge_diff fst snd]. split; [by apply sublist_cons|]. split; [done|].
    split; [by intros p _ ?%elem_of_nil|]. split; [by intros p ?%elem_of_nil|].
    split.
    + pose proof (length_filter (.∉ []) (o :: old)). simpl in *. lia.
    + rewrite last_cons. by destruct (last old).
  - pose proof So as [Ho So']%ascending_cons. pose proof Sn as [Hn Sn']%ascending_cons.
    rewrite merge_diff_cons_cons.
    destruct (pattern_eq o n) eqn:Heq; [|destruct (pattern_gt o n) eqn:Hgt].
    + (* equal heads: both are skipped *)
      apply pattern_eq_iff in Heq as <-.
      destruct (IHo new So' Sn') as (Sd & Sa & Hd & Ha & Hc & Hx).
      assert (filter (.∉ o :: new) (o :: old) = filter (.∉ new) old) as Ed.
      { rewrite filter_cons_False by (intros H; apply H; left).
        apply filter_ext_elem. intros x Hx'. rewrite not_elem_of_cons.
        pose proof (pattern_lt_ne _ _ (Ho x Hx')). naive_solver. }
      assert (filter (.∉ o :: old) (o :: new) = filter (.∉ old) new) as Ea.
      { rewrite filter_cons_False by (intros H; apply H; left).
        apply filter_ext_elem. intros x Hx'. rewrite not_elem_of_cons.
        pose proof (pattern_lt_ne _ _ (Hn x Hx')). naive_solver. }
      rewrite Ed, Ea.
      split; [by apply sublist_cons|]. split; [by apply sublist_cons|].
      split; [|split; [|split; [done|]]].
      * intros p Hp. rewrite not_elem_of_cons. split; [|by apply Hd].
        pose proof (pattern_lt_ne _ _ (Ho p (elem_of_sublist _ _ _ Hp Sd))). congruence.
      * intros p Hp. rewrite not_elem_of_cons. split; [|by apply Ha].
        pose proof (pattern_lt_ne _ _ (Hn p (elem_of_sublist _ _ _ Hp Sa))). congruence.
      * intros Hl. apply Hx. eapply last_tail_eq; [| |done]; by apply ascending_head_not_in_tail.
    + (* the head of [new] is below the head of [old]: it was added *)
      rewrite pattern_gt_lt in Hgt.
      pose proof (ascending_not_below n o old So Hgt) as Hno.
      destruct (IHn So Sn') as (Sd & Sa & Hd & Ha & Hc & Hx). cbn [fst snd].
      assert (filter (.∉ n :: new) (o :: old) = filter (.∉ new) (o :: old)) as Ed.
      { apply filter_ext_elem. intros x Hx'. rewrite not_elem_of_cons.
        assert (x <> n) by (intros ->; done). naive_solver. }
      rewrite Ed, (filter_cons_True _ n new) by done.
      split; [done|]. split; [by apply sublist_skip|].
      split; [|split; [|split; [cbn [length] in *; lia|]]].
      * intros p Hp. rewrite not_elem_of_cons. split; [|by apply Hd].
        intros ->. apply Hno. by eapply elem_of_sublist.
      * intros p [->|Hp]%elem_of_cons; [done|by apply Ha].
      * intros Hl. apply last_cons_not_in in Hl as [_ Hl]; [|done].
        destruct (Hx Hl) as [-> ->]. done.
    + (* the head of [old] is not in [new]: it was deleted *)
      rewrite pattern_gt_lt in Hgt.
      assert (o <> n) as Hne by (intros E; apply pattern_eq_iff in E; congruence).
      pose proof (ascending_not_in o n new Sn Hne Hgt) as Hon.
      destruct (IHo (n :: new) So' Sn) as (Sd & Sa & Hd & Ha & Hc & Hx). cbn [fst snd].
      assert (filter (.∉ o :: old) (n :: new) = filter (.∉ old) (n :: new)) as Ea.
      { apply filter_ext_elem. intros x Hx'. rewrite not_elem_of_cons.
        assert (x <> o) by (intros ->; done). naive_solver. }
      rewrite Ea, (filter_cons_True _ o old) by done.
      split; [by apply sublist_skip|]. split; [done|].
      split; [|split; [|split; [cbn [length] in *; lia|]]].
      * intros p [->|Hp]%elem_of_cons; [done|by apply Hd].
      * intros p Hp. rewrite not_elem_of_cons. split; [|by apply Ha].
        intros ->. apply Hon. by eapply elem_of_sublist.
      * intros Hl. symmetry in Hl. apply last_cons_not_in in Hl as [_ Hl]; [|done].
        destruct (Hx (eq_sym Hl)) as [-> ->]. done.
Qed.

End differencer_results.

(** X13.  The differencer reports no change between a list and itself:
    for every list, sorted or not, both results are empty. *)
Theorem list_compare_same :
  forall l, list_compare l l = Ok ([], []).
Proof.
  intros l. rewrite list_compare_model. f_equal.
  induction l as [|p l IH]; [done|]. rewrite merge_diff_cons_cons.
  by rewrite (proj2 (pattern_eq_iff p p) eq_refl).
Qed.

(** X14.  What the differencer gets right.  For two lists that are sorted
    ascending and free of duplicates it ends without error; [deleted] is a
    subsequence of [old] and [added] a subsequence of [new], so both are
    strictly ascending; no deleted pattern is in [new] and no added pattern
    is in [old]; and of all the patterns that are in one list only, at most
    one is missing from the two results. *)
Theorem list_compare_sound :
  forall old new,
    Sorted pattern_le old -> NoDup old -> Sorted pattern_le new -> NoDup new ->
    exists deleted added,
      list_compare old new = Ok (deleted, added)
      /\ deleted `sublist_of` old /\ added `sublist_of` new
      /\ (forall p, p ∈ deleted -> p ∉ new)
      /\ (forall p, p ∈ added -> p ∉ old)
      /\ ascending deleted /\ ascending added
      /\ (length (filter (.∉ new) old) + length (filter (.∉ old) new)
          <= length deleted + length added + 1)%nat.
Proof.
  intros old new So No Sn Nn.
  pose proof (sorted_strict old So No) as Ao. pose proof (sorted_strict new Sn Nn) as An.
  destruct (merge_diff_spec old new Ao An) as (Sd & Sa & Hd & Ha & Hc & _).
  exists (merge_diff old new).1, (merge_diff old new).2.
  split; [rewrite list_compare_model; by destruct (merge_diff old new)|].
  split; [done|]. split; [done|]. split; [done|]. split; [done|].
  split; [by eapply ascending_sublist|]. split; [by eapply ascending_sublist|done].
Qed.

Lemma list_compare_sound_witness :
  exists deleted added,
    list_compare [simple "55512"; simple "55513"] [simple "55513"; simple "55514"]
      = Ok (deleted, added)
    /\ deleted `sublist_of` [simple "55512"; simple "55513"]
    /\ added `sublist_of` [simple "55513"; simple "55514"]
    /\ (forall p, p ∈ deleted -> p ∉ [simple "55513"; simple "55514"])
    /\ (forall p, p ∈ added -> p ∉ [simple "55512"; simple "55513"])
    /\ ascending deleted /\ ascending added
    /\ (length (filter (.∉ [simple "55513"; simple "55514"]) [simple "55512"; simple "55513"])
        + length (filter (.∉ [simple "55512"; simple "55513"]) [simple "55513"; simple "55514"])
        <= length deleted + length added + 1)%nat.
Proof.
  apply (list_compare_sound [simple "55512"; simple "55513"]
           [simple "55513"; simple "55514"]).
  - repeat constructor; left; reflexivity.
  - apply (bool_decide_unpack _). by vm_compute.
  - repeat constructor; left; reflexivity.
  - apply (bool_decide_unpack _). by vm_compute.
Defined.

(** X15.  When the differencer is exact.  For two lists that are sorted
    ascending and free of duplicates and that end with the same pattern (or
    are both empty), [deleted] is exactly the patterns of [old] that are not
    in [new] and [added] exactly the patterns of [new] that are not in
    [old], each in the order of its list. *)
Theorem list_compare_exact :
  forall old new,
    Sorted pattern_le old -> NoDup old -> Sorted pattern_le new -> NoDup new ->
    last old = last new ->
    list_compare old new = Ok (filter (.∉ new) old, filter (.∉ old) new).
Proof.
  intros old new So No Sn Nn Hl.
  pose proof (sorted_strict old So No) as Ao. pose proof (sorted_strict new Sn Nn) as An.
  destruct (merge_diff_spec old new Ao An) as (_ & _ & _ & _ & _ & Hx).
  destruct (Hx Hl) as [Ed Ea]. rewrite list_compare_model, <- Ed, <- Ea.
  by destruct (merge_diff old new).
Qed.

Lemma list_compare_exact_witness :
  list_compare [simple "55512"; simple "55514"] [simple "55513"; simple "55514"]
  = Ok (filter (.∉ [simple "55513"; simple "55514"]) [simple "55512"; simple "55514"],
        filter (.∉ [simple "55512"; simple "55514"]) [simple "55513"; simple "55514"]).
Proof.
  apply (list_compare_exact [simple "55512"; simple "55514"]
           [simple "55513"; simple "55514"]).
  - repeat constructor; left; reflexivity.
  - apply (bool_decide_unpack _). by vm_compute.
  - repeat constructor; left; reflexivity.
  - apply (bool_decide_unpack _). by vm_compute.
  - reflexivity.
Defined.

(** ** Provisioning *)

Lemma added_by_app a b : added_by (a ++ b) = added_by a ++ added_by b.
Proof. apply omap_app. Qed.

Lemma removed_by_app a b : removed_by (a ++ b) = removed_by a ++ removed_by b.
Proof. apply omap_app. Qed.

Lemma added_by_adds rl (l : list string) :
  added_by ((fun pattern =>
               match rl with
               | None => Add_translation pattern PARTITION_NAME
               | Some name => Add_route_pattern pattern PARTITION_NAME name
               end) <$> l) = l.
Proof. induction l as [|x l IH]; [done|]. destruct rl; cbn; f_equal; apply IH. Qed.

Lemma removed_by_adds rl (l : list string) :
  removed_by ((fun pattern =>
                 match rl with
                 | None => Add_translation pattern PARTITION_NAME
                 | Some name => Add_route_pattern pattern PARTITION_NAME name
                 end) <$> l) = [].
Proof. induction l as [|x l IH]; [done|]. destruct rl; cbn; apply IH. Qed.

Lemma added_by_removes (rl : option string) (l : list ucm_object) :
  added_by ((fun o =>
               match rl with
               | None => Remove_translation (o_uuid o)
               | Some _ => Remove_route_pattern (o_uuid o)
               end) <$> l) = [].
Proof. induction l as [|x l IH]; [done|]. destruct rl; cbn; apply IH. Qed.

Lemma removed_by_removes (rl : option string) (l : list ucm_object) :
  removed_by ((fun o =>
                 match rl with
                 | None => Remove_translation (o_uuid o)
                 | Some _ => Remove_route_pattern (o_uuid o)
                 end) <$> l) = o_uuid <$> l.
Proof. induction l as [|x l IH]; [done|]. destruct rl; cbn; f_equal; apply IH. Qed.

Lemma NoDup_fmap_eq {A B} (f : A -> B) (l : list A) x y :
  NoDup (f <$> l) -> x ∈ l -> y ∈ l -> f x = f y -> x = y.
Proof.
  induction l as [|a l IH]; [by intros _ ?%elem_of_nil|].
  rewrite fmap_cons, NoDup_cons. intros [Ha Hl] Hx Hy E.
  apply elem_of_cons in Hx as [->|Hx]; apply elem_of_cons in Hy as [->|Hy]; [done| | |by apply IH].
  - destruct Ha. rewrite E. by apply list_elem_of_fmap_2.
  - destruct Ha. rewrite <- E. by apply list_elem_of_fmap_2.
Qed.

(** What is kept of the listed objects and what is added make up the
    rendered patterns. *)
Lemma reconcile (patterns : list string) (objs : list ucm_object) s :
  NoDup (o_uuid <$> objs) ->
  s ∈ patterns <->
  s ∈ new_patterns patterns objs
  \/ exists o, o ∈ objs /\ o_pattern o = s
               /\ o_uuid o ∉ o_uuid <$> remove_objects patterns objs.
Proof.
  intros Hnd. unfold new_patterns, remove_objects. split.
  - intros Hs. destruct (decide (s ∈ o_pattern <$> objs)) as [Hin|Hout].
    + right. apply list_elem_of_fmap in Hin as (o & -> & Ho). exists o.
      split; [done|]. split; [done|]. intros (o' & E & Ho')%list_elem_of_fmap.
      apply list_elem_of_filter in Ho' as [Hp Ho'].
      assert (o = o') as <- by by eapply NoDup_fmap_eq. done.
    + left. by apply list_elem_of_filter.
  - intros [Hs|(o & Ho & <- & Hu)].
    + by apply list_elem_of_filter in Hs as [_ ?].
    + destruct (decide (o_pattern o ∈ patterns)) as [|Hout]; [done|].
      destruct Hu. apply list_elem_of_fmap_2. by apply list_elem_of_filter.
Qed.

(** The calls of a run that is not stopped *)
Lemma provision_patterns_calls axl read_only rl ps calls :
  provision_patterns axl read_only rl ps = (calls, Returned) ->
  exists reads objs,
    Forall (fun c => is_write c = false \/ c = Add_route_partition PARTITION_NAME) reads
    /\ (read_only = true -> Forall (fun c => is_write c = false) reads)
    /\ (get_route_partition axl <> None -> Forall (fun c => is_write c = false) reads)
    /\ ((assert_partition axl PARTITION_NAME read_only).2 <> None -> objs = list_objects axl)
    /\ added_by reads = [] /\ removed_by reads = []
    /\ (objs = [] \/ objs = list_objects axl)
    /\ calls = reads
         ++ (if read_only then []
             else (fun pattern =>
                     match rl with
                     | None => Add_translation pattern PARTITION_NAME
                     | Some name => Add_route_pattern pattern PARTITION_NAME name
                     end) <$> new_patterns (for_ucm <$> ps) objs)
         ++ (if read_only then []
             else (fun o =>
                     match rl with
                     | None => Remove_translation (o_uuid o)
                     | Some _ => Remove_route_pattern (o_uuid o)
                     end) <$> remove_objects (for_ucm <$> ps) objs).
Proof.
  intros Hrun.
  exists ((assert_partition axl PARTITION_NAME read_only).1
          ++ match rl with None => [] | Some name => [Get_route_list name] end
          ++ match (assert_partition axl PARTITION_NAME read_only).2, rl with
             | None, _ => []
             | Some _, None => [List_translation PARTITION_NAME]
             | Some _, Some _ => [List_route_pattern PARTITION_NAME]
             end),
    (match (assert_partition axl PARTITION_NAME read_only).2 with
     | None => []
     | Some _ => list_objects axl
     end).
  revert Hrun. unfold provision_patterns, assert_partition.
  destruct (get_route_partition axl) as [u|] eqn:Hp, read_only, rl as [name|],
    (get_route_list axl) as [l|] eqn:Hl, (add_route_partition axl) as [v|] eqn:Ha;
    cbn; intros [= <-];
    (split; [|split; [|split; [|split; [|split; [|split; [|split; [|reflexivity]]]]]]]);
    try done; try (by right); try (by left);
    try (intros _);
    repeat first [apply Forall_nil_2 | apply Forall_cons_2]; auto.
Qed.

Lemma new_patterns_in_sync (patterns : list string) objs :
  (forall s, s ∈ patterns -> s ∈ o_pattern <$> objs) -> new_patterns patterns objs = [].
Proof.
  intros H. unfold new_patterns. induction patterns as [|p l IH]; [done|].
  rewrite filter_cons. destruct (decide (p ∉ o_pattern <$> objs)) as [Hn|_].
  - destruct Hn. apply H. by left.
  - apply IH. intros s Hs. apply H. by right.
Qed.

Lemma remove_objects_in_sync (patterns : list string) objs :
  (forall s, s ∈ o_pattern <$> objs -> s ∈ patterns) -> remove_objects patterns objs = [].
Proof.
  intros H. unfold remove_objects. induction objs as [|o l IH]; [done|].
  rewrite filter_cons. destruct (decide (o_pattern o ∉ patterns)) as [Hn|_].
  - destruct Hn. apply H. rewrite fmap_cons. by left.
  - apply IH. intros s Hs. apply H. rewrite fmap_cons. by right.
Qed.

(** X16.  A read-only run changes nothing.  Whatever the switch answers,
    whether patterns are provisioned as translation patterns or as route
    patterns, and whatever the patterns are, a run with [read_only] set
    returns (it never exits) and every call it makes on the switch is a
    get or a list call: it creates no partition and adds and removes no
    pattern. *)
Theorem read_only_run_changes_nothing :
  forall axl route_list_name patterns,
    (provision_patterns axl true route_list_name patterns).2 = Returned
    /\ Forall (fun c => is_write c = false)
         (provision_patterns axl true route_list_name patterns).1.
Proof.
  intros axl rl ps. unfold provision_patterns, assert_partition.
  destruct (get_route_partition axl), rl, (get_route_list axl); cbn;
    (split; [done|]); repeat first [apply Forall_nil_2 | apply Forall_cons_2]; done.
Qed.

(** X17.  A write run reconciles the partition with the computed patterns.
    Take a run without [read_only] that returns and in which the partition
    exists or its creation returned a value, and let the listed objects have
    distinct uuids.  Then a string is the rendering of one of the given
    patterns exactly if the run adds it or a listed object carries it whose
    uuid the run does not remove.  Moreover no added pattern is carried by a
    listed object, and only uuids of listed objects are removed. *)
Theorem write_run_reconciles :
  forall axl route_list_name patterns calls,
    provision_patterns axl false route_list_name patterns = (calls, Returned) ->
    (assert_partition axl PARTITION_NAME false).2 <> None ->
    NoDup (o_uuid <$> list_objects axl) ->
    (forall s,
        s ∈ for_ucm <$> patterns <->
        s ∈ added_by calls
        \/ exists o, o ∈ list_objects axl /\ o_pattern o = s
                     /\ o_uuid o ∉ removed_by calls)
    /\ (forall s, s ∈ added_by calls -> s ∉ o_pattern <$> list_objects axl)
    /\ (forall u, u ∈ removed_by calls -> u ∈ o_uuid <$> list_objects axl).
Proof.
  intros axl rl ps calls Hrun Hpart Hnd.
  destruct (provision_patterns_calls _ _ _ _ _ Hrun)
    as (reads & objs & _ & _ & _ & Hobjs & Ha & Hr & _ & ->).
  rewrite (Hobjs Hpart). clear Hobjs.
  rewrite !added_by_app, !removed_by_app, Ha, Hr, added_by_adds, added_by_removes,
    removed_by_adds, removed_by_removes, app_nil_r. cbn [app].
  split; [intros s; by apply reconcile|]. split.
  - intros s Hs. unfold new_patterns in Hs. by apply list_elem_of_filter in Hs as [? _].
  - intros u (o & -> & Ho)%list_elem_of_fmap. apply list_elem_of_fmap_2.
    unfold remove_objects in Ho. by apply list_elem_of_filter in Ho as [_ ?].
Qed.

Lemma write_run_reconciles_witness :
  (forall s,
      s ∈ for_ucm <$> [simple "5551"; simple "5552"] <->
      s ∈ added_by [Get_route_partition "mobile"; List_translation "mobile";
                    Add_translation "\+525552XXXXXX" "mobile"; Remove_translation "u2"]
      \/ exists o, o ∈ [mkObject "\+525551XXXXXX" "u1"; mkObject "\+525553XXXXXX" "u2"]
                   /\ o_pattern o = s
                   /\ o_uuid o ∉ removed_by
                        [Get_route_partition "mobile"; List_translation "mobile";
                         Add_translation "\+525552XXXXXX" "mobile";
                         Remove_translation "u2"])
  /\ (forall s,
         s ∈ added_by [Get_route_partition "mobile"; List_translation "mobile";
                       Add_translation "\+525552XXXXXX" "mobile"; Remove_translation "u2"] ->
         s ∉ o_pattern <$> [mkObject "\+525551XXXXXX" "u1"; mkObject "\+525553XXXXXX" "u2"])
  /\ (forall u,
         u ∈ removed_by [Get_route_partition "mobile"; List_translation "mobile";
                         Add_translation "\+525552XXXXXX" "mobile"; Remove_translation "u2"] ->
         u ∈ o_uuid <$> [mkObject "\+525551XXXXXX" "u1"; mkObject "\+525553XXXXXX" "u2"]).
Proof.
  apply (write_run_reconciles
           (mkAnswers (Some "p") None None
              [mkObject "\+525551XXXXXX" "u1"; mkObject "\+525553XXXXXX" "u2"])
           None [simple "5551"; simple "5552"]).
  - by vm_compute.
  - by vm_compute.
  - apply (bool_decide_unpack _). by vm_compute.
Defined.

(** X18.  A partition that is in sync is left alone.  If the partition
    exists and the patterns carried by the listed objects are exactly the
    renderings of the given patterns, then a run, read-only or not, for
    translation patterns or for route patterns, makes no call that changes
    the switch. *)
Theorem in_sync_run_changes_nothing :
  forall axl read_only route_list_name patterns uuid,
    get_route_partition axl = Some uuid ->
    (forall s, s ∈ for_ucm <$> patterns <-> s ∈ o_pattern <$> list_objects axl) ->
    Forall (fun c => is_write c = false)
      (provision_patterns axl read_only route_list_name patterns).1.
Proof.
  intros axl ro rl ps u Hp Hsync.
  destruct (provision_patterns axl ro rl ps) as [calls e] eqn:Hrun. destruct e.
  - destruct (provision_patterns_calls _ _ _ _ _ Hrun)
      as (reads & objs & _ & _ & Hreads & Hobjs & _ & _ & _ & ->).
    rewrite Hobjs; [|unfold assert_partition; by rewrite Hp].
    rewrite new_patterns_in_sync, remove_objects_in_sync by (intros s; apply Hsync).
    cbn. destruct ro; rewrite !app_nil_r; apply Hreads; by rewrite Hp.
  - revert Hrun. unfold provision_patterns, assert_partition. rewrite Hp.
    destruct ro, rl, (get_route_list axl); cbn; intros [= <- <-];
      repeat first [apply Forall_nil_2 | apply Forall_cons_2]; done.
Qed.

Lemma in_sync_run_changes_nothing_witness :
  Forall (fun c => is_write c = false)
    (provision_patterns
       (mkAnswers (Some "p") None None
          [mkObject "\+525551XXXXXX" "u1"; mkObject "\+52555[23]XXXXXX" "u2"])
       false None [simple "5551"; mkPattern "555" "" "" "23"]).1.
Proof.
  apply (in_sync_run_changes_nothing _ false None _ "p").
  - reflexivity.
  - intros s.
    change (s ∈ ["\+525551XXXXXX"; "\+52555[23]XXXXXX"]
            <-> s ∈ ["\+525551XXXXXX"; "\+52555[23]XXXXXX"]).
    reflexivity.
Defined.

(** X19.  A missing route list stops a write run, but not before the
    partition is made.  In a run without [read_only] that names a route list
    which the switch does not have, the process exits with code 2; no
    pattern is listed, added or removed; and the partition has been created
    exactly if it did not exist. *)
Theorem missing_route_list_exits :
  forall axl name patterns,
    get_route_list axl = None ->
    (provision_patterns axl false (Some name) patterns).2 = Exited 2
    /\ added_by (provision_patterns axl false (Some name) patterns).1 = []
    /\ removed_by (provision_patterns axl false (Some name) patterns).1 = []
    /\ (List_route_pattern PARTITION_NAME
          ∉ (provision_patterns axl false (Some name) patterns).1)
    /\ (Add_route_partition PARTITION_NAME
          ∈ (provision_patterns axl false (Some name) patterns).1
        <-> get_route_partition axl = None).
Proof.
  intros axl name ps Hl. unfold provision_patterns, assert_partition. rewrite Hl.
  destruct (get_route_partition axl) as [u|]; cbn;
    (split; [done|]); (split; [done|]); (split; [done|]);
    rewrite ?elem_of_cons, ?elem_of_nil; intuition discriminate.
Qed.

Lemma missing_route_list_exits_witness :
  (provision_patterns (mkAnswers None (Some "p") None []) false (Some "RL")
     [simple "5551"]).2 = Exited 2
  /\ added_by (provision_patterns (mkAnswers None (Some "p") None []) false (Some "RL")
                 [simple "5551"]).1 = []
  /\ removed_by (provision_patterns (mkAnswers None (Some "p") None []) false (Some "RL")
                   [simple "5551"]).1 = []
  /\ (List_route_pattern PARTITION_NAME
        ∉ (provision_patterns (mkAnswers None (Some "p") None []) false (Some "RL")
             [simple "5551"]).1)
  /\ (Add_route_partition PARTITION_NAME
        ∈ (provision_patterns (mkAnswers None (Some "p") None []) false (Some "RL")
             [simple "5551"]).1
      <-> get_route_partition (mkAnswers None (Some "p") None []) = None).
Proof.
  apply (missing_route_list_exits (mkAnswers None (Some "p") None []) "RL" [simple "5551"]).
  reflexivity.
Defined.

(** ** The rendering tells patterns apart *)

Lemma digit_prefix_unique a b t1 t2 :
  a +:+ t1 = b +:+ t2 ->
  Numbers.all_digits a = true -> Numbers.all_digits b = true ->
  no_digit_head t1 -> no_digit_head t2 ->
  a = b /\ t1 = t2.
Proof.
  revert b. induction a as [|c a IH]; intros [|d b] E Ha Hb H1 H2; cbn in *.
  - done.
  - change (t1 = String d (b +:+ t2)) in E.
    subst t1. cbn in H1. apply andb_true_iff in Hb as [Hd _]. congruence.
  - change (String c (a +:+ t1) = t2) in E.
    subst t2. cbn in H2. apply andb_true_iff in Ha as [Hc _]. congruence.
  - change (String c (a +:+ t1) = String d (b +:+ t2)) in E.
    injection E as -> E. apply andb_true_iff in Ha as [_ Ha].
    apply andb_true_iff in Hb as [_ Hb].
    destruct (IH b E Ha Hb H1 H2) as [-> ->]. done.
Qed.

Lemma str_app_inv_head s a b : s +:+ a = s +:+ b -> a = b.
Proof.
  induction s as [|c s IH]; [done|].
  change (String c (s +:+ a) = String c (s +:+ b) -> a = b). intros [= E]. by apply IH.
Qed.

Lemma no_digit_head_fill k : no_digit_head (PyStr.repeat_char "X" k).
Proof. by destruct k. Qed.

Lemma fill_not_bracket k s : PyStr.repeat_char "X" k <> String "[" s.
Proof. by destruct k. Qed.

(** X20.  The rendering tells the patterns of a plan apart.  Two patterns
    without a range whose prefixes and digit sets are strings of decimal
    digits and that [for_ucm] renders as the same string have the same
    prefix and the same digit set.  So comparing rendered strings, as the
    provisioning does, never confuses two different patterns of the
    summarizer. *)
Theorem for_ucm_injective :
  forall p q,
    start p = "" -> start q = "" ->
    Numbers.all_digits (prefix p) = true -> Numbers.all_digits (prefix q) = true ->
    Numbers.all_digits (summary p) = true -> Numbers.all_digits (summary q) = true ->
    for_ucm p = for_ucm q ->
    prefix p = prefix q /\ summary p = summary q.
Proof.
  intros [gp sp ep mp] [gq sq eq mq]; cbn. intros -> -> Hgp Hgq Hmp Hmq.
  unfold for_ucm; cbn [start prefix summary PyStr.truthy].
  intros E. apply str_app_inv_head in E.
  destruct mp as [|cp mp], mq as [|cq mq]; cbn [PyStr.truthy] in E.
  - apply digit_prefix_unique in E as [-> _]; auto using no_digit_head_fill.
  - apply digit_prefix_unique in E as [_ E];
      [|done|done|apply no_digit_head_fill|reflexivity].
    by apply fill_not_bracket in E.
  - apply digit_prefix_unique in E as [_ E];
      [|done|done|reflexivity|apply no_digit_head_fill].
    symmetry in E. by apply fill_not_bracket in E.
  - apply digit_prefix_unique in E as [-> E]; [|done|done|reflexivity|reflexivity].
    apply (str_app_inv_head "[") in E.
    apply (digit_prefix_unique (String cp mp) (String cq mq)) in E as [-> _];
      [done|done|done|reflexivity|reflexivity].
Qed.

Lemma for_ucm_injective_witness :
  prefix (mkPattern "555" "" "" "23") = prefix (mkPattern "555" "" "9" "23")
  /\ summary (mkPattern "555" "" "" "23") = summary (mkPattern "555" "" "9" "23").
Proof.
  apply (for_ucm_injective (mkPattern "555" "" "" "23") (mkPattern "555" "" "9" "23"));
    reflexivity.
Defined.

(** ** The size of the result *)

Lemma summarize_length i L out :
  1 <= L -> summarize i L = Ok out -> (length out <= length i)%nat.
Proof.
  intros HL Hs.
  destruct (run_total L HL None i) as (st1 & o1 & Hrun).
  destruct (run_provenance L HL [] None i st1 o1 I Hrun) as (Hin & Hlen & _).
  rewrite app_nil_l in Hin.
  rewrite (summarize_unfold L i st1 o1 Hrun) in Hs.
  destruct (step_total L HL st1 (marker_pattern L)) as (st2 & o2 & Hstep).
  rewrite Hstep in Hs. cbn in Hs. injection Hs as <-.
  destruct (step_provenance L HL _ _ _ _ _ Hin Hstep) as (_ & Hlen2 & Hpend & _).
  specialize (Hpend (marker_groupable L ltac:(lia))).
  rewrite length_app; simpl in *; lia.
Qed.

Lemma summarize_Ok i L : 1 <= L -> exists out, summarize i L = Ok out.
Proof.
  intros HL.
  destruct (run_total L HL None i) as (st1 & o1 & Hrun).
  rewrite (summarize_unfold L i st1 o1 Hrun).
  destruct (step_total L HL st1 (marker_pattern L)) as (st2 & o2 & Hstep).
  rewrite Hstep. cbn. by eexists.
Qed.

Lemma summarize_rounds_length lens l :
  Forall (fun L => 1 <= L) lens ->
  exists out, summarize_rounds lens l = Ok out /\ (length out <= length l)%nat.
Proof.
  intros Hl. revert l. induction Hl as [|L lens HL _ IH]; intros l.
  - by exists l.
  - cbn [summarize_rounds].
    destruct (summarize_Ok (sort l) L HL) as (ps & Hps). rewrite Hps. cbn.
    destruct (IH ps) as (out & -> & Hlen). exists out. split; [done|].
    apply summarize_length in Hps; [|done].
    rewrite (Permutation_length (sort_Permutation l)) in Hps. lia.
Qed.

(** X21.  Summarizing ends and never grows the plan.  Once the mobile
    records of a batch have been turned into patterns and the sorted patterns
    have been expanded, the eight passes of [optimize_patterns] all end
    without error, and the patterns returned are at most as many as the
    expansion has. *)
Theorem optimize_patterns_shrinks :
  forall rows mobile_ps expanded,
    mobile_patterns rows = Ok mobile_ps ->
    expand_patterns (sort mobile_ps) = Ok expanded ->
    exists out,
      optimize_patterns rows = Ok out /\ (length out <= length expanded)%nat.
Proof.
  intros rows mobile_ps expanded Hm He. unfold optimize_patterns.
  assert (Forall (fun L => 1 <= L) [10; 9; 8; 7; 6; 5; 4; 3]) as Hlens
    by (repeat constructor; lia).
  revert Hlens. generalize [10; 9; 8; 7; 6; 5; 4; 3]. intros lens Hlens.
  rewrite Hm. cbn. rewrite He. cbn.
  by apply summarize_rounds_length.
Qed.

Lemma optimize_patterns_shrinks_witness :
  exists out,
    optimize_patterns
      [record (Str "MOVIL") (Str "55") (Str "1234") (Str "10") (Str "29"); fixed_row]
      = Ok out
    /\ (length out <= length [simple "551234001"; simple "551234002"])%nat.
Proof.
  apply (optimize_patterns_shrinks _ [mkPattern "551234" "001" "002" ""]); by vm_compute.
Defined.

(** ** The downloaded files *)

Section zips.

#[local] Arguments atom_matches : simpl never.

Lemma zip_key_26 f :
  String.length f = 26%nat ->
  zip_key f = String.substring 18 4 f +:+ String.substring 15 2 f +:+ String.substring 12 2 f.
Proof. intros H. unfold zip_key, slice, PyStr.len. rewrite H. reflexivity. Qed.

(** The key of a name of 26 characters that the expression matches is a
    string of eight digits. *)
Lemma zip_key_digits f :
  re_match re_zip f = true -> String.length f = 26%nat ->
  Numbers.all_digits (zip_key f) = true /\ String.length (zip_key f) = 8%nat.
Proof.
  intros Hm Hlen. rewrite (zip_key_26 f Hlen).
  do 26 (destruct f as [|? f]; [discriminate|]). destruct f; [|discriminate].
  unfold re_zip in Hm. cbn [re_match literal app] in Hm.
  rewrite !andb_true_iff in Hm.
  change (atom_matches Digit ?c) with (PyStr.is_digit c) in Hm.
  split; [|reflexivity].
  change (PyStr.is_digit a17 && (PyStr.is_digit a18 && (PyStr.is_digit a19
          && (PyStr.is_digit a20 && (PyStr.is_digit a14 && (PyStr.is_digit a15
          && (PyStr.is_digit a11 && (PyStr.is_digit a12 && true))))))) = true).
  rewrite !andb_true_iff. tauto.
Qed.

Lemma zip_key_date f :
  String.length f = 26%nat -> Numbers.value (zip_key f) = date f.
Proof.
  intros Hlen. rewrite (zip_key_26 f Hlen).
  do 26 (destruct f as [|? f]; [discriminate|]). destruct f; [|discriminate].
  unfold date. rewrite !value_app, str_length_app. cbn [String.substring String.length].
  change (10 ^ Z.of_nat (2 + 2)) with 10000. change (10 ^ Z.of_nat 2) with 100. lia.
Qed.

(** Strings of digits of one length are ordered as their values are. *)
Lemma compare_digits a b :
  Numbers.all_digits a = true -> Numbers.all_digits b = true ->
  String.length a = String.length b ->
  String.compare a b = (Numbers.value a ?= Numbers.value b).
Proof.
  revert b. induction a as [|c a IH]; intros [|d b] Ha Hb Hlen; try discriminate; [done|].
  cbn [Numbers.all_digits] in Ha, Hb.
  apply andb_true_iff in Ha as [Hc Ha]. apply andb_true_iff in Hb as [Hd Hb].
  injection Hlen as Hlen. specialize (IH b Ha Hb Hlen).
  rewrite !value_cons, <- Hlen.
  pose proof (value_range a Ha) as Ra. pose proof (value_range b Hb) as Rb.
  rewrite <- Hlen in Rb.
  pose proof (digit_val_range c Hc) as Rc. pose proof (digit_val_range d Hd) as Rd.
  assert (0 < 10 ^ Z.of_nat (String.length a)) as HP by (apply Z.pow_pos_nonneg; lia).
  cbn [String.compare]. unfold Ascii.compare.
  destruct (N.compare_spec (N_of_ascii c) (N_of_ascii d)) as [E|E|E].
  - assert (c = d) as -> by (rewrite <- (ascii_N_embedding c), <- (ascii_N_embedding d);
                             by f_equal).
    rewrite IH. symmetry. apply Z.add_compare_mono_l.
  - symmetry. apply Z.compare_lt_iff. unfold PyStr.digit_val in *. nia.
  - symmetry. apply Z.compare_gt_iff. unfold PyStr.digit_val in *. nia.
Qed.

Lemma insert_desc_Permutation x l : insert_desc x l ≡ₚ x :: l.
Proof.
  induction l as [|y l IH]; [done|]. cbn [insert_desc].
  destruct (PyStr.lt (zip_key x) (zip_key y)); [|done].
  rewrite IH. apply Permutation_swap.
Qed.

Lemma sort_desc_Permutation l : sort_desc l ≡ₚ l.
Proof.
  induction l as [|x l IH]; [done|]. cbn [sort_desc foldr].
  rewrite insert_desc_Permutation. by f_equiv.
Qed.

Lemma insert_desc_HdRel a x l :
  PyStr.lt (zip_key a) (zip_key x) = false ->
  HdRel (fun a b => PyStr.lt (zip_key a) (zip_key b) = false) a l ->
  HdRel (fun a b => PyStr.lt (zip_key a) (zip_key b) = false) a (insert_desc x l).
Proof.
  intros Hx Hl. destruct l as [|y l]; cbn [insert_desc]; [by constructor|].
  destruct (PyStr.lt (zip_key x) (zip_key y)); constructor; [|done].
  by inversion Hl.
Qed.

Lemma insert_desc_Sorted x l :
  Sorted (fun a b => PyStr.lt (zip_key a) (zip_key b) = false) l ->
  Sorted (fun a b => PyStr.lt (zip_key a) (zip_key b) = false) (insert_desc x l).
Proof.
  induction 1 as [|y l Hs IH Hh]; cbn [insert_desc]; [by repeat constructor|].
  destruct (PyStr.lt (zip_key x) (zip_key y)) eqn:Hxy.
  - constructor; [done|]. apply insert_desc_HdRel; [|done].
    destruct (PyStr.lt (zip_key y) (zip_key x)) eqn:Hyx; [|done].
    by destruct (str_lt_asym _ _ Hxy).
  - constructor; [by constructor|]. by constructor.
Qed.

Lemma sort_desc_Sorted l :
  Sorted (fun a b => PyStr.lt (zip_key a) (zip_key b) = false) (sort_desc l).
Proof.
  induction l as [|x l IH]; [constructor|]. cbn [sort_desc foldr].
  by apply insert_desc_Sorted.
Qed.

Lemma Sorted_Forall_impl {A} (R R' : A -> A -> Prop) (P : A -> Prop) l :
  (forall a b, P a -> P b -> R a b -> R' a b) ->
  Forall P l -> Sorted R l -> Sorted R' l.
Proof.
  intros HR HP Hs. induction Hs as [|x l Hs IH Hh]; [constructor|].
  apply Forall_cons in HP as [Hx HP]. constructor; [by apply IH|].
  destruct Hh as [|y l Hxy]; constructor.
  apply Forall_cons in HP as [Hy _]. by apply HR.
Qed.

Lemma re_match_app re f s : re_match re f = true -> re_match re (f +:+ s) = true.
Proof.
  revert f. induction re as [|a re IH]; intros [|c f]; try done.
  change (String c f +:+ s) with (String c (f +:+ s)). cbn [re_match].
  rewrite !andb_true_iff. intros [? ?]. split; [done|]. by apply IH.
Qed.

End zips.

(** X22.  The downloaded files, latest first.  Let every name of the
    directory listing that the file-name expression matches have exactly 26
    characters, so that the match is the whole name.  Then [all_zips]
    returns, in some order, exactly the names of the listing that match and
    are files, and in the result every name carries a date, read as
    [pnn_Publico_dd_mm_yyyy], that is not earlier than the date of any name
    after it. *)
Theorem all_zips_latest_first :
  forall listdir isfile,
    (forall f, f ∈ listdir -> re_match re_zip f = true -> String.length f = 26%nat) ->
    all_zips listdir isfile
      ≡ₚ filter (fun f => re_match re_zip f && isfile f = true) listdir
    /\ StronglySorted (fun a b => date b <= date a) (all_zips listdir isfile).
Proof.
  intros listdir isfile Hwf. unfold all_zips.
  split; [apply sort_desc_Permutation|].
  apply Sorted_StronglySorted; [intros a b c; lia|].
  eapply (Sorted_Forall_impl _ _
            (fun f => re_match re_zip f = true /\ String.length f = 26%nat));
    [| |apply sort_desc_Sorted].
  - intros a b [Ha La] [Hb Lb] Hab.
    destruct (zip_key_digits a Ha La) as [Da Ka].
    destruct (zip_key_digits b Hb Lb) as [Db Kb].
    rewrite <- (zip_key_date a La), <- (zip_key_date b Lb).
    unfold PyStr.lt in Hab. rewrite compare_digits in Hab by congruence.
    destruct (Z.compare_spec (Numbers.value (zip_key a)) (Numbers.value (zip_key b)));
      [lia|done|lia].
  - rewrite sort_desc_Permutation. apply Forall_forall. intros f Hf.
    apply list_elem_of_filter in Hf as [Hf Hin].
    apply andb_true_iff in Hf as [Hm _]. split; [done|]. by apply Hwf.
Qed.

Lemma all_zips_latest_first_witness :
  all_zips ["pnn_Publico_01_02_2019.zip"; "notes.txt"; "pnn_Publico_15_01_2020.zip"]
      (fun _ => true)
    ≡ₚ filter (fun f => re_match re_zip f && true = true)
         ["pnn_Publico_01_02_2019.zip"; "notes.txt"; "pnn_Publico_15_01_2020.zip"]
  /\ StronglySorted (fun a b => date b <= date a)
       (all_zips ["pnn_Publico_01_02_2019.zip"; "notes.txt"; "pnn_Publico_15_01_2020.zip"]
          (fun _ => true)).
Proof.
  apply (all_zips_latest_first
           ["pnn_Publico_01_02_2019.zip"; "notes.txt"; "pnn_Publico_15_01_2020.zip"]
           (fun _ => true)).
  intros f Hf.
  repeat (apply elem_of_cons in Hf as [->|Hf]); [by vm_compute..|by apply elem_of_nil in Hf].
Defined.

(** X23.  The file-name expression is not anchored at the end.  A name of
    the listing that begins with a match of the expression and is a file is
    returned by [all_zips], whatever follows the match in the name. *)
Theorem all_zips_accepts_longer_names :
  forall listdir isfile f s,
    re_match re_zip f = true ->
    f +:+ s ∈ listdir -> isfile (f +:+ s) = true ->
    f +:+ s ∈ all_zips listdir isfile.
Proof.
  intros listdir isfile f s Hm Hin Hfile. unfold all_zips.
  rewrite sort_desc_Permutation. apply list_elem_of_filter. split; [|done].
  apply andb_true_iff. split; [by apply re_match_app|done].
Qed.

Lemma all_zips_accepts_longer_names_witness :
  "pnn_Publico_01_02_2019.zip" +:+ ".part"
    ∈ all_zips ["pnn_Publico_01_02_2019.zip.part"] (fun _ => true).
Proof.
  apply (all_zips_accepts_longer_names ["pnn_Publico_01_02_2019.zip.part"] (fun _ => true)
           "pnn_Publico_01_02_2019.zip" ".part").
  - reflexivity.
  - by left.
  - reflexivity.
Defined.
